(** * Naturalistic data analysis: the natural-language decoding notebook

    A shallow embedding of the decoding pipeline of the notebook
    (embedding loader, transcript cleaner, temporal resampler,
    leave-one-subject-out decoder, scrambling baseline) and the
    properties its specification states about it.

    Conventions of the embedding.
    - A Python [str] is a [string]; its characters are the code points
      0..255.
    - A NumPy float64 is a primitive binary64 [float]; a 2-D array is a
      record carrying its shape and its rows.
    - A raised exception is the [Err] case of [result]; the notebook cells
      that mutate notebook variables are state-passing computations.
    - Routines of scipy / scikit-learn / nltools that the notebook only
      calls (interp1d, zscore, LinearRegression, cosine_similarity,
      argsort, glover_hrf, np.random.permutation, float()) are the fields
      of the class [Lib]; what a property assumes of them is a hypothesis
      of that property, stated with the notions of [Spec]. *)

From stdpp Require Import base option list strings gmap sorting.
From Stdlib Require Import ZArith Uint63 Floats Lia.
From Stdlib Require Import Ascii.
From Stdlib Require String.

Local Open Scope string_scope.
Local Open Scope list_scope.
Local Open Scope nat_scope.

(** ** Exceptions and fallible results *)

Inductive exn : Type :=
  | ValueError
  | IndexError
  | KeyError.

Inductive result (A : Type) : Type :=
  | Ok (a : A)
  | Err (e : exn).
Arguments Ok {A} a.
Arguments Err {A} e.

Definition rbind {A B} (r : result A) (k : A → result B) : result B :=
  match r with
  | Ok a => k a
  | Err e => Err e
  end.

Global Instance result_bind : MBind result := fun A B k r => rbind r k.
Global Instance result_ret : MRet result := fun A a => Ok a.

Definition is_ok {A} (r : result A) : bool :=
  match r with Ok _ => true | Err _ => false end.

(** ** Transcript normalizer: [clean_text] *)

Module Text.

Definition code (c : ascii) : nat := nat_of_ascii c.

Definition is_upper (c : ascii) : bool := (65 <=? code c) && (code c <=? 90).
Definition is_lower (c : ascii) : bool := (97 <=? code c) && (code c <=? 122).

(** The character class [A-Za-z '] of the pattern. *)
Definition in_class (c : ascii) : bool :=
  is_upper c || is_lower c || (code c =? 32) || (code c =? 39).

(** [skip_run s]: [s] without its longest prefix of characters outside the
    class, one match of [[^A-Za-z ']+]. *)
Fixpoint skip_run (s : string) : string :=
  match s with
  | EmptyString => EmptyString
  | String c s' => if in_class c then s else skip_run s'
  end.

(** [re.sub(r"[^A-Za-z ']+", '', text)]: scanning from the left, a
    character of the class is copied, and at a character outside it the
    whole run that starts there is the match and is replaced by the empty
    string. *)
Fixpoint re_sub (fuel : nat) (s : string) : string :=
  match fuel with
  | O => EmptyString
  | S fuel' =>
    match s with
    | EmptyString => EmptyString
    | String c s' =>
      if in_class c then String c (re_sub fuel' s')
      else re_sub fuel' (skip_run s')
    end
  end.

(** [str.lower] on the code points 0..255: A-Z and the Latin-1 capitals
    (except the multiplication sign) move up by 32. *)
Definition lower_char (c : ascii) : ascii :=
  if is_upper c || ((192 <=? code c) && (code c <=? 222) && negb (code c =? 215))
  then ascii_of_nat (code c + 32) else c.

Fixpoint lower (s : string) : string :=
  match s with
  | EmptyString => EmptyString
  | String c s' => String (lower_char c) (lower s')
  end.

Definition clean_text (text : string) : string :=
  lower (re_sub (S (String.length text)) text).

(** What the specification describes: keep the letters and the apostrophe,
    lowercased. *)
Definition is_letter (c : ascii) : bool := is_upper c || is_lower c.

Fixpoint keep (p : ascii → bool) (s : string) : string :=
  match s with
  | EmptyString => EmptyString
  | String c s' => if p c then String c (keep p s') else keep p s'
  end.

Definition clean_text_spec (text : string) : string :=
  lower (keep (fun c => is_letter c || (code c =? 39)) text).

Fixpoint chars (s : string) : list ascii :=
  match s with
  | EmptyString => []
  | String c s' => c :: chars s'
  end.

End Text.

(** ** NumPy arrays of float64 *)

Module Np.

Local Open Scope float_scope.

Definition of_Z (z : Z) : float := PrimFloat.of_uint63 (Uint63.of_Z z).
Definition of_nat (n : nat) : float := of_Z (Z.of_nat n).

(** The integer [ceil x] and [floor x] of a finite float, read off its
    mantissa and exponent; NaN and the infinities have none. *)
Definition signed_mantissa (s : bool) (m : positive) : Z :=
  if s then Z.neg m else Z.pos m.

Definition ceil (x : float) : option Z :=
  match Prim2SF x with
  | S754_zero _ => Some 0%Z
  | S754_finite s m e =>
      let z := signed_mantissa s m in
      Some (if (0 <=? e)%Z then z * 2 ^ e else - ((- z) / 2 ^ (- e)))%Z
  | _ => None
  end.

Definition floor (x : float) : option Z :=
  match Prim2SF x with
  | S754_zero _ => Some 0%Z
  | S754_finite s m e =>
      let z := signed_mantissa s m in
      Some (if (0 <=? e)%Z then z * 2 ^ e else z / 2 ^ (- e))%Z
  | _ => None
  end.

(** A 2-D array: its shape and its rows. *)
Record ndarray : Type := mk {
  nrows : nat;
  ncols : nat;
  data : list (list float)
}.

Definition wf (m : ndarray) : Prop :=
  length (data m) = nrows m ∧ Forall (fun r => length r = ncols m) (data m).

Definition wfb (m : ndarray) : bool :=
  (length (data m) =? nrows m)%nat
  && forallb (fun r => (length r =? ncols m)%nat) (data m).

(** [np.zeros((n, c))] *)
Definition zeros (n c : nat) : ndarray := mk n c (replicate n (replicate c 0)).

(** [np.concatenate(ms, axis=0)]: the column counts must agree exactly. *)
Definition concatenate (ms : list ndarray) : result ndarray :=
  match ms with
  | [] => Err ValueError
  | m :: ms' =>
      if forallb (fun m' => (ncols m' =? ncols m)%nat) ms'
      then Ok (mk (foldr (fun m' n => (nrows m' + n)%nat) 0%nat ms) (ncols m)
                  (concat (map data ms)))
      else Err ValueError
  end.

(** [m.T] *)
Definition column (j : nat) (m : ndarray) : list float :=
  map (fun r => nth j r 0) (data m).

Definition transpose (m : ndarray) : ndarray :=
  mk (ncols m) (nrows m) (map (fun j => column j m) (seq 0 (ncols m))).

(** [np.array(rows)] for [k] rows of length [n] each. *)
Definition of_rows (n : nat) (rs : list (list float)) : ndarray :=
  mk (length rs) n rs.

(** A 3-D array [(dim0, dim1, dim2)]: [dim0] matrices of one shape. *)
Record ndarray3 : Type := mk3 {
  dim0 : nat;
  dim1 : nat;
  dim2 : nat;
  data3 : list (list (list float))
}.

Definition wfb3 (X : ndarray3) : bool :=
  (length (data3 X) =? dim0 X)%nat
  && forallb (fun M => wfb (mk (dim1 X) (dim2 X) M)) (data3 X).

(** [X[idx, :, :]] *)
Definition getitem3 (X : ndarray3) (idx : nat) : result ndarray :=
  if (idx <? dim0 X)%nat
  then Ok (mk (dim1 X) (dim2 X) (nth idx (data3 X) []))
  else Err IndexError.

(** Broadcasting a value of shape [(nrows v, ncols v)] to [(k, c)]: each
    axis must have the wanted length or length 1. *)
Definition broadcastable (v : ndarray) (k c : nat) : bool :=
  ((nrows v =? k) || (nrows v =? 1))%nat && ((ncols v =? c) || (ncols v =? 1))%nat.

Definition broadcast_row (vc c : nat) (r : list float) : list float :=
  if (vc =? c)%nat then r else replicate c (nth 0 r 0).

Definition broadcast (v : ndarray) (k c : nat) : list (list float) :=
  let rows := map (broadcast_row (ncols v) c) (data v) in
  if (nrows v =? k)%nat then rows else replicate k (nth 0 rows []).

(** [A[lo:hi, :] = v]: the slice is clipped to the rows of [A]; the value
    is broadcast to the slice's shape, or the assignment raises. *)
Definition setitem_rows (A : ndarray) (lo hi : nat) (v : ndarray) : result ndarray :=
  let lo' := Nat.min lo (nrows A) in
  let hi' := Nat.min hi (nrows A) in
  let k := (hi' - lo')%nat in
  if broadcastable v k (ncols A)
  then Ok (mk (nrows A) (ncols A)
              (take lo' (data A) ++ broadcast v k (ncols A) ++ drop (lo' + k) (data A)))
  else Err ValueError.

(** [min] / [max] of a pandas column: NaN entries are skipped; with no
    entry left the result is NaN. *)
Definition nan : float := 0 / 0.

Definition min_skipna (l : list float) : float :=
  foldl (fun acc x => if is_nan x then acc
                      else if is_nan acc then x
                      else if x <? acc then x else acc) nan l.

Definition max_skipna (l : list float) : float :=
  foldl (fun acc x => if is_nan x then acc
                      else if is_nan acc then x
                      else if acc <? x then x else acc) nan l.

(** [np.arange(start, stop, 1)]: [ceil((stop - start) / 1)] samples, none
    when that is not positive; no length can be computed from NaN or an
    infinity. The samples are [start], [start + 1], and then
    [start + i * delta] for the [delta] between these two. *)
Definition arange_length (start stop : float) : option nat :=
  Z.to_nat <$> ceil ((stop - start) / 1).

Definition arange_item (start : float) (i : nat) : float :=
  match i with
  | O => start
  | S O => start + 1
  | _ => start + of_nat i * ((start + 1) - start)
  end.

Definition arange (start stop : float) : result (list float) :=
  match arange_length start stop with
  | Some n => Ok (map (arange_item start) (seq 0 n))
  | None => Err ValueError
  end.

(** [np.nan_to_num(x, nan=0)] *)
Definition max_float : float := 0x1.fffffffffffffp+1023.

Definition nan_to_num1 (x : float) : float :=
  if is_nan x then 0
  else if is_infinity x then (if x <? 0 then - max_float else max_float)
  else x.

Definition nan_to_num (m : ndarray) : ndarray :=
  mk (nrows m) (ncols m) (map (map nan_to_num1) (data m)).

(** [np.convolve(a, v)], mode 'full': [out[k] = sum_j a[j] * v[k - j]],
    the products added in the order of [j]. *)
Definition fsum (l : list float) : float := foldl PrimFloat.add 0 l.

Definition convolve_at (a v : list float) (k : nat) : float :=
  fsum (omap (fun j => if (k - j <? length v)%nat
                       then Some (nth j a 0 * nth (k - j) v 0) else None)
             (seq 0 (Nat.min (S k) (length a)))).

Definition convolve (a v : list float) : result (list float) :=
  if ((length a =? 0) || (length v =? 0))%nat then Err ValueError
  else Ok (map (convolve_at a v) (seq 0 (length a + length v - 1))).

End Np.

(** ** Python strings *)

Module Py.

(** [s.split(sep)] for a one-character separator. *)
Fixpoint split_on (sep : ascii) (s : string) : list string :=
  match s with
  | EmptyString => [EmptyString]
  | String c s' =>
      if Ascii.eqb c sep then EmptyString :: split_on sep s'
      else match split_on sep s' with
           | h :: t => String c h :: t
           | [] => [String c EmptyString]
           end
  end.

(** The characters [str.isspace] accepts among the code points 0..255. *)
Definition is_space (c : ascii) : bool :=
  let n := nat_of_ascii c in
  ((9 <=? n) && (n <=? 13)) || ((28 <=? n) && (n <=? 32)) || (n =? 133) || (n =? 160).

(** [s.split()]: the maximal runs of non-space characters. *)
Fixpoint split_ws_go (cur : string) (s : string) : list string :=
  match s with
  | EmptyString => if String.eqb cur EmptyString then [] else [cur]
  | String c s' =>
      if is_space c
      then (if String.eqb cur EmptyString then split_ws_go EmptyString s'
            else cur :: split_ws_go EmptyString s')
      else split_ws_go (cur +:+ String c EmptyString) s'
  end.

Definition split_ws (s : string) : list string := split_ws_go EmptyString s.

(** [pat in s] *)
Fixpoint contains (pat s : string) : bool :=
  String.prefix pat s ||
  match s with
  | EmptyString => false
  | String _ s' => contains pat s'
  end.

(** The lines a text file yields when iterated (universal newlines): a
    line ends at "\n", "\r\n" or "\r"; the terminator is kept as "\n". *)
Fixpoint file_lines_go (cur : string) (s : string) : list string :=
  match s with
  | EmptyString => if String.eqb cur EmptyString then [] else [cur]
  | String c s' =>
      if Ascii.eqb c "010"%char
      then (cur +:+ String "010"%char EmptyString) :: file_lines_go EmptyString s'
      else if Ascii.eqb c "013"%char
      then (cur +:+ String "010"%char EmptyString)
           :: file_lines_go EmptyString
                (match s' with
                 | String c' s'' => if Ascii.eqb c' "010"%char then s'' else s'
                 | EmptyString => s'
                 end)
      else file_lines_go (cur +:+ String c EmptyString) s'
  end.

Definition file_lines (content : string) : list string :=
  file_lines_go EmptyString content.

End Py.

(** ** The routines the notebook calls but does not define *)

Class Lib : Type := {
  (** [float(x)] of a string; [None] when it raises ValueError. *)
  py_float : string → option float;
  (** [requests.get(url).text] and the content of [open(url)]. *)
  http_text : string → string;
  file_text : string → string;
  (** [scipy.interpolate.interp1d(x, y, kind=kind, axis=0)] and the call
      of the interpolant it returns. *)
  interpolant : Type;
  interp1d : string → list float → Np.ndarray → result interpolant;
  interp_call : interpolant → list float → result Np.ndarray;
  (** [scipy.stats.zscore(a, axis=0)] *)
  zscore : Np.ndarray → Np.ndarray;
  (** [nltools.external.glover_hrf(1, oversampling=1)], the notebook's
      global [hrf_weight]. *)
  hrf_weight : list float;
  (** [sklearn.linear_model.LinearRegression]: [fit], the fitted
      [coef_], [predict]. *)
  regression : Type;
  fit : Np.ndarray → Np.ndarray → result regression;
  coef_ : regression → Np.ndarray;
  predict : regression → Np.ndarray → result Np.ndarray;
  (** [sklearn.metrics.pairwise.cosine_similarity] *)
  cosine_similarity : Np.ndarray → Np.ndarray → result Np.ndarray;
  (** [a.argsort()] of a 1-D array *)
  argsort : list float → list nat;
  (** NumPy's global random state and [np.random.permutation(n)]. *)
  rng_state : Type;
  random_permutation : rng_state → nat → list nat * rng_state
}.

(** ** Embedding loader: [get_glove_model] *)

Module Loader.
Section Loader.
Context {L : Lib}.

(** [np.array([float(x) for x in fields])] *)
Fixpoint parse_vector (fields : list string) : result (list float) :=
  match fields with
  | [] => Ok []
  | x :: rest =>
      match py_float x with
      | Some v => vs ← parse_vector rest; Ok (v :: vs)
      | None => Err ValueError
      end
  end.

(** The body of both loops: [d[split_line[0]] = np.array(...)]. *)
Definition store_line (split_line : list string)
    (d : gmap string (list float)) : result (gmap string (list float)) :=
  v ← parse_vector (tail split_line);
  match split_line with
  | key :: _ => Ok (<[key := v]> d)
  | [] => Err IndexError
  end.

Fixpoint load_lines (split : string → list string) (lines : list string)
    (d : gmap string (list float)) : result (gmap string (list float)) :=
  match lines with
  | [] => Ok d
  | line :: rest => d' ← store_line (split line) d; load_lines split rest d'
  end.

Definition get_glove_model (url : string) : result (gmap string (list float)) :=
  if Py.contains "http:" url || Py.contains "https:" url
  then load_lines (Py.split_on " "%char) (Py.split_on "010"%char (http_text url)) ∅
  else load_lines Py.split_ws (Py.file_lines (file_text url)) ∅.

End Loader.
End Loader.

(** ** Temporal resampler: [downsample_embeddings] *)

Module Resampler.
Section Resampler.
Context {L : Lib}.

(** The data frame [word_embedding]: the columns [onset] and [word], then
    the embedding columns ([iloc[:, 2:]]). *)
Record frame : Type := mkframe {
  onset : list float;
  word : list string;
  emb : Np.ndarray
}.

(** The notebook's globals. *)
Definition n_TR : nat := 1310.
Definition n_feature : nat := 100.

(** [np.array([np.convolve(x, hrf_weight)[:len(x)] for x in v.T]).T] *)
Fixpoint convolve_columns (cols : list (list float)) : result (list (list float)) :=
  match cols with
  | [] => Ok []
  | x :: rest =>
      c ← Np.convolve x hrf_weight;
      cs ← convolve_columns rest;
      Ok (take (length x) c :: cs)
  end.

Definition downsample_embeddings (word_embeddings : frame) (kind : string)
    (convolve_hrf : bool) : result Np.ndarray :=
  let word_time := onset word_embeddings in
  let embeddings := emb word_embeddings in
  linear_downsample ← interp1d kind word_time embeddings;
  TR_time ← Np.arange (Np.min_skipna word_time) (Np.max_skipna word_time);
  downsampled_vector ← interp_call linear_downsample TR_time;
  let downsampled_vector := Np.nan_to_num downsampled_vector in
  downsampled_vector ←
    Np.concatenate [Np.zeros 5 n_feature; downsampled_vector; Np.zeros 2 100];
  if convolve_hrf then
    cols ← convolve_columns (Np.data (Np.transpose downsampled_vector));
    Ok (Np.transpose (Np.of_rows (Np.nrows downsampled_vector) cols))
  else Ok downsampled_vector.

End Resampler.
End Resampler.

(** ** Notebook state *)

Module Notebook.
Section Notebook.
Context {L : Lib}.

(** The notebook variables the decoding cells assign, NumPy's global
    random state, and a trace [fit_log] (not a variable of the notebook)
    of the arguments of every [LinearRegression().fit] call, oldest
    first. *)
Record notebook : Type := mknb {
  rng : rng_state;
  test_hit : list nat;
  test_similarity : list Np.ndarray;
  map_coef : list Np.ndarray;
  scram_hit_iter : list (list float);
  fit_log : list (Np.ndarray * Np.ndarray)
}.

(** A cell: from a notebook state to the state it leaves and its value,
    or the exception that stopped it. *)
Definition M (A : Type) : Type := notebook → notebook * result A.

Definition ret {A} (a : A) : M A := fun st => (st, Ok a).

Definition bind {A B} (m : M A) (k : A → M B) : M B :=
  fun st =>
    match m st with
    | (st', Ok a) => k a st'
    | (st', Err e) => (st', Err e)
    end.

Definition lift {A} (r : result A) : M A := fun st => (st, r).

Definition modify (f : notebook → notebook) : M unit := fun st => (f st, Ok tt).

Fixpoint for_each {A} (l : list A) (body : A → M unit) : M unit :=
  match l with
  | [] => ret tt
  | a :: l' => bind (body a) (fun _ => for_each l' body)
  end.

Definition set_rng (r : rng_state) (st : notebook) : notebook :=
  mknb r (test_hit st) (test_similarity st) (map_coef st) (scram_hit_iter st) (fit_log st).

Definition append_test_hit (h : nat) : M unit :=
  modify (fun st => mknb (rng st) (test_hit st ++ [h]) (test_similarity st)
                         (map_coef st) (scram_hit_iter st) (fit_log st)).

Definition append_test_similarity (s : Np.ndarray) : M unit :=
  modify (fun st => mknb (rng st) (test_hit st) (test_similarity st ++ [s])
                         (map_coef st) (scram_hit_iter st) (fit_log st)).

Definition append_map_coef (c : Np.ndarray) : M unit :=
  modify (fun st => mknb (rng st) (test_hit st) (test_similarity st)
                         (map_coef st ++ [c]) (scram_hit_iter st) (fit_log st)).

Definition append_scram_hit_iter (a : list float) : M unit :=
  modify (fun st => mknb (rng st) (test_hit st) (test_similarity st)
                         (map_coef st) (scram_hit_iter st ++ [a]) (fit_log st)).

(** [test_hit = []; test_similarity = []; map_coef = []] *)
Definition reset_results (st : notebook) : notebook :=
  mknb (rng st) [] [] [] (scram_hit_iter st) (fit_log st).

(** [scram_hit_iter = []] *)
Definition reset_scram (st : notebook) : notebook :=
  mknb (rng st) (test_hit st) (test_similarity st) (map_coef st) [] (fit_log st).

(** [LinearRegression().fit(X_train, y_train)], traced. *)
Definition call_fit (X_train y_train : Np.ndarray) : M regression :=
  fun st =>
    (mknb (rng st) (test_hit st) (test_similarity st) (map_coef st)
          (scram_hit_iter st) (fit_log st ++ [(X_train, y_train)]),
     fit X_train y_train).

(** [np.random.permutation(n)] *)
Definition call_permutation (n : nat) : M (list nat) :=
  fun st =>
    let '(p, r) := random_permutation (rng st) n in
    (set_rng r st, Ok p).

End Notebook.
End Notebook.

Global Instance M_bind {L : Lib} : MBind Notebook.M :=
  fun A B k m => Notebook.bind m k.
Global Instance M_ret {L : Lib} : MRet Notebook.M := fun A a => Notebook.ret a.

(** ** Cross-validated decoder *)

Module Decoder.
Section Decoder.
Context {L : Lib}.
Import Notebook.

(** [LeaveOneOut().split(sub_list)]: for each index, the other indices in
    increasing order and the index itself; fewer than two samples raise. *)
Definition LOO_split (n : nat) : result (list (list nat * list nat)) :=
  if n <=? 1 then Err ValueError
  else Ok (map (fun i => (filter (fun j => j ≠ i) (seq 0 n), [i])) (seq 0 n)).

(** The loop [for i, idx in enumerate(train_index)] over the preallocated
    training arrays, from position [i]. *)
Fixpoint fill_train (X : Np.ndarray3) (Y : Np.ndarray) (i : nat)
    (train_index : list nat) (X_train y_train : Np.ndarray)
    : result (Np.ndarray * Np.ndarray) :=
  match train_index with
  | [] => Ok (X_train, y_train)
  | idx :: rest =>
      Xi ← Np.getitem3 X idx;
      X_train' ← Np.setitem_rows X_train (i * 1310) ((i + 1) * 1310) Xi;
      y_train' ← Np.setitem_rows y_train (i * 1310) ((i + 1) * 1310) Y;
      fill_train X Y (S i) rest X_train' y_train'
  end.

Definition build_train (X : Np.ndarray3) (Y : Np.ndarray) (train_index : list nat)
    : result (Np.ndarray * Np.ndarray) :=
  let X_train := Np.zeros (1310 * length train_index) 268 in
  let y_train := Np.zeros (1310 * length train_index) 100 in
  fill_train X Y 0 train_index X_train y_train.

(** [a[-n_top:]] *)
Definition last_n {A} (n : nat) (a : list A) : list A :=
  if n =? 0 then a else drop (length a - n) a.

(** [similarity[j,:].argsort()[-n_top:][::-1]] *)
Definition top_indices (n_top : nat) (row : list float) : list nat :=
  reverse (last_n n_top (argsort row)).

(** [j in top_indices] *)
Definition is_hit (n_top : nat) (similarity : Np.ndarray) (j : nat) : bool :=
  bool_decide (j ∈ top_indices n_top (nth j (Np.data similarity) [])).

(** The hit-counting loop [for j in range(similarity.shape[0])]. *)
Definition count_hits (n_top : nat) (similarity : Np.ndarray) : nat :=
  foldl (fun hit j => if is_hit n_top similarity j then hit + 1 else hit)
        0 (seq 0 (Np.nrows similarity)).

(** The accuracy the loop prints, in percent: [100*hit/1310]. *)
Definition accuracy_percent (hit : nat) : float :=
  (Np.of_nat (100 * hit) / 1310)%float.

(** One pass of the leave-one-subject-out loop. *)
Definition fold_body (X : Np.ndarray3) (Y : Np.ndarray) (n_top : nat)
    (split : list nat * list nat) : M unit :=
  let '(train_index, test_index) := split in
  '(X_train, y_train) ← lift (build_train X Y train_index);
  X_test ← lift (Np.getitem3 X (nth 0 test_index 0));
  let y_test := Y in
  reg ← call_fit X_train y_train;
  append_map_coef (coef_ reg);;
  y_pred ← lift (predict reg X_test);
  similarity ← lift (cosine_similarity y_pred y_test);
  append_test_similarity similarity;;
  let hit := count_hits n_top similarity in
  append_test_hit hit.

(** The decoding cell, up to the end of its loop. *)
Definition decoder (sub_list : list string) (X : Np.ndarray3) (Y : Np.ndarray)
    (n_top : nat) : M unit :=
  modify reset_results;;
  splits ← lift (LOO_split (length sub_list));
  for_each splits (fold_body X Y n_top).

(** The cell with its target: [Y = zscore(paranoia_embedding, axis=0)]. *)
Definition decoding_cell (sub_list : list string) (fmri_data : Np.ndarray3)
    (paranoia_embedding : Np.ndarray) (n_top : nat) : M unit :=
  decoder sub_list fmri_data (zscore paranoia_embedding) n_top.

(** The per-fold accuracies printed by a run that left [st]. *)
Definition fold_accuracies (st : notebook) : list float :=
  map accuracy_percent (test_hit st).

End Decoder.
End Decoder.

(** ** Scrambling baseline *)

Module Scrambling.
Section Scrambling.
Context {L : Lib}.
Import Notebook Resampler Decoder.

(** [m.iloc[perm, :]]: the rows at the positions [perm], in that order. *)
Fixpoint rows_at (perm : list nat) (m : Np.ndarray) : result (list (list float)) :=
  match perm with
  | [] => Ok []
  | i :: rest =>
      if i <? Np.nrows m
      then rs ← rows_at rest m; Ok (nth i (Np.data m) [] :: rs)
      else Err IndexError
  end.

(** [pd.concat([we.loc[:, ['onset', 'word']],
               we.iloc[perm, 2:].reset_index(drop=True)], axis=1)]:
    the two blocks are joined on the row number; a block that is shorter
    than the other is filled with NaN. *)
Definition scramble (perm : list nat) (word_embedding : frame) : result frame :=
  rs ← rows_at perm (emb word_embedding);
  let n := length (onset word_embedding) in
  let k := length perm in
  let c := Np.ncols (emb word_embedding) in
  Ok (mkframe (onset word_embedding ++ replicate (k - n) Np.nan)
              (word word_embedding ++ replicate (k - n) EmptyString)
              (Np.mk (Nat.max n k) c (rs ++ replicate (n - k) (replicate c Np.nan)))).

(** One pass of the inner leave-one-subject-out loop; [scram_hit] is the
    list it appends to. *)
Definition scram_fold_body (X : Np.ndarray3) (Y : Np.ndarray) (n_top : nat)
    (split : list nat * list nat) (scram_hit : list nat) : M (list nat) :=
  let '(train_index, test_index) := split in
  '(X_train, y_train) ← lift (build_train X Y train_index);
  X_test ← lift (Np.getitem3 X (nth 0 test_index 0));
  let y_test := Y in
  reg ← call_fit X_train y_train;
  y_pred ← lift (predict reg X_test);
  similarity ← lift (cosine_similarity y_pred y_test);
  let hit := count_hits n_top similarity in
  mret (scram_hit ++ [hit]).

Fixpoint scram_folds (X : Np.ndarray3) (Y : Np.ndarray) (n_top : nat)
    (splits : list (list nat * list nat)) (scram_hit : list nat) : M (list nat) :=
  match splits with
  | [] => mret scram_hit
  | s :: rest =>
      scram_hit' ← scram_fold_body X Y n_top s scram_hit;
      scram_folds X Y n_top rest scram_hit'
  end.

(** The target of a trial, from the permutation drawn for it. *)
Definition scrambled_target (perm : list nat) (word_embedding : frame)
    : result Np.ndarray :=
  word_embedding_scram ← scramble perm word_embedding;
  paranoia_embedding_scram ← downsample_embeddings word_embedding_scram "linear" true;
  Ok (zscore paranoia_embedding_scram).

(** One trial: the body of [for iter in range(n_iter)]. *)
Definition scram_iteration (word_embedding : frame) (sub_list : list string)
    (fmri_data : Np.ndarray3) (n_top : nat) : M unit :=
  perm ← call_permutation (length (onset word_embedding));
  Y ← lift (scrambled_target perm word_embedding);
  let X := fmri_data in
  splits ← lift (LOO_split (length sub_list));
  scram_hit ← scram_folds X Y n_top splits [];
  append_scram_hit_iter (map accuracy_percent scram_hit).

(** The baseline cell, up to the end of its loop. *)
Definition scrambling_cell (word_embedding : frame) (sub_list : list string)
    (fmri_data : Np.ndarray3) (n_top n_iter : nat) : M unit :=
  modify reset_scram;;
  for_each (seq 0 n_iter)
           (fun _ => scram_iteration word_embedding sub_list fmri_data n_top).

End Scrambling.
End Scrambling.

(** ** Concatenating the runs of the transcript *)

Module Transcript.

Local Open Scope float_scope.

(** A field of the column [text] as [pd.read_csv] returns it: a str, or
    NaN for an empty field and for the words pandas reads as missing
    ('null', 'NA', 'nan', ...). *)
Inductive text_field : Type :=
  | Str (s : string)
  | Missing.

(** What the cell does: it returns, or it stops with the TypeError that
    [re.sub] raises on a field that is not a str. *)
Inductive outcome (A : Type) : Type :=
  | Returns (a : A)
  | TypeError.
Arguments Returns {A} a.
Arguments TypeError {A}.

(** The body of [for run in range(1,4)] on the rows (onset, text) read
    from the file of the run, whose onset column is numeric: 3 seconds
    are added to every onset, then [run_duration[1]] for run 2, and
    [run_duration[1]] and [run_duration[2]], one after the other, for
    run 3. *)
Definition shift_run (run : nat) (run_file : list (float * text_field))
    : list (float * text_field) :=
  let run_file := map (fun r : float * text_field => (r.1 + 3, r.2)) run_file in
  let run_file :=
    if (run =? 2)%nat
    then map (fun r : float * text_field => (r.1 + 526, r.2)) run_file
    else run_file in
  let run_file :=
    if (run =? 3)%nat
    then map (fun r : float * text_field => (r.1 + 526 + 452, r.2)) run_file
    else run_file in
  run_file.

(** A row of [paranoia_transcript]: onset, text, clean_text. *)
Record row : Type := mkrow {
  row_onset : float;
  row_text : text_field;
  row_clean_text : string
}.

(** [clean_text(row['text'])] *)
Definition clean_field (text : text_field) : outcome string :=
  match text with
  | Str s => Returns (Text.clean_text s)
  | Missing => TypeError
  end.

(** [paranoia_transcript.apply(lambda row: clean_text(row['text']), axis=1)]:
    the rows are cleaned in their order, and the first text that is not
    a str stops the cell. *)
Fixpoint apply_clean_text (rows : list (float * text_field)) : outcome (list row) :=
  match rows with
  | [] => Returns []
  | r :: rest =>
      match clean_field r.2 with
      | Returns c =>
          match apply_clean_text rest with
          | Returns rs => Returns (mkrow r.1 r.2 c :: rs)
          | TypeError => TypeError
          end
      | TypeError => TypeError
      end
  end.

(** The cell: the three runs one after the other, and the column
    [clean_text]. [run_files run] is the columns onset and text of what
    [pd.read_csv] returns for the file of the run. *)
Definition paranoia_transcript (run_files : nat → list (float * text_field))
    : outcome (list row) :=
  let paranoia_transcript :=
    concat (map (fun run => shift_run run (run_files run)) [1; 2; 3]%nat) in
  apply_clean_text paranoia_transcript.

(** What the lookup cell reads of a row: [row[1]['onset']] and
    [row[1]['clean_text']]. *)
Definition iterrows (paranoia_transcript : list row) : list (float * string) :=
  map (fun r => (row_onset r, row_clean_text r)) paranoia_transcript.

End Transcript.

(** ** Projecting the transcript into the embedding space *)

(** An entry of the list [word_embedding]: a 1-D array, or the scalar
    that [np.sum] returns for an empty list. *)
Inductive value : Type :=
  | Array1 (v : list float)
  | Scalar (x : float).

(** The routines the lookup cell calls but does not define. *)
Class Nlp : Type := {
  (** [nltk.word_tokenize(word)] *)
  word_tokenize : string → list string;
  (** [np.sum(vectors, axis=0)] of a list of 1-D arrays. *)
  np_sum_axis0 : list (list float) → result value
}.

Module WordLookup.
Section WordLookup.
Context {N : Nlp}.

(** The lists the cell builds, and the lines it prints (the word it
    tries to split and its pieces). *)
Record lookup_state : Type := mkls {
  word_embedding : list value;
  word_time : list (float * string);
  error_keys : list string;
  printed : list (string * list string)
}.

(** [pre_glove_100[key]] *)
Definition getitem (d : gmap string (list float)) (key : string) : result (list float) :=
  match d !! key with
  | Some v => Ok v
  | None => Err KeyError
  end.

(** [[pre_glove_100[w] for w in split_word]] *)
Fixpoint lookup_tokens (d : gmap string (list float)) (split_word : list string)
    : result (list (list float)) :=
  match split_word with
  | [] => Ok []
  | w :: rest =>
      v ← getitem d w;
      vs ← lookup_tokens d rest;
      Ok (v :: vs)
  end.

(** [word_embedding.append(v); word_time.append({'onset': onset, 'word': word})] *)
Definition keep_word (onset : float) (word : string) (v : value)
    (st : lookup_state) : lookup_state :=
  mkls (word_embedding st ++ [v]) (word_time st ++ [(onset, word)])
       (error_keys st) (printed st).

(** [error_keys.append(word)] *)
Definition ignore_word (word : string) (st : lookup_state) : lookup_state :=
  mkls (word_embedding st) (word_time st) (error_keys st ++ [word]) (printed st).

(** [print('Trying to split... ', word, ...)] *)
Definition print_split (word : string) (split_word : list string)
    (st : lookup_state) : lookup_state :=
  mkls (word_embedding st) (word_time st) (error_keys st)
       (printed st ++ [(word, split_word)]).

(** The body of [for row in paranoia_transcript.iterrows()]: only
    KeyError is caught, by either [except]. *)
Definition lookup_row (d : gmap string (list float)) (row : float * string)
    (st : lookup_state) : result lookup_state :=
  let '(onset, word) := row in
  match getitem d word with
  | Ok v => Ok (keep_word onset word (Array1 v) st)
  | Err KeyError =>
      let split_word := word_tokenize word in
      let st := print_split word split_word st in
      match (vs ← lookup_tokens d split_word; np_sum_axis0 vs) with
      | Ok word_vector => Ok (keep_word onset word word_vector st)
      | Err KeyError => Ok (ignore_word word st)
      | Err e => Err e
      end
  | Err e => Err e
  end.

Fixpoint lookup_rows (d : gmap string (list float)) (rows : list (float * string))
    (st : lookup_state) : result lookup_state :=
  match rows with
  | [] => Ok st
  | row :: rest => st' ← lookup_row d row st; lookup_rows d rest st'
  end.

(** The cell, up to the end of its loop. *)
Definition lookup_cell (pre_glove_100 : gmap string (list float))
    (paranoia_transcript : list (float * string)) : result lookup_state :=
  lookup_rows pre_glove_100 paranoia_transcript (mkls [] [] [] []).

End WordLookup.
End WordLookup.

(** ** The matrix of the top predicted indices *)

Module HitMatrix.
Section HitMatrix.
Context {L : Lib}.

(** An integer stored into a float64 array. *)
Definition float_of_int (z : Z) : float :=
  if (z <? 0)%Z then (- Np.of_Z (- z))%float else Np.of_Z z.

(** [A[j, idx] = x] for indices that are not negative. *)
Definition setitem2 (A : Np.ndarray) (j idx : nat) (x : float) : result Np.ndarray :=
  if (j <? Np.nrows A) && (idx <? Np.ncols A)
  then Ok (Np.mk (Np.nrows A) (Np.ncols A) (alter (fun r => <[idx := x]> r) j (Np.data A)))
  else Err IndexError.

(** [A[j, c]] *)
Definition entry (A : Np.ndarray) (j c : nat) : float :=
  nth c (nth j (Np.data A) []) 0%float.

(** The loop [for k, idx in enumerate(...)] of row [j], from position
    [k]; [if j == k: hit +1] evaluates an expression and assigns
    nothing. *)
Fixpoint mark_row (n_top j k : nat) (idxs : list nat) (hit_matrix : Np.ndarray)
    : result Np.ndarray :=
  match idxs with
  | [] => Ok hit_matrix
  | idx :: rest =>
      hit_matrix' ← setitem2 hit_matrix j idx
                      (float_of_int (Z.of_nat n_top - Z.of_nat k));
      mark_row n_top j (S k) rest hit_matrix'
  end.

Fixpoint mark_rows (n_top : nat) (similarity : Np.ndarray) (js : list nat)
    (hit_matrix : Np.ndarray) : result Np.ndarray :=
  match js with
  | [] => Ok hit_matrix
  | j :: rest =>
      hit_matrix' ← mark_row n_top j 0
                      (Decoder.top_indices n_top (nth j (Np.data similarity) []))
                      hit_matrix;
      mark_rows n_top similarity rest hit_matrix'
  end.

(** The cell, from [similarity] to [hit_matrix] and [hit]. *)
Definition hit_matrix_cell (n_top : nat) (similarity : Np.ndarray)
    : result (Np.ndarray * nat) :=
  let hit := 0 in
  let hit_matrix := Np.zeros (Np.nrows similarity) (Np.ncols similarity) in
  hit_matrix ← mark_rows n_top similarity (seq 0 (Np.nrows similarity)) hit_matrix;
  Ok (hit_matrix, hit).

End HitMatrix.
End HitMatrix.

(** ** Word vectors in context *)

Module Context.
Section Context.
Context {L : Lib}.
Import Notebook Resampler.

Definition n_previous_words : nat := 6.

(** [l[i]] for an index that is not negative. *)
Definition getitem_list {A} (l : list A) (i : nat) : result A :=
  match l !! i with
  | Some x => Ok x
  | None => Err IndexError
  end.

(** [word_embedding.iloc[i, 2:]] *)
Definition iloc_row (m : Np.ndarray) (i : nat) : result (list float) :=
  if i <? Np.nrows m then Ok (nth i (Np.data m) []) else Err IndexError.

(** [a * row] *)
Definition scale (a : float) (row : list float) : list float :=
  map (fun x => (a * x)%float) row.

(** [np.sum(rows, axis=0)] of rows of one length: the rows are added to
    the first in their order. *)
Definition sum_rows (rows : list (list float)) : list float :=
  match rows with
  | [] => []
  | r :: rest => foldl (zip_with PrimFloat.add) r rest
  end.

(** [[weight[w] * word_embedding.iloc[first + w, 2:] for w in ws]] *)
Fixpoint weighted_rows (weight : list float) (m : Np.ndarray) (first : nat)
    (ws : list nat) : result (list (list float)) :=
  match ws with
  | [] => Ok []
  | w :: rest =>
      a ← getitem_list weight w;
      r ← iloc_row m (first + w);
      rs ← weighted_rows weight m first rest;
      Ok (scale a r :: rs)
  end.

(** The body of [for i in range(n_words)]: the vector appended. *)
Definition context_row (window : list float) (m : Np.ndarray) (i : nat)
    : result (list float) :=
  if i <? n_previous_words then
    let weight := Decoder.last_n (i + 1) window in
    rows ← weighted_rows weight m 0 (seq 0 (i + 1));
    Ok (map (fun x => (x / Np.of_nat (i + 1))%float) (sum_rows rows))
  else
    let weight := window in
    rows ← weighted_rows weight m (i - n_previous_words + 1) (seq 0 n_previous_words);
    Ok (map (fun x => (x / Np.of_nat n_previous_words)%float) (sum_rows rows)).

Fixpoint context_rows (window : list float) (m : Np.ndarray) (indices : list nat)
    : result (list (list float)) :=
  match indices with
  | [] => Ok []
  | i :: rest =>
      r ← context_row window m i;
      rs ← context_rows window m rest;
      Ok (r :: rs)
  end.

(** The cell, up to [pd.concat]: the frame [word_embedding_context]. *)
Definition context_embedding (window : list float) (word_embedding : frame)
    : result frame :=
  let n_words := length (onset word_embedding) in
  word_embedding_context ← context_rows window (emb word_embedding) (seq 0 n_words);
  Ok (mkframe (onset word_embedding) (word word_embedding)
              (Np.mk n_words
                     (if n_words =? 0 then 0 else Np.ncols (emb word_embedding))
                     word_embedding_context)).

(** The decoding loop of the context cell: the loop of a baseline trial,
    on the list [context_hit]. *)
Definition context_decoding (sub_list : list string) (X : Np.ndarray3)
    (Y : Np.ndarray) (n_top : nat) : M (list nat) :=
  let context_hit := [] in
  splits ← lift (Decoder.LOO_split (length sub_list));
  Scrambling.scram_folds X Y n_top splits context_hit.

End Context.
End Context.

(** ** File names *)

Module Paths.

(** [s.rfind(sep)] for a one-character separator: the position of its
    last occurrence. *)
Fixpoint rfind (sep : ascii) (s : string) : option nat :=
  match s with
  | EmptyString => None
  | String c s' =>
      match rfind sep s' with
      | Some i => Some (S i)
      | None => if Ascii.eqb c sep then Some 0 else None
      end
  end.

(** [s[n:]] *)
Fixpoint slice_from (n : nat) (s : string) : string :=
  match n, s with
  | 0, _ => s
  | S n', String _ s' => slice_from n' s'
  | S _, EmptyString => EmptyString
  end.

(** [os.path.basename(p)] of posixpath: [p[p.rfind('/') + 1:]]. *)
Definition basename (p : string) : string :=
  let i := match rfind "/" p with Some k => S k | None => 0 end in
  slice_from i p.

(** [l[-1]] and [l[0]] *)
Definition last_item {A} (l : list A) : result A :=
  match last l with
  | Some x => Ok x
  | None => Err IndexError
  end.

Definition first_item {A} (l : list A) : result A :=
  match l with
  | x :: _ => Ok x
  | [] => Err IndexError
  end.

(** [sub = os.path.basename(f).split('_')[0]] *)
Definition subject_of (f : string) : result string :=
  first_item (Py.split_on "_" (basename f)).

(** The three ways the introduction builds [file_list]: appending
    [os.path.basename(f)], appending [f.split('/')[-1]], and the list
    comprehension. *)
Definition file_list_basename (data_file_list : list string) : list string :=
  foldl (fun file_list f => file_list ++ [basename f]) [] data_file_list.

Fixpoint file_list_split_from (file_list : list string) (data_file_list : list string)
    : result (list string) :=
  match data_file_list with
  | [] => Ok file_list
  | f :: rest =>
      x ← last_item (Py.split_on "/" f);
      file_list_split_from (file_list ++ [x]) rest
  end.

Definition file_list_split (data_file_list : list string) : result (list string) :=
  file_list_split_from [] data_file_list.

Definition file_list_comprehension (data_file_list : list string) : list string :=
  map basename data_file_list.

End Paths.

(** ** The loop of the introduction *)

Module Intro.

(** [while x < end: csum += x; print(x, csum); x += 1], with the lines
    printed; [fuel] bounds the number of passes. *)
Fixpoint while_loop (fuel : nat) (x end_ csum : Z) (out : list (Z * Z))
    : option (Z * Z * list (Z * Z)) :=
  if (x <? end_)%Z then
    match fuel with
    | 0 => None
    | S fuel' =>
        let csum := (csum + x)%Z in
        let out := out ++ [(x, csum)] in
        while_loop fuel' (x + 1)%Z end_ csum out
    end
  else Some (x, csum, out).

End Intro.

(** ** Notions the properties are stated with *)

Module Spec.

(** The order NumPy sorts float64 in: by value, NaN last. A finite double
    is an integer multiple of [2^-1074]; [sort_key] is that integer. *)
Definition sort_key (x : float) : Z :=
  match Prim2SF x with
  | S754_zero _ => 0
  | S754_finite s m e => Np.signed_mantissa s m * 2 ^ (e + 1074)
  | S754_infinity s => if s then - 2 ^ 2100 else 2 ^ 2100
  | S754_nan => 2 ^ 2101
  end%Z.

Definition fle (x y : float) : Prop := (sort_key x ≤ sort_key y)%Z.

(** [idx_le row i j]: position [i] of [row] sorts before position [j]. *)
Definition idx_le (row : list float) (i j : nat) : Prop :=
  fle (nth i row 0%float) (nth j row 0%float).

Global Instance idx_le_dec row i j : Decision (idx_le row i j).
Proof. unfold idx_le, fle. apply _. Defined.

(** [S] is a choice of the [k] positions of [row] with the highest values:
    [min k (length row)] distinct positions, none of them below a position
    left out. *)
Definition is_top_k (S : list nat) (row : list float) (k : nat) : Prop :=
  NoDup S
  ∧ length S = Nat.min k (length row)
  ∧ (∀ a, a ∈ S → a < length row)
  ∧ (∀ a b, a ∈ S → b < length row → b ∉ S → idx_le row b a).

(** Vertical concatenation, and a matrix tiled [k] times. *)
Definition vstack (ms : list Np.ndarray) (c : nat) : Np.ndarray :=
  Np.mk (foldr (fun m n => Np.nrows m + n) 0 ms) c (concat (map Np.data ms)).

Definition tile (Y : Np.ndarray) (k : nat) : Np.ndarray :=
  Np.mk (k * Np.nrows Y) (Np.ncols Y) (concat (replicate k (Np.data Y))).

(** The indices [0..n-1] without [i]. *)
Definition others (n i : nat) : list nat := filter (fun j => j ≠ i) (seq 0 n).

(** Subject [idx] of [X], as a matrix. *)
Definition subject (X : Np.ndarray3) (idx : nat) : Np.ndarray :=
  Np.mk (Np.dim1 X) (Np.dim2 X) (nth idx (Np.data3 X) []).

(** The shapes NumPy accepts in the two slice assignments of the training
    loop: a subject matrix into a [1310 x 268] slice, the target into a
    [1310 x 100] slice. *)
Definition slices_fit (X : Np.ndarray3) (Y : Np.ndarray) : bool :=
  Np.broadcastable (Np.mk (Np.dim1 X) (Np.dim2 X) []) 1310 268
  && Np.broadcastable Y 1310 100.

(** The output length the specification gives for the resampler:
    [ceil(max_onset) - floor(min_onset)] plus the two pad widths. *)
Definition claimed_length (min_onset max_onset : float) (pre post : nat) : option Z :=
  c ← Np.ceil max_onset;
  f ← Np.floor min_onset;
  Some (c - f + Z.of_nat pre + Z.of_nat post)%Z.

Section WithLib.
Context {L : Lib}.
Import Notebook.

(** The fold of the specification: TrainFold on the stacked subjects and
    the tiled target, PredictFold on the held-out subject, ScoreFold. *)
Definition fold_spec (X : Np.ndarray3) (Y : Np.ndarray) (n_top : nat) (i : nat) : M unit :=
  let X_train := vstack (map (subject X) (others (Np.dim0 X) i)) (Np.dim2 X) in
  let y_train := tile Y (Np.dim0 X - 1) in
  reg ← call_fit X_train y_train;
  append_map_coef (coef_ reg);;
  y_pred ← lift (predict reg (subject X i));
  similarity ← lift (cosine_similarity y_pred Y);
  append_test_similarity similarity;;
  append_test_hit (Decoder.count_hits n_top similarity).

(** The stage of the resampler after padding, when [convolve_hrf] is set. *)
Definition hrf_stage (padded : Np.ndarray) : result Np.ndarray :=
  cols ← Resampler.convolve_columns (Np.data (Np.transpose padded));
  Ok (Np.transpose (Np.of_rows (Np.nrows padded) cols)).

(** Two notebook states with the same result lists. *)
Definition same_results (s1 s2 : notebook) : Prop :=
  test_hit s1 = test_hit s2
  ∧ test_similarity s1 = test_similarity s2
  ∧ map_coef s1 = map_coef s2.

(** A cell that reads nothing but the result lists and leaves the random
    state alone: from states with the same result lists it stops the same
    way, with the same value and the same result lists. *)
Definition oblivious {A} (m : M A) : Prop :=
  ∀ s1 s2, same_results s1 s2 →
    (m s1).2 = (m s2).2
    ∧ same_results (m s1).1 (m s2).1
    ∧ rng (m s1).1 = rng s1.

(** What is assumed of [argsort]: a permutation of the positions,
    ascending in the sort order. *)
Definition argsort_sorts : Prop :=
  ∀ row : list float,
    argsort row ≡ₚ seq 0 (length row) ∧ Sorted (idx_le row) (argsort row).

(** What is assumed of the interpolant: one row per sample point, the
    columns of the data. *)
Definition interp_shape : Prop :=
  ∀ kind x y f xs m,
    interp1d kind x y = Ok f → interp_call f xs = Ok m →
    Np.nrows m = length xs ∧ Np.ncols m = Np.ncols y ∧ Np.wf m.

(** [zscore] keeps the shape. *)
Definition zscore_shape : Prop :=
  ∀ m, Np.nrows (zscore m) = Np.nrows m ∧ Np.ncols (zscore m) = Np.ncols m.

(** [predict] returns one row per sample, with the columns of the
    targets the model was fitted on. *)
Definition predict_shape : Prop :=
  ∀ A B reg P T,
    fit A B = Ok reg → predict reg T = Ok P →
    Np.nrows P = Np.nrows T ∧ Np.ncols P = Np.ncols B.

(** [np.random.permutation(n)] returns a permutation of [0..n-1]. *)
Definition permutation_permutes : Prop :=
  ∀ r n, (random_permutation r n).1 ≡ₚ seq 0 n.

End WithLib.

End Spec.

(** The lines of the resource behind [url] and the way a line is split,
    as [get_glove_model] chooses them, and what makes a line storable. *)
Module LoaderSpec.
Section LoaderSpec.
Context {L : Lib}.

Definition is_http (url : string) : bool :=
  Py.contains "http:" url || Py.contains "https:" url.

Definition resource_lines (url : string) : list string :=
  if is_http url then Py.split_on "010"%char (http_text url)
  else Py.file_lines (file_text url).

Definition line_fields (url : string) : string → list string :=
  if is_http url then Py.split_on " "%char else Py.split_ws.

Definition split_lines (url : string) : list (list string) :=
  map (line_fields url) (resource_lines url).

(** A line can be stored: it has a first field, and every other field is
    accepted by [float]. *)
Definition storable (fields : list string) : Prop :=
  fields ≠ [] ∧ Forall (fun x => is_Some (py_float x)) (tail fields).

End LoaderSpec.
End LoaderSpec.

(** More notions for the loader: the lines that carry a token, and the
    vector a line gives. *)
Module LoaderSpec2.
Section LoaderSpec2.
Context {L : Lib}.

Definition lines_of_token (url : string) (tok : string) : list (list string) :=
  filter (fun fields => head fields = Some tok) (LoaderSpec.split_lines url).

Definition vector_of (fields : list string) : option (list float) :=
  match Loader.parse_vector (tail fields) with
  | Ok v => Some v
  | Err _ => None
  end.

(** The exception a line that cannot be stored raises. *)
Definition line_error (fields : list string) : exn :=
  match Loader.parse_vector (tail fields) with
  | Ok _ => IndexError
  | Err e => e
  end.

End LoaderSpec2.
End LoaderSpec2.

(** More notions for the decoder: how a cell makes the notebook's lists
    grow, and the positions of a row that outrank a position. *)
Module DecoderSpec2.
Section DecoderSpec2.
Context {L : Lib}.
Import Notebook Spec.

(** From [st] to [st'] the random state and [scram_hit_iter] are kept,
    [fit] was called [f] more times, and [test_hit] and [test_similarity]
    got [k] more entries, [map_coef] [m] more. *)
Definition grows (st st' : notebook) (k m f : nat) : Prop :=
  rng st' = rng st
  ∧ scram_hit_iter st' = scram_hit_iter st
  ∧ fit_log st `prefix_of` fit_log st'
  ∧ length (test_hit st') = length (test_hit st) + k
  ∧ length (test_similarity st') = length (test_similarity st) + k
  ∧ length (map_coef st') = length (map_coef st) + m
  ∧ length (fit_log st') = length (fit_log st) + f.

(** The positions of [row] whose value sorts strictly after that of [j]. *)
Definition strictly_above (row : list float) (j : nat) : list nat :=
  filter (fun b => ¬ idx_le row b j) (seq 0 (length row)).

(** The positions other than [j] whose value does not sort before that
    of [j]. *)
Definition not_below (row : list float) (j : nat) : list nat :=
  filter (fun b => b ≠ j ∧ idx_le row j b) (seq 0 (length row)).

End DecoderSpec2.
End DecoderSpec2.

(** Notions for the baseline cell. *)
Module BaselineSpec.
Section BaselineSpec.
Context {L : Lib}.
Import Notebook.

(** The random state after one [np.random.permutation(n)]. *)
Definition next_rng (n : nat) (r : rng_state) : rng_state :=
  (random_permutation r n).2.

(** From [st] to [st'] nothing changed but the random state and
    [scram_hit_iter], and [fit] was called [f] more times. *)
Definition fitted (st st' : notebook) (f : nat) : Prop :=
  test_hit st' = test_hit st
  ∧ test_similarity st' = test_similarity st
  ∧ map_coef st' = map_coef st
  ∧ ∃ calls, fit_log st' = fit_log st ++ calls ∧ length calls = f.

End BaselineSpec.
End BaselineSpec.

(** Notions for the resampler. *)
Module ResamplerSpec.

(** Neither NaN nor an infinity. *)
Definition finite (x : float) : bool :=
  negb (PrimFloat.is_nan x) && negb (PrimFloat.is_infinity x).

(** Sample [k] of the response to the columns of [padded]: for column
    [j], the sum over [i <= k] of [padded[i][j] * hrf[k - i]]. *)
Definition response_row (hrf : list float) (padded : Np.ndarray) (k : nat) : list float :=
  map (fun j => Np.convolve_at (Np.column j padded) hrf k) (seq 0 (Np.ncols padded)).

End ResamplerSpec.

(** Notions for the lookup cell. *)
Module LookupSpec.
Section LookupSpec.
Context {N : Nlp}.

(** A row that the cell keeps when [np.sum] returns: its word is a key of
    the table, or every piece of it is. *)
Definition embeddable (d : gmap string (list float)) (row : float * string) : Prop :=
  is_Some (d !! row.2) ∨ Forall (fun t => is_Some (d !! t)) (word_tokenize row.2).

Global Instance embeddable_dec d row : Decision (embeddable d row).
Proof. unfold embeddable. apply _. Defined.

(** A row whose word is not a key: the cell prints it with its pieces. *)
Definition split_tried (d : gmap string (list float)) (row : float * string) : Prop :=
  d !! row.2 = None.

Global Instance split_tried_dec d row : Decision (split_tried d row).
Proof. unfold split_tried. apply _. Defined.

(** The vectors of the pieces of a word. *)
Definition piece_vectors (d : gmap string (list float)) (word : string)
    (vs : list (list float)) : Prop :=
  Forall2 (fun t v => d !! t = Some v) (word_tokenize word) vs.

(** The entry kept for a row: the vector of its word when the word is a
    key, and otherwise what [np.sum] returns for the vectors of its
    pieces. *)
Definition entry_of (d : gmap string (list float)) (row : float * string)
    (v : value) : Prop :=
  match d !! row.2 with
  | Some x => v = Array1 x
  | None => ∃ vs, piece_vectors d row.2 vs ∧ np_sum_axis0 vs = Ok v
  end.

(** What is assumed of [np.sum]: it raises no KeyError, and it returns
    for vectors of one length. *)
Definition sum_no_key_error : Prop :=
  ∀ vs, np_sum_axis0 vs ≠ Err KeyError.

Definition sum_of_one_length : Prop :=
  ∀ vs n, Forall (fun v : list float => length v = n) vs →
          is_ok (np_sum_axis0 vs) = true.

End LookupSpec.
End LookupSpec.

(** Notions for the context cell. *)
Module ContextSpec.

(** The context vector of word [i] in one formula: with [k] the smaller
    of [i + 1] and 6, the words [i + 1 - k .. i] weighted by the last [k]
    entries of the window, added in that order and divided by [k]. *)
Definition context_formula (window : list float) (m : Np.ndarray) (i : nat) : list float :=
  let k := Nat.min (i + 1) 6 in
  map (fun x => (x / Np.of_nat k)%float)
      (Context.sum_rows
         (map (fun w => Context.scale (nth (6 - k + w) window 0%float)
                                      (nth (i + 1 - k + w) (Np.data m) []))
              (seq 0 k))).

End ContextSpec.

(** ** A reference instance of the library routines

    Executable stand-ins for the external routines, used to run the
    notebook's cells on concrete inputs. Each follows the documented
    behaviour of the routine it stands for on the inputs named in its
    comment. *)

Module Ref.

Local Open Scope float_scope.

(** [float(s)] for an integer literal: an optional minus sign and
    decimal digits. *)
Fixpoint digits_value (s : string) (acc : Z) : option Z :=
  match s with
  | EmptyString => Some acc
  | String c s' =>
      let n := nat_of_ascii c in
      if ((48 <=? n) && (n <=? 57))%nat
      then digits_value s' (10 * acc + Z.of_nat (n - 48))%Z
      else None
  end.

Definition float_of_literal (s : string) : option float :=
  match s with
  | EmptyString => None
  | String "-"%char EmptyString => None
  | String "-"%char s' => (fun z => - Np.of_Z z) <$> digits_value s' 0%Z
  | _ => Np.of_Z <$> digits_value s 0%Z
  end.

(** Linear interpolation along axis 0 as scipy computes it, for at least
    two abscissae in increasing order; a sample point outside their range
    raises. *)
Record linear_interpolant : Type := mkinterp {
  xs : list float;
  ys : Np.ndarray
}.

Fixpoint increasing (l : list float) : bool :=
  match l with
  | a :: (b :: _) as l' => (a <=? b) && increasing l'
  | _ => true
  end.

Definition interp1d_linear (kind : string) (x : list float) (y : Np.ndarray)
    : result linear_interpolant :=
  if String.eqb kind "linear" && (length x =? Np.nrows y)%nat
     && (2 <=? length x)%nat && increasing x && Np.wfb y
  then Ok (mkinterp x y) else Err ValueError.

(** [np.searchsorted(x, v)] clipped to [1, len(x) - 1]. *)
Definition bracket (x : list float) (v : float) : nat :=
  let i := length (filter (fun a => (a <? v) = true) x) in
  Nat.max 1 (Nat.min i (length x - 1)).

Definition interp_row (f : linear_interpolant) (v : float) : list float :=
  let hi := bracket (xs f) v in
  let lo := (hi - 1)%nat in
  let x_lo := nth lo (xs f) 0 in
  let x_hi := nth hi (xs f) 0 in
  let y_lo := nth lo (Np.data (ys f)) [] in
  let y_hi := nth hi (Np.data (ys f)) [] in
  map (fun j =>
         let slope := (nth j y_hi 0 - nth j y_lo 0) / (x_hi - x_lo) in
         slope * (v - x_lo) + nth j y_lo 0)
      (seq 0 (Np.ncols (ys f))).

Definition in_range (f : linear_interpolant) (v : float) : bool :=
  (nth 0 (xs f) 0 <=? v) && (v <=? nth (length (xs f) - 1) (xs f) 0).

Definition interp_call_linear (f : linear_interpolant) (x_new : list float)
    : result Np.ndarray :=
  if forallb (in_range f) x_new
  then Ok (Np.mk (length x_new) (Np.ncols (ys f)) (map (interp_row f) x_new))
  else Err ValueError.

(** [zscore(a, axis=0)]: each column minus its mean, over its population
    standard deviation. *)
Definition zscore_column (col : list float) : list float :=
  let n := Np.of_nat (length col) in
  let mean := Np.fsum col / n in
  let var := Np.fsum (map (fun v => (v - mean) * (v - mean)) col) / n in
  let std := PrimFloat.sqrt var in
  map (fun v => (v - mean) / std) col.

Definition zscore_ref (m : Np.ndarray) : Np.ndarray :=
  Np.mk (Np.nrows m) (Np.ncols m)
        (map (fun i => map (fun j => nth i (zscore_column (Np.column j m)) 0)
                           (seq 0 (Np.ncols m)))
             (seq 0 (Np.nrows m))).

(** The least-squares fit with all coefficients zero and the column means
    of the targets as intercept: what [LinearRegression] returns for a
    design matrix whose columns are constant. *)
Record mean_regression : Type := mkreg {
  n_features : nat;
  intercept : list float
}.

Definition fit_mean (X y : Np.ndarray) : result mean_regression :=
  if ((Np.nrows X =? Np.nrows y) && (1 <=? Np.nrows X))%nat
  then Ok (mkreg (Np.ncols X)
                 (map (fun j => Np.fsum (Np.column j y) / Np.of_nat (Np.nrows y))
                      (seq 0 (Np.ncols y))))
  else Err ValueError.

Definition coef_mean (reg : mean_regression) : Np.ndarray :=
  Np.zeros (length (intercept reg)) (n_features reg).

Definition predict_mean (reg : mean_regression) (X : Np.ndarray) : result Np.ndarray :=
  if (Np.ncols X =? n_features reg)%nat
  then Ok (Np.mk (Np.nrows X) (length (intercept reg))
                 (replicate (Np.nrows X) (intercept reg)))
  else Err ValueError.

(** [cosine_similarity(A, B)]: the dot products of the rows scaled to unit
    length (a zero row is left as it is). *)
Definition unit_row (r : list float) : list float :=
  let norm := PrimFloat.sqrt (Np.fsum (map (fun v => v * v) r)) in
  let norm := if norm =? 0 then 1 else norm in
  map (fun v => v / norm) r.

Definition dot (a b : list float) : float :=
  Np.fsum (zip_with PrimFloat.mul a b).

Definition cosine_similarity_ref (A B : Np.ndarray) : result Np.ndarray :=
  if (Np.ncols A =? Np.ncols B)%nat
  then Ok (Np.mk (Np.nrows A) (Np.nrows B)
                 (map (fun a => map (fun b => dot (unit_row a) (unit_row b)) (Np.data B))
                      (Np.data A)))
  else Err ValueError.

(** [argsort]: a merge sort of the positions by the sort order. *)
Definition argsort_ref (row : list float) : list nat :=
  merge_sort (Spec.idx_le row) (seq 0 (length row)).

(** A random state that is a counter; the permutation drawn is the
    rotation by the counter. *)
Definition permutation_ref (r : nat) (n : nat) : list nat * nat :=
  (rotate r (seq 0 n), S r).

(** The instance, for a text resource and a response kernel. *)
Definition lib (resource : string) (kernel : list float) : Lib := {|
  py_float := float_of_literal;
  http_text := fun _ => resource;
  file_text := fun _ => resource;
  interpolant := linear_interpolant;
  interp1d := interp1d_linear;
  interp_call := interp_call_linear;
  zscore := zscore_ref;
  hrf_weight := kernel;
  regression := mean_regression;
  fit := fit_mean;
  coef_ := coef_mean;
  predict := predict_mean;
  cosine_similarity := cosine_similarity_ref;
  argsort := argsort_ref;
  rng_state := nat;
  random_permutation := permutation_ref
|}.

End Ref.

(** Reference routines for the lookup cell: a tokenizer that splits at
    white space, and the sum of vectors of one length. *)
Module RefNlp.

Definition sum_ref (vs : list (list float)) : result value :=
  match vs with
  | [] => Ok (Scalar 0%float)
  | v :: rest =>
      if forallb (fun w => length w =? length v) rest
      then Ok (Array1 (foldl (zip_with PrimFloat.add) v rest))
      else Err ValueError
  end.

Definition nlp : Nlp := {|
  word_tokenize := Py.split_ws;
  np_sum_axis0 := sum_ref
|}.

End RefNlp.

(** ** Concrete inputs *)

Module Examples.

Local Open Scope float_scope.
Import Np Resampler Notebook.

(** The reference routines, with a four-sample response kernel. *)
Definition L0 : Lib := Ref.lib "" [0; 0.5; 0.25; 0.25].

(** A fresh notebook. *)
Definition st0 : @notebook L0 := @mknb L0 (0%nat : @rng_state L0) [] [] [] [] [].

(** A fresh notebook whose next draw is not the identity. *)
Definition st1 : @notebook L0 := @mknb L0 (1%nat : @rng_state L0) [] [] [] [] [].

(** A table of two lines with two values each. *)
Definition two_line_table : string :=
  "cheese 1 2" +:+ String "010"%char "wine 3 4".

(** Two words, at 0.5 s and 1.5 s, with 100-dimensional vectors. *)
Definition two_words : frame :=
  mkframe [0.5; 1.5] ["he"; "said"]%string
          (mk 2 100 [replicate 100 1; replicate 100 3]).

(** Three words, at 0 s, 1 s and 3 s. *)
Definition three_words : frame :=
  mkframe [0; 1; 3] ["he"; "said"; "yes"]%string
          (mk 3 100 [replicate 100 1; replicate 100 2; replicate 100 4]).

(** The same two words with 50-dimensional vectors. *)
Definition two_words_50 : frame :=
  mkframe [0.5; 1.5] ["he"; "said"]%string
          (mk 2 50 [replicate 50 1; replicate 50 3]).

(** The scenario of the specification: 3 subjects with T = 5 and F = 2,
    a target of shape 5 x 2. *)
Definition three_subjects_5x2 : ndarray3 :=
  mk3 3 5 2
      (map (fun s => map (fun t => [of_nat (s + t); of_nat (s * t + 1)]) (seq 0 5))
           (seq 0 3)).

Definition target_5x2 : ndarray :=
  mk 5 2 (map (fun t => [of_nat t; of_nat (2 * t + 1)]) (seq 0 5)).

Definition three_ids : list string := ["sub-01"; "sub-02"; "sub-03"]%string.
Definition two_ids : list string := ["sub-01"; "sub-02"]%string.

(** Two subjects with 1310 time points and 268 regions (all zero), and a
    target with a single row of 100 values. *)
Definition two_subjects_1310 : ndarray3 :=
  mk3 2 1310 268 (replicate 2 (replicate 1310 (replicate 268 0))).

Definition target_1x100 : ndarray := mk 1 100 [replicate 100 2].

(** The data of a single subject. *)
Definition one_subject_1310 : ndarray3 :=
  mk3 1 1310 268 (replicate 1 (replicate 1310 (replicate 268 0))).

(** Two subjects with a single time point each. *)
Definition two_subjects_1 : ndarray3 :=
  mk3 2 1 268 [[replicate 268 1]; [replicate 268 3]].

(** A target of the shape the decoder is written for. *)
Definition target_1310x100 : ndarray :=
  mk 1310 100 (map (fun t => replicate 100 (of_nat t)) (seq 0 1310)).

(** A 1310 x 1310 similarity matrix, 1 on the diagonal. *)
Definition similarity_1310 : ndarray :=
  mk 1310 1310
     (map (fun i => map (fun j => if (i =? j)%nat then 1 else 0) (seq 0 1310))
          (seq 0 1310)).

(** A target with 4 rows, for subjects with 5 time points. *)
Definition target_4x2 : ndarray := mk 4 2 (replicate 4 [1; 2]).

(** Tables for the loader: a token on two lines, a blank line in the
    middle, a newline at the end. *)
Definition repeated_token_table : string :=
  "cheese 1 2" +:+ String "010"%char "cheese 3 4".

Definition blank_line_table : string :=
  "cheese 1 2" +:+ String "010"%char (String "010"%char "wine 3 4").

Definition newline_ended_table : string :=
  "cheese 1 2" +:+ String "010"%char EmptyString.

(** A similarity matrix of two time points against three. *)
Definition similarity_2x3 : Np.ndarray :=
  Np.mk 2 3 [[0.25; 0.5; 0.125]; [0.25; 0.5; 0.125]]%float.

(** A frame with no row, and two padded signals that differ in their
    last row only. *)
Definition no_words : Resampler.frame :=
  Resampler.mkframe [] [] (Np.mk 0 100 []).

Definition padded_3x1 : Np.ndarray := Np.mk 3 1 [[1]; [2]; [3]]%float.

Definition padded_3x1_other_end : Np.ndarray := Np.mk 3 1 [[1]; [2]; [7]]%float.

(** A table of three words and a transcript of four rows: a word of the
    table, a word whose two pieces are in the table, a word with a piece
    that is not, and a word with no piece. *)
Definition small_table : gmap string (list float) :=
  <["ice" := [1; 2]]> (<["cream" := [3; 4]]> (<["he" := [5; 6]]> ∅)).

Definition small_transcript : list (float * string) :=
  [(0.5, "he"); (1.5, "ice cream"); (2.5, "ice lolly"); (3.5, "")]%string.

(** Six weights, and the first two of the three words followed by
    another third word. *)
Definition six_weights : list float := [0.125; 0.25; 0.5; 1; 2; 4].

Definition two_words_then_other : frame :=
  mkframe [0; 1; 3] ["he"; "said"; "no"]%string
          (mk 3 100 [replicate 100 1; replicate 100 2; replicate 100 8]).

(** Three run files of one row each, and the same files with a word that
    [pd.read_csv] reads as missing in run 2. *)
Definition three_run_files (run : nat) : list (float * Transcript.text_field) :=
  match run with
  | 1 => [(0.5, Transcript.Str "He")]
  | 2 => [(1.5, Transcript.Str "Ice cream!")]
  | 3 => [(2.5, Transcript.Str "Dr. Carmen")]
  | _ => []
  end%string.

Definition run_files_with_null (run : nat) : list (float * Transcript.text_field) :=
  match run with
  | 1 => [(0.5, Transcript.Str "He")]
  | 2 => [(1.5, Transcript.Missing)]
  | 3 => [(2.5, Transcript.Str "Dr. Carmen")]
  | _ => []
  end%string.

End Examples.

(** * Properties *)

(** ** Transcript cleaner *)

Module TextFacts.
Import Text.

Lemma skip_run_length s : String.length (skip_run s) ≤ String.length s.
Proof.
  induction s as [|c s IH]; simpl; [lia|].
  destruct (in_class c); simpl; lia.
Qed.

Lemma keep_skip_run s : keep in_class (skip_run s) = keep in_class s.
Proof.
  induction s as [|c s IH]; simpl; [done|].
  destruct (in_class c) eqn:Hc; simpl; [by rewrite Hc|done].
Qed.

Lemma re_sub_keep fuel s :
  String.length s < fuel → re_sub fuel s = keep in_class s.
Proof.
  revert s. induction fuel as [|fuel IH]; intros s Hlen; [lia|].
  destruct s as [|c s]; simpl; [done|].
  simpl in Hlen. destruct (in_class c).
  - rewrite IH by lia. done.
  - rewrite IH by (pose proof (skip_run_length s); lia).
    apply keep_skip_run.
Qed.

Lemma chars_lower s : chars (lower s) = map lower_char (chars s).
Proof. induction s as [|c s IH]; simpl; [done|by rewrite IH]. Qed.

Lemma chars_keep p s : chars (keep p s) = List.filter p (chars s).
Proof.
  induction s as [|c s IH]; simpl; [done|].
  destruct (p c); simpl; by rewrite IH.
Qed.

Lemma lower_char_in_class c :
  in_class c = true →
  is_lower (lower_char c) = true ∨ code (lower_char c) = 32 ∨ code (lower_char c) = 39.
Proof.
  destruct c as [[] [] [] [] [] [] [] []]; vm_compute; intros; auto; discriminate.
Qed.

(** C8, as the code has it: [clean_text] keeps exactly the characters of
    the class [A-Za-z '] (the Latin letters, the apostrophe and also the
    space), in their order, and lowercases them; every character of the
    result is a lowercase Latin letter, a space or an apostrophe. *)
Theorem clean_text_keeps_letters_space_apostrophe (text : string) :
  clean_text text = lower (keep in_class text)
  ∧ chars (clean_text text) = map lower_char (List.filter in_class (chars text))
  ∧ ∀ c, In c (chars (clean_text text)) →
         is_lower c = true ∨ code c = 32 ∨ code c = 39.
Proof.
  assert (H : clean_text text = lower (keep in_class text)).
  { unfold clean_text. rewrite re_sub_keep by lia. done. }
  split; [done|]. rewrite H, chars_lower, chars_keep. split; [done|].
  intros c Hc. apply in_map_iff in Hc as (c' & <- & Hc').
  apply filter_In in Hc' as [_ Hc']. by apply lower_char_in_class.
Qed.

(** C8, as the specification words it, fails: the space of "a b" is
    neither a letter nor an apostrophe, and it is retained. *)
Lemma clean_text_retains_space :
  clean_text "a b" = "a b" ∧ clean_text "a b" ≠ clean_text_spec "a b".
Proof. split; [reflexivity|]. vm_compute. discriminate. Qed.

End TextFacts.

(** ** Embedding loader *)

Module LoaderFacts.
Section LoaderFacts.
Context {L : Lib}.
Import Loader LoaderSpec LoaderSpec2.

Lemma parse_vector_ok fields :
  is_ok (parse_vector fields) = true ↔ Forall (fun x => is_Some (py_float x)) fields.
Proof.
  induction fields as [|x fields IH]; simpl; [by split|].
  destruct (py_float x) as [v|] eqn:Hx.
  - unfold mbind, result_bind; simpl.
    destruct (parse_vector fields) as [vs|e]; simpl in *.
    + split; [|done]. intros _. constructor; [by rewrite Hx|by apply IH].
    + split; [done|]. intros H. inversion H; subst. by apply IH.
  - split; [done|]. intros H. inversion H as [|? ? [? Hs] ?]; subst. congruence.
Qed.

Lemma parse_vector_length fields v :
  parse_vector fields = Ok v → length v = length fields.
Proof.
  revert v. induction fields as [|x fields IH]; simpl; intros v Hv.
  - by inversion Hv.
  - destruct (py_float x); [|done].
    unfold mbind, result_bind in Hv; simpl in Hv.
    destruct (parse_vector fields) as [vs|e]; simpl in Hv; [|done].
    inversion Hv; subst; simpl. f_equal. by apply IH.
Qed.

Lemma store_line_ok fields d :
  is_ok (store_line fields d) = true ↔ storable fields.
Proof.
  unfold store_line, storable, mbind, result_bind.
  pose proof (parse_vector_ok (tail fields)) as Hp.
  destruct (parse_vector (tail fields)) as [v|e]; simpl in *.
  - destruct fields; simpl; [by split; [|intros []]|].
    split; [|done]. intros _. split; [done|]. by apply Hp.
  - split; [done|]. intros [_ H]. by apply Hp.
Qed.

Lemma store_line_lookup fields d d' tok v :
  store_line fields d = Ok d' → d' !! tok = Some v →
  d !! tok = Some v ∨ (head fields = Some tok ∧ length v = length (tail fields)).
Proof.
  unfold store_line, mbind, result_bind.
  destruct (parse_vector (tail fields)) as [w|e] eqn:Hw; simpl; [|done].
  destruct fields as [|key rest]; [done|]. intros [= <-] Hl.
  destruct (decide (key = tok)) as [->|Hne].
  - rewrite lookup_insert_eq in Hl. inversion Hl; subst. right. split; [done|].
    by apply parse_vector_length.
  - rewrite lookup_insert_ne in Hl by done. by left.
Qed.

Lemma load_lines_ok split lines d :
  is_ok (load_lines split lines d) = true ↔ Forall storable (map split lines).
Proof.
  revert d. induction lines as [|line lines IH]; intros d; simpl; [by split|].
  unfold mbind, result_bind.
  pose proof (store_line_ok (split line) d) as Hs.
  destruct (store_line (split line) d) as [d'|e]; simpl in *.
  - rewrite IH. split; [intros; constructor; [by apply Hs|done]|by inversion 1].
  - split; [done|]. inversion 1; subst. by apply Hs.
Qed.

Lemma load_lines_lookup split lines d d' tok v :
  load_lines split lines d = Ok d' → d' !! tok = Some v →
  d !! tok = Some v
  ∨ ∃ fields, fields ∈ map split lines
              ∧ head fields = Some tok ∧ length v = length (tail fields).
Proof.
  revert d. induction lines as [|line lines IH]; intros d; simpl.
  - intros [= <-] ?. by left.
  - unfold mbind, result_bind.
    destruct (store_line (split line) d) as [d1|e] eqn:Hs; simpl; [|done].
    intros Hl Hv. destruct (IH _ Hl Hv) as [H1|(fs & Hin & ?)].
    + destruct (store_line_lookup _ _ _ _ _ Hs H1) as [?|[? ?]]; [by left|].
      right. exists (split line). split; [left|done].
    + right. exists fs. split; [by right|done].
Qed.

Lemma get_glove_model_unfold url :
  get_glove_model url = load_lines (line_fields url) (resource_lines url) ∅.
Proof.
  unfold get_glove_model, line_fields, resource_lines, is_http.
  by destruct (_ || _).
Qed.

Lemma last_cons_or {A} (x : A) (l : list A) :
  last (x :: l) = match last l with Some y => Some y | None => Some x end.
Proof. destruct l as [|y l]; [done|]. change (last (x :: y :: l)) with (last (y :: l)).
  by destruct (proj2 (last_is_Some (y :: l))) as [z ->].
Qed.

Lemma load_lines_last split lines d d' tok :
  load_lines split lines d = Ok d' →
  d' !! tok =
  match last (filter (fun fields => head fields = Some tok) (map split lines)) with
  | Some fields => vector_of fields
  | None => d !! tok
  end.
Proof.
  revert d. induction lines as [|line lines IH]; intros d; simpl.
  - by intros [= <-].
  - unfold mbind, result_bind, rbind.
    destruct (store_line (split line) d) as [d1|e] eqn:Hs; [|done].
    intros Hl. rewrite (IH _ Hl). clear IH Hl.
    unfold store_line, mbind, result_bind, rbind in Hs.
    destruct (parse_vector (tail (split line))) as [v|e] eqn:Hv; [|done].
    destruct (split line) as [|key rest] eqn:Hsplit; [done|].
    injection Hs as <-.
    destruct (decide (key = tok)) as [->|Hne].
    + rewrite filter_cons_True by done. rewrite last_cons_or.
      destruct (last _); [done|].
      rewrite lookup_insert_eq. unfold vector_of. by rewrite Hv.
    + rewrite filter_cons_False by (simpl; congruence).
      destruct (last _); [done|]. by rewrite lookup_insert_ne.
Qed.

(** After a load that returns, every line has left its token in the
    mapping, with the values of the last line that starts with that
    token. *)
Lemma load_lines_keeps_tokens split lines d fields :
  load_lines split lines ∅ = Ok d → fields ∈ map split lines →
  ∃ tok fs v,
    head fields = Some tok
    ∧ last (filter (fun fs' => head fs' = Some tok) (map split lines)) = Some fs
    ∧ fs ∈ map split lines
    ∧ parse_vector (tail fs) = Ok v
    ∧ d !! tok = Some v.
Proof.
  intros Hd Hin.
  assert (Hall : Forall storable (map split lines)).
  { apply (proj1 (load_lines_ok split lines ∅)). by rewrite Hd. }
  rewrite Forall_forall in Hall.
  destruct (Hall fields Hin) as [Hne _].
  destruct fields as [|tok rest]; [done|]. exists tok.
  set (carrying := filter (fun fs' => head fs' = Some tok) (map split lines)).
  assert (Hmem : (tok :: rest) ∈ carrying)
    by (apply list_elem_of_filter; split; done).
  destruct (proj2 (last_is_Some carrying)) as [fs Hfs].
  { intros Hnil. rewrite Hnil in Hmem. by apply elem_of_nil in Hmem. }
  assert (Hfs_in : fs ∈ map split lines).
  { apply last_Some_elem_of in Hfs. by apply list_elem_of_filter in Hfs as [_ ?]. }
  destruct (Hall fs Hfs_in) as [_ Hvals].
  apply (proj2 (parse_vector_ok (tail fs))) in Hvals.
  destruct (parse_vector (tail fs)) as [v|] eqn:Hv; [|done].
  exists fs, v. split; [done|]. split; [done|]. split; [done|]. split; [done|].
  rewrite (load_lines_last _ _ _ _ tok Hd). fold carrying. rewrite Hfs.
  unfold vector_of. by rewrite Hv.
Qed.

(** C7, as the code has it: no line is skipped. The load returns a mapping
    exactly when every line of the resource has a first field and every
    other field of every line is accepted by [float] (otherwise the
    exception aborts the load); each token of the mapping carries as many
    values as a line with that token has fields after it; every line of
    a resource that loads has its token in the mapping, whatever the
    number of its values, with the values of the last line that starts
    with that token; so every vector has dimension [D] when every line
    has [D] numeric fields. *)
Theorem get_glove_model_stores_every_line (url : string) :
  (is_ok (get_glove_model url) = true ↔ Forall storable (split_lines url))
  ∧ (∀ d tok v, get_glove_model url = Ok d → d !! tok = Some v →
       ∃ fields, fields ∈ split_lines url
                 ∧ head fields = Some tok ∧ length v = length (tail fields))
  ∧ (∀ d fields, get_glove_model url = Ok d → fields ∈ split_lines url →
       ∃ tok fs v,
         head fields = Some tok
         ∧ last (lines_of_token url tok) = Some fs
         ∧ fs ∈ split_lines url
         ∧ parse_vector (tail fs) = Ok v
         ∧ d !! tok = Some v)
  ∧ (∀ D, Forall (fun fields => storable fields ∧ length (tail fields) = D)
                 (split_lines url) →
       ∃ d, get_glove_model url = Ok d
            ∧ ∀ tok v, d !! tok = Some v → length v = D).
Proof.
  rewrite get_glove_model_unfold. unfold lines_of_token, split_lines.
  split; [apply load_lines_ok|]. split; [|split].
  - intros d tok v Hd Hv.
    destruct (load_lines_lookup _ _ _ _ _ _ Hd Hv) as [H|H]; [|done].
    by rewrite lookup_empty in H.
  - intros d fields Hd Hin. by apply load_lines_keeps_tokens.
  - intros D HD.
    assert (Hok : is_ok (load_lines (line_fields url) (resource_lines url) ∅) = true).
    { apply load_lines_ok. eapply Forall_impl; [exact HD|]. by intros ? [? _]. }
    destruct (load_lines _ _ _) as [d|e] eqn:Hd; [|done].
    exists d. split; [done|]. intros tok v Hv.
    destruct (load_lines_lookup _ _ _ _ _ _ Hd Hv) as [H|(fs & Hin & _ & ->)].
    + by rewrite lookup_empty in H.
    + rewrite Forall_forall in HD. by apply HD.
Qed.

End LoaderFacts.

(** C7, as the specification words it, fails: a line with two values is
    stored with its two values whatever the dimension of the table, and a
    line with a field that is not a number aborts the load. *)
Lemma glove_short_row_kept_bad_row_fatal :
  (∃ d, @Loader.get_glove_model (Ref.lib "cheese 1 2" []) "http://glove" = Ok d
        ∧ d !! "cheese" = Some [1; 2]%float)
  ∧ @Loader.get_glove_model (Ref.lib "cheese 1 x" []) "http://glove" = Err ValueError
  ∧ @Loader.get_glove_model (Ref.lib "cheese 1 x" []) "glove.txt" = Err ValueError.
Proof.
  split; [|split; reflexivity].
  eexists. split; [reflexivity|]. reflexivity.
Qed.

Lemma get_glove_model_stores_every_line_witness :
  ∃ d, @Loader.get_glove_model (Ref.lib Examples.two_line_table []) "http://glove" = Ok d
       ∧ d !! "wine" = Some [3; 4]%float
       ∧ ∀ tok v, d !! tok = Some v → length v = 2.
Proof.
  assert (Hl : @LoaderSpec.split_lines (Ref.lib Examples.two_line_table [])
                 "http://glove"
               = [["cheese"; "1"; "2"]; ["wine"; "3"; "4"]])
    by (vm_compute; reflexivity).
  destruct (@get_glove_model_stores_every_line
              (Ref.lib Examples.two_line_table []) "http://glove")
    as (_ & _ & Hkeep & Hdim).
  destruct (Hdim 2) as (d & Hd & Hlen).
  { rewrite Hl. repeat constructor; try discriminate; by eexists. }
  exists d. split; [exact Hd|]. split; [|exact Hlen].
  destruct (Hkeep d ["wine"; "3"; "4"] Hd) as (tok & fs & v & Htok & Hlast & _ & Hv & Hget).
  { rewrite Hl. right. left. }
  injection Htok as <-.
  assert (Hfs : fs = ["wine"; "3"; "4"]).
  { unfold LoaderSpec2.lines_of_token in Hlast. rewrite Hl in Hlast.
    vm_compute in Hlast. by injection Hlast as <-. }
  subst fs. vm_compute in Hv. injection Hv as <-. exact Hget.
Defined.

End LoaderFacts.

(** ** Arrays *)

Module NpFacts.
Import Np.

Lemma wfb_wf m : wfb m = true ↔ wf m.
Proof.
  unfold wfb, wf. rewrite andb_true_iff, Nat.eqb_eq, forallb_forall, Forall_forall.
  split; intros [H1 H2]; (split; [done|]); intros r Hr.
  - apply Nat.eqb_eq, H2. by apply list_elem_of_In.
  - apply Nat.eqb_eq, H2. by apply list_elem_of_In.
Qed.

Lemma wf_zeros n c : wf (zeros n c).
Proof.
  unfold wf, zeros; simpl. rewrite length_replicate. split; [done|].
  apply Forall_replicate. by rewrite length_replicate.
Qed.

Lemma length_column j m : length (column j m) = length (data m).
Proof. unfold column. by rewrite length_map. Qed.

(** The padding step of the resampler. *)
Lemma concatenate_pad (m : ndarray) :
  concatenate [zeros 5 100; m; zeros 2 100] =
  if ncols m =? 100
  then Ok (mk (5 + (nrows m + 2)) 100
              (replicate 5 (replicate 100 0%float) ++ data m
               ++ replicate 2 (replicate 100 0%float)))
  else Err ValueError.
Proof.
  unfold concatenate. cbn [forallb ncols zeros].
  rewrite Nat.eqb_refl.
  destruct (ncols m =? 100); [|done].
  cbn [andb foldr nrows zeros map concat data].
  by rewrite Nat.add_0_r, app_nil_r.
Qed.

Lemma length_convolve a v c :
  convolve a v = Ok c → length c = length a + length v - 1.
Proof.
  unfold convolve. destruct (_ || _); [done|].
  intros [= <-]. by rewrite length_map, length_seq.
Qed.

Lemma convolve_is_ok a v :
  a ≠ [] → v ≠ [] → ∃ c, convolve a v = Ok c.
Proof.
  intros Ha Hv. unfold convolve.
  destruct a; [done|]. destruct v; [done|]. simpl. eauto.
Qed.

Lemma nrows_setitem_rows A lo hi v A' :
  setitem_rows A lo hi v = Ok A' → nrows A' = nrows A ∧ ncols A' = ncols A.
Proof.
  unfold setitem_rows. destruct (broadcastable _ _ _); [|done].
  by intros [= <-].
Qed.

End NpFacts.

(** ** Temporal resampler *)

Module ResamplerFacts.
Section ResamplerFacts.
Context {L : Lib}.
Import Np NpFacts Resampler Spec.

Lemma downsample_convolved we kind :
  downsample_embeddings we kind true =
  (padded ← downsample_embeddings we kind false; hrf_stage padded).
Proof.
  unfold downsample_embeddings, hrf_stage, mbind, result_bind, rbind.
  destruct (interp1d _ _ _); [|done].
  destruct (arange _ _); [|done].
  destruct (interp_call _ _); [|done].
  by destruct (concatenate _).
Qed.

Lemma convolve_columns_ok cols :
  hrf_weight ≠ [] → Forall (fun x => x ≠ []) cols →
  ∃ cs, convolve_columns cols = Ok cs ∧ length cs = length cols.
Proof.
  intros Hh. induction 1 as [|x cols Hx Hcols (cs & IH & Hlen)]; simpl.
  - by exists [].
  - destruct (convolve_is_ok x hrf_weight Hx Hh) as [c Hc].
    unfold mbind, result_bind, rbind. rewrite Hc, IH.
    eexists. split; [done|]. simpl. by rewrite Hlen.
Qed.

Lemma convolve_columns_length cols cs :
  convolve_columns cols = Ok cs → length cs = length cols.
Proof.
  revert cs. induction cols as [|x cols IH]; simpl; intros cs.
  - by intros [= <-].
  - unfold mbind, result_bind, rbind.
    destruct (convolve _ _); [|done].
    destruct (convolve_columns cols) as [cs'|]; [|done].
    intros [= <-]. simpl. f_equal. by apply IH.
Qed.

Lemma hrf_stage_shape padded out :
  hrf_stage padded = Ok out →
  nrows out = nrows padded ∧ ncols out = ncols padded
  ∧ length (data out) = nrows padded.
Proof.
  unfold hrf_stage, mbind, result_bind, rbind.
  destruct (convolve_columns _) as [cs|] eqn:Hcs; [|done].
  intros [= <-]. apply convolve_columns_length in Hcs.
  unfold transpose, of_rows in *; simpl in *.
  rewrite length_map, length_seq in Hcs.
  by rewrite !length_map, length_seq.
Qed.

Lemma hrf_stage_ok padded :
  hrf_weight ≠ [] → data padded ≠ [] → ∃ out, hrf_stage padded = Ok out.
Proof.
  intros Hh Hd. unfold hrf_stage, mbind, result_bind, rbind.
  destruct (convolve_columns_ok (data (transpose padded)) Hh) as (cs & -> & _).
  - unfold transpose; simpl. apply Forall_forall. intros x Hx.
    apply list_elem_of_fmap in Hx as (j & -> & _).
    unfold column. destruct (data padded); [done|]. done.
  - eauto.
Qed.

(** The function without the response stage, step by step. *)
Lemma downsample_padded we kind padded :
  interp_shape →
  downsample_embeddings we kind false = Ok padded →
  ∃ f ts ds,
    interp1d kind (onset we) (emb we) = Ok f
    ∧ arange (min_skipna (onset we)) (max_skipna (onset we)) = Ok ts
    ∧ interp_call f ts = Ok ds
    ∧ ncols (emb we) = 100
    ∧ length (data ds) = length ts
    ∧ padded = mk (5 + (length ts + 2)) 100
                  (replicate 5 (replicate 100 0%float)
                   ++ data (nan_to_num ds)
                   ++ replicate 2 (replicate 100 0%float)).
Proof.
  intros Hshape. unfold downsample_embeddings, mbind, result_bind, rbind.
  destruct (interp1d _ _ _) as [f|] eqn:Hf; [|done].
  destruct (arange _ _) as [ts|] eqn:Hts; [|done].
  destruct (interp_call _ _) as [ds|] eqn:Hds; [|done].
  destruct (Hshape _ _ _ _ _ _ Hf Hds) as (Hn & Hc & Hlen & _).
  change (zeros 5 n_feature) with (zeros 5 100).
  rewrite concatenate_pad. cbn [ncols nan_to_num]. rewrite Hc.
  destruct (ncols (emb we) =? 100) eqn:H100; [|done].
  apply Nat.eqb_eq in H100. intros [= <-].
  exists f, ts, ds. cbn [nrows nan_to_num]. rewrite Hn.
  repeat split; try done. congruence.
Qed.

Lemma arange_length_spec start stop ts :
  arange start stop = Ok ts → arange_length start stop = Some (length ts).
Proof.
  unfold arange. destruct (arange_length start stop) as [n|]; [|done].
  intros [= <-]. by rewrite length_map, length_seq.
Qed.

End ResamplerFacts.
End ResamplerFacts.

(** ** The reference interpolant has the assumed shape *)

Module RefFacts.
Import Np.

Lemma ref_interp_shape resource kernel :
  @Spec.interp_shape (Ref.lib resource kernel).
Proof.
  intros kind x y f xs m Hf Hm. simpl in *.
  unfold Ref.interp1d_linear in Hf. unfold Ref.interp_call_linear in Hm.
  destruct (_ && _) in Hf; [|done]. injection Hf as <-.
  destruct (forallb _ _) in Hm; [|done]. injection Hm as <-.
  simpl. split; [done|]. split; [done|]. unfold wf; simpl.
  rewrite length_map. split; [done|].
  apply Forall_forall. intros r Hr.
  apply list_elem_of_fmap in Hr as (v & -> & _).
  unfold Ref.interp_row. by rewrite length_map, length_seq.
Qed.

Lemma ref_zscore_shape resource kernel :
  @Spec.zscore_shape (Ref.lib resource kernel).
Proof. intros m. done. Qed.

End RefFacts.

Module ResamplerClaims.
Section ResamplerClaims.
Context {L : Lib}.
Import Np NpFacts Resampler Spec ResamplerFacts.

Lemma downsample_shape we kind conv out :
  interp_shape →
  downsample_embeddings we kind conv = Ok out →
  ∃ ts, arange (min_skipna (onset we)) (max_skipna (onset we)) = Ok ts
        ∧ ncols (emb we) = 100
        ∧ nrows out = 5 + (length ts + 2) ∧ length (data out) = 5 + (length ts + 2)
        ∧ ncols out = 100.
Proof.
  intros Hshape. destruct conv.
  - rewrite downsample_convolved. unfold mbind, result_bind, rbind.
    destruct (downsample_embeddings we kind false) as [padded|] eqn:Hp; [|done].
    intros Hout. apply hrf_stage_shape in Hout as (Hn & Hc & Hlen).
    destruct (downsample_padded _ _ _ Hshape Hp) as (f & ts & ds & _ & Hts & _ & H100 & _ & ->).
    exists ts. simpl in *. by rewrite Hn, Hc, Hlen.
  - intros Hp.
    destruct (downsample_padded _ _ _ Hshape Hp) as (f & ts & ds & _ & Hts & _ & H100 & Hlen & ->).
    exists ts. cbn [nrows ncols data nan_to_num].
    rewrite !length_app, !length_replicate, length_map.
    repeat split; try done. lia.
Qed.

Lemma downsample_returns we kind conv f ts ds :
  interp_shape →
  hrf_weight ≠ [] →
  interp1d kind (onset we) (emb we) = Ok f →
  arange (min_skipna (onset we)) (max_skipna (onset we)) = Ok ts →
  interp_call f ts = Ok ds →
  ncols (emb we) = 100 →
  ∃ out, downsample_embeddings we kind conv = Ok out.
Proof.
  intros Hshape Hh Hf Hts Hds H100.
  assert (Hp : ∃ padded, downsample_embeddings we kind false = Ok padded
                         ∧ data padded ≠ []).
  { unfold downsample_embeddings, mbind, result_bind, rbind.
    rewrite Hf, Hts, Hds. change (zeros 5 n_feature) with (zeros 5 100).
    rewrite concatenate_pad.
    destruct (Hshape _ _ _ _ _ _ Hf Hds) as (_ & Hc & _).
    cbn [ncols nan_to_num]. rewrite Hc, H100, Nat.eqb_refl.
    eexists. split; [done|]. done. }
  destruct Hp as (padded & Hp & Hne). destruct conv; [|eauto].
  rewrite downsample_convolved, Hp. unfold mbind, result_bind, rbind.
  by apply hrf_stage_ok.
Qed.

(** C3, as the code has it: the output has [ceil(max_onset - min_onset)]
    rows, the number of unit steps [np.arange] takes from the smallest
    onset up to the largest, plus the 5 and 2 rows of padding; this is so
    whenever the function returns, it returns whenever the library calls
    succeed on 100-column embeddings, and two inputs with the same
    smallest and largest onset give outputs of the same length, whatever
    rows lie between. *)
Theorem downsample_length (we : frame) (kind : string) (convolve_hrf : bool) :
  interp_shape →
  (∀ out, downsample_embeddings we kind convolve_hrf = Ok out →
     ∃ z, ceil ((max_skipna (onset we) - min_skipna (onset we)) / 1) = Some z
          ∧ nrows out = 5 + Z.to_nat z + 2
          ∧ length (data out) = 5 + Z.to_nat z + 2)
  ∧ (∀ f ts ds,
       hrf_weight ≠ [] →
       interp1d kind (onset we) (emb we) = Ok f →
       arange (min_skipna (onset we)) (max_skipna (onset we)) = Ok ts →
       interp_call f ts = Ok ds →
       ncols (emb we) = 100 →
       ∃ out, downsample_embeddings we kind convolve_hrf = Ok out)
  ∧ (∀ we' kind' conv' out out',
       min_skipna (onset we') = min_skipna (onset we) →
       max_skipna (onset we') = max_skipna (onset we) →
       downsample_embeddings we kind convolve_hrf = Ok out →
       downsample_embeddings we' kind' conv' = Ok out' →
       nrows out' = nrows out).
Proof.
  intros Hshape. split; [|split].
  - intros out Hout.
    destruct (downsample_shape _ _ _ _ Hshape Hout) as (ts & Hts & _ & Hn & Hlen & _).
    apply arange_length_spec in Hts. unfold arange_length in Hts.
    destruct (ceil _) as [z|]; [|done]. simpl in Hts. injection Hts as Hts.
    exists z. split; [done|]. lia.
  - intros f ts ds Hh Hf Hts Hds H100. by eapply downsample_returns.
  - intros we' kind' conv' out out' Hmin Hmax Hout Hout'.
    destruct (downsample_shape _ _ _ _ Hshape Hout) as (ts & Hts & _ & Hn & _).
    destruct (downsample_shape _ _ _ _ Hshape Hout') as (ts' & Hts' & _ & Hn' & _).
    rewrite Hmin, Hmax in Hts'. congruence.
Qed.

(** C10: the padded signal is 5 rows of 100 zeros, then the signal the
    interpolant returns at the sample times with its NaN replaced by
    zeros, one row per sample time, then 2 rows of 100 zeros, and
    nothing else; the response stage works on that padded signal; the
    function returns nothing when the embedding block does not have
    exactly 100 columns (when the library calls before it succeed, it is
    the concatenation with the zero blocks that raises), while with 100
    columns it returns whenever the library calls succeed. *)
Theorem downsample_pads_5_and_2_of_100 (we : frame) (kind : string) :
  interp_shape →
  (∀ padded, downsample_embeddings we kind false = Ok padded →
     ∃ f ts ds,
       interp1d kind (onset we) (emb we) = Ok f
       ∧ arange (min_skipna (onset we)) (max_skipna (onset we)) = Ok ts
       ∧ interp_call f ts = Ok ds
       ∧ data padded = replicate 5 (replicate 100 0%float)
                       ++ map (map nan_to_num1) (data ds)
                       ++ replicate 2 (replicate 100 0%float)
       ∧ length (data ds) = length ts
       ∧ take 5 (data padded) = replicate 5 (replicate 100 0%float)
       ∧ drop (5 + length ts) (data padded) = replicate 2 (replicate 100 0%float)
       ∧ nrows padded = 5 + length ts + 2
       ∧ ncols padded = 100)
  ∧ downsample_embeddings we kind true =
      (padded ← downsample_embeddings we kind false; hrf_stage padded)
  ∧ (ncols (emb we) ≠ 100 →
       ∀ convolve_hrf, ∃ e, downsample_embeddings we kind convolve_hrf = Err e)
  ∧ (∀ f ts ds convolve_hrf,
       interp1d kind (onset we) (emb we) = Ok f →
       arange (min_skipna (onset we)) (max_skipna (onset we)) = Ok ts →
       interp_call f ts = Ok ds →
       ncols (emb we) ≠ 100 →
       concatenate [zeros 5 n_feature; nan_to_num ds; zeros 2 100] = Err ValueError
       ∧ downsample_embeddings we kind convolve_hrf = Err ValueError)
  ∧ (∀ f ts ds convolve_hrf,
       hrf_weight ≠ [] →
       interp1d kind (onset we) (emb we) = Ok f →
       arange (min_skipna (onset we)) (max_skipna (onset we)) = Ok ts →
       interp_call f ts = Ok ds →
       ncols (emb we) = 100 →
       ∃ out, downsample_embeddings we kind convolve_hrf = Ok out).
Proof.
  intros Hshape. split; [|split; [|split; [|split]]].
  - intros padded Hp.
    destruct (downsample_padded _ _ _ Hshape Hp)
      as (f & ts & ds & Hf & Hts & Hds & _ & Hlen & ->).
    exists f, ts, ds. cbn [data nrows ncols nan_to_num].
    do 5 (split; [done|]). split; [|split; [|split; [lia|done]]].
    + by rewrite take_app_length' by (by rewrite length_replicate).
    + rewrite app_assoc. rewrite drop_app_length'; [done|].
      rewrite length_app, length_replicate, length_map. lia.
  - apply downsample_convolved.
  - intros H100 conv.
    destruct (downsample_embeddings we kind conv) as [out|e] eqn:Hout; [|eauto].
    destruct (downsample_shape _ _ _ _ Hshape Hout) as (ts & _ & ? & _). done.
  - intros f ts ds conv Hf Hts Hds H100.
    destruct (Hshape _ _ _ _ _ _ Hf Hds) as (_ & Hc & _).
    assert (Hcat : concatenate [zeros 5 n_feature; nan_to_num ds; zeros 2 100]
                   = Err ValueError).
    { change (zeros 5 n_feature) with (zeros 5 100). rewrite concatenate_pad.
      cbn [ncols nan_to_num]. rewrite Hc.
      destruct (ncols (emb we) =? 100) eqn:H; [|done].
      by apply Nat.eqb_eq in H. }
    split; [done|].
    unfold downsample_embeddings, mbind, result_bind, rbind.
    by rewrite Hf, Hts, Hds, Hcat.
  - intros f ts ds conv Hh Hf Hts Hds H100. by eapply downsample_returns.
Qed.

End ResamplerClaims.

Import Np Resampler Examples.

(** C3, as the specification words it, fails: for onsets 0.5 and 1.5 the
    output has 1 + 7 = 8 rows, and [ceil(1.5) - floor(0.5)] plus the pads
    is 9. *)
Lemma downsample_length_is_not_ceil_minus_floor :
  ∃ out, @downsample_embeddings L0 two_words "linear" true = Ok out
         ∧ nrows out = 8
         ∧ Spec.claimed_length (min_skipna (onset two_words))
                               (max_skipna (onset two_words)) 5 2 = Some 9%Z.
Proof. eexists. split; [vm_compute; reflexivity|]. split; reflexivity. Qed.

Lemma downsample_length_witness :
  ∃ out z,
    @downsample_embeddings L0 two_words "linear" true = Ok out
    ∧ ceil ((max_skipna (onset two_words) - min_skipna (onset two_words)) / 1) = Some z
    ∧ nrows out = 5 + Z.to_nat z + 2.
Proof.
  destruct (@downsample_length L0 two_words "linear" true
              (RefFacts.ref_interp_shape _ _)) as (Hlen & Hret & _).
  edestruct Hret as [out Hout];
    [ | vm_compute; reflexivity | vm_compute; reflexivity
      | vm_compute; reflexivity | reflexivity | ].
  { simpl. discriminate. }
  destruct (Hlen out Hout) as (z & Hz & Hn & _).
  exists out, z. auto.
Defined.

Lemma downsample_pads_witness :
  (∃ padded,
     @downsample_embeddings L0 two_words "linear" false = Ok padded
     ∧ data padded = replicate 5 (replicate 100 0%float)
                     ++ [replicate 100 1%float]
                     ++ replicate 2 (replicate 100 0%float))
  ∧ (∃ e, @downsample_embeddings L0 two_words_50 "linear" true = Err e).
Proof.
  split.
  - destruct (@downsample_embeddings L0 two_words "linear" false)
      as [padded|] eqn:Hp; [|vm_compute in Hp; discriminate].
    exists padded. split; [done|].
    destruct (@downsample_pads_5_and_2_of_100 L0 two_words "linear"
                (RefFacts.ref_interp_shape _ _)) as (Hpad & _).
    destruct (Hpad padded Hp) as (f & ts & ds & Hf & Hts & Hds & Hdata & _).
    rewrite Hdata. do 2 f_equal.
    vm_compute in Hf. injection Hf as <-.
    vm_compute in Hts. injection Hts as <-.
    vm_compute in Hds. injection Hds as <-.
    vm_compute. reflexivity.
  - apply (@downsample_pads_5_and_2_of_100 L0 two_words_50 "linear"
             (RefFacts.ref_interp_shape _ _)).
    vm_compute. discriminate.
Defined.

End ResamplerClaims.

(** ** Cross-validated decoder *)

Module DecoderFacts.
Section DecoderFacts.
Context {L : Lib}.
Import Np NpFacts Notebook Decoder Spec.

Lemma bind_unfold {A B} (m : M A) (k : A → M B) st :
  (m ≫= k) st = match m st with
                | (st', Ok a) => k a st'
                | (st', Err e) => (st', Err e)
                end.
Proof. done. Qed.

Lemma for_each_err {A} (l : list A) (body : A → M unit) a st e :
  body a st = (st, Err e) → for_each (a :: l) body st = (st, Err e).
Proof. intros H. simpl. unfold bind. by rewrite H. Qed.

Lemma for_each_fmap {A B} (f : A → B) (l : list A) (body : B → M unit) st :
  for_each (f <$> l) body st = for_each l (fun a => body (f a)) st.
Proof.
  revert st. induction l as [|a l IH]; intros st; simpl; [done|].
  unfold bind. destruct (body (f a) st) as [st' [[]|e]]; [apply IH|done].
Qed.

Lemma for_each_ext {A} (l : list A) (body body' : A → M unit) st :
  (∀ a st, a ∈ l → body a st = body' a st) →
  for_each l body st = for_each l body' st.
Proof.
  revert st. induction l as [|a l IH]; intros st Hb; simpl; [done|].
  unfold bind. rewrite Hb by left.
  destruct (body' a st) as [st' [[]|e]]; [|done].
  apply IH. intros. apply Hb. by right.
Qed.

(** *** The folds *)

Lemma filter_all {A} (P : A → Prop) `{∀ x, Decision (P x)} (l : list A) :
  Forall P l → filter P l = l.
Proof.
  induction 1 as [|x l Hx Hl IH]; [done|].
  rewrite filter_cons_True by done. by rewrite IH.
Qed.

Lemma others_0 n : 2 ≤ n → ∃ rest, others n 0 = 1 :: rest.
Proof.
  intros Hn. destruct n as [|[|n]]; [lia..|].
  unfold others. cbn [seq].
  rewrite filter_cons_False by lia. rewrite filter_cons_True by lia.
  eauto.
Qed.

Lemma LOO_split_folds n :
  2 ≤ n → LOO_split n = Ok ((fun i => (others n i, [i])) <$> seq 0 n).
Proof.
  intros Hn. unfold LOO_split. destruct (n <=? 1) eqn:H; [|done].
  apply Nat.leb_le in H. lia.
Qed.

Lemma others_spec n i j : j ∈ others n i ↔ j < n ∧ j ≠ i.
Proof.
  unfold others. rewrite list_elem_of_filter, elem_of_seq. split; [intros [? ?]|intros [? ?]]; split; done || lia.
Qed.

Lemma length_others n i : i < n → length (others n i) = n - 1.
Proof.
  intros Hi. unfold others.
  assert (H : ∀ s k, s ≤ i < s + k →
            length (filter (λ j, j ≠ i) (seq s k)) = k - 1).
  { intros s k. revert s. induction k as [|k IH]; intros s Hs; [lia|].
    cbn [seq]. destruct (decide (s = i)) as [->|Hne].
    - rewrite filter_cons_False by lia.
      rewrite filter_all.
      + rewrite length_seq. lia.
      + apply Forall_forall. intros j Hj. apply elem_of_seq in Hj. lia.
    - rewrite filter_cons_True by done. simpl. rewrite IH by lia. lia. }
  apply H. lia.
Qed.

(** *** The training arrays *)

Lemma setitem_rows_block A i v :
  (i + 1) * 1310 ≤ nrows A →
  setitem_rows A (i * 1310) ((i + 1) * 1310) v =
  if broadcastable v 1310 (ncols A)
  then Ok (mk (nrows A) (ncols A)
              (take (i * 1310) (data A) ++ broadcast v 1310 (ncols A)
               ++ drop (i * 1310 + 1310) (data A)))
  else Err ValueError.
Proof.
  intros Hle. unfold setitem_rows.
  rewrite (Nat.min_l (i * 1310)) by lia.
  rewrite (Nat.min_l ((i + 1) * 1310)) by lia.
  by replace ((i + 1) * 1310 - i * 1310) with 1310 by lia.
Qed.

Lemma broadcast_id v :
  broadcast v (nrows v) (ncols v) = data v.
Proof.
  unfold broadcast. rewrite Nat.eqb_refl.
  unfold broadcast_row. rewrite Nat.eqb_refl. apply map_id.
Qed.

Lemma broadcastable_subject X idx k c :
  broadcastable (subject X idx) k c = broadcastable (mk (dim1 X) (dim2 X) []) k c.
Proof. done. Qed.

Lemma others_lt n i : Forall (fun idx => idx < n) (others n i).
Proof. apply Forall_forall. intros j Hj. by apply others_spec in Hj as [? _]. Qed.

Lemma build_train_fails X Y train_index :
  train_index ≠ [] → slices_fit X Y = false →
  ∃ e, build_train X Y train_index = Err e
       ∧ (Forall (fun idx => idx < dim0 X) train_index → e = ValueError).
Proof.
  intros Hne Hfit. destruct train_index as [|idx rest]; [done|].
  unfold build_train. cbn [fill_train]. unfold mbind, result_bind, rbind.
  unfold getitem3. destruct (idx <? dim0 X) eqn:Hidx.
  - fold (subject X idx).
    rewrite !setitem_rows_block by (cbn [nrows zeros length]; lia).
    rewrite broadcastable_subject. cbn [ncols zeros].
    unfold slices_fit in Hfit. apply andb_false_iff in Hfit as [->| ->]; [eauto|].
    destruct (broadcastable _ _ _); eauto.
  - exists IndexError. split; [done|]. intros Hall.
    apply Forall_cons in Hall as [Hlt _]. apply Nat.ltb_ge in Hidx. lia.
Qed.

Lemma fold_body_fails X Y n_top train_index test_index st :
  train_index ≠ [] → slices_fit X Y = false →
  ∃ e, fold_body X Y n_top (train_index, test_index) st = (st, Err e)
       ∧ (Forall (fun idx => idx < dim0 X) train_index → e = ValueError).
Proof.
  intros Hne Hfit.
  destruct (build_train_fails X Y train_index Hne Hfit) as (e & He & Hv).
  exists e. split; [|done].
  unfold fold_body. rewrite bind_unfold. unfold lift. by rewrite He.
Qed.

(** The decoder stops in its first fold, before any [fit], when a slice
    assignment cannot broadcast; the exception is the ValueError of the
    assignment (or of the split) when there is a matrix for every
    subject. *)
Lemma decoder_fails_before_fit sub_list X Y n_top st :
  slices_fit X Y = false →
  ∃ e, decoder sub_list X Y n_top st = (reset_results st, Err e)
       ∧ (length sub_list ≤ dim0 X → e = ValueError).
Proof.
  intros Hfit. unfold decoder. rewrite bind_unfold. cbn [modify].
  rewrite bind_unfold. unfold lift.
  destruct (decide (2 ≤ length sub_list)) as [Hn|Hn].
  - rewrite LOO_split_folds by done.
    destruct (length sub_list) as [|n] eqn:Hlen; [lia|].
    cbn [seq fmap list_fmap].
    pose proof (others_lt (S n) 0) as Hlt.
    destruct (others_0 (S n) Hn) as [rest Hrest]. rewrite Hrest in *.
    destruct (fold_body_fails X Y n_top (1 :: rest) [0] (reset_results st))
      as (e & He & Hv); [done|done|].
    exists e. split; [by apply for_each_err|].
    intros Hle. apply Hv. eapply Forall_impl; [exact Hlt|]. simpl. lia.
  - unfold LOO_split. destruct (length sub_list <=? 1) eqn:H; [eauto|].
    apply Nat.leb_gt in H. lia.
Qed.

End DecoderFacts.
End DecoderFacts.

(** ** Shape mismatches *)

Module MismatchClaims.
Section MismatchClaims.
Context {L : Lib}.
Import Np NpFacts Notebook Decoder Spec DecoderFacts Resampler.

Lemma slices_fit_lengths X Y :
  slices_fit X Y = true →
  (dim1 X = 1310 ∨ dim1 X = 1) ∧ (nrows Y = 1310 ∨ nrows Y = 1).
Proof.
  unfold slices_fit, broadcastable. cbn [nrows ncols].
  rewrite !andb_true_iff, !orb_true_iff, !Nat.eqb_eq. tauto.
Qed.

(** C6, as the code has it: there is no check of its own; when the
    subjects' number of time points differs from the target's and the two
    are not 1310 and 1 (a pair NumPy broadcasts into the 1310-row slices),
    the first slice assignment that does not fit raises in the first
    fold: the cell stops with the result lists as it initialised them,
    and no [fit] call is added to the trace; the exception is NumPy's
    ValueError when there is a matrix for every subject. *)
Theorem decoder_rejects_unequal_lengths
    (sub_list : list string) (X : ndarray3) (Y : ndarray) (n_top : nat)
    (st : notebook) :
  dim1 X ≠ nrows Y →
  ¬ ((dim1 X = 1310 ∧ nrows Y = 1) ∨ (dim1 X = 1 ∧ nrows Y = 1310)) →
  ∃ e st',
    decoder sub_list X Y n_top st = (st', Err e)
    ∧ fit_log st' = fit_log st
    ∧ test_hit st' = [] ∧ test_similarity st' = [] ∧ map_coef st' = []
    ∧ (length sub_list ≤ dim0 X → e = ValueError).
Proof.
  intros Hne Hpair.
  destruct (decoder_fails_before_fit sub_list X Y n_top st) as (e & He & Hv).
  - destruct (slices_fit X Y) eqn:Hfit; [|done].
    apply slices_fit_lengths in Hfit. lia.
  - exists e, (reset_results st). by rewrite He.
Qed.

Lemma scram_folds_fails X Y n_top (sub_list : list string) splits acc st :
  slices_fit X Y = false →
  LOO_split (length sub_list) = Ok splits →
  ∃ e, Scrambling.scram_folds X Y n_top splits acc st = (st, Err e).
Proof.
  intros Hfit Hsplit.
  assert (Hn : 2 ≤ length sub_list).
  { unfold LOO_split in Hsplit.
    destruct (length sub_list <=? 1) eqn:H; [done|]. apply Nat.leb_gt in H. lia. }
  rewrite LOO_split_folds in Hsplit by done. injection Hsplit as <-.
  destruct (length sub_list) as [|n]; [lia|]. cbn [seq fmap list_fmap].
  destruct (others_0 (S n) Hn) as [rest ->].
  destruct (build_train_fails X Y (1 :: rest)) as (e & He & _); [done|done|].
  exists e. cbn [Scrambling.scram_folds]. rewrite bind_unfold.
  unfold Scrambling.scram_fold_body. rewrite bind_unfold. unfold lift.
  by rewrite He.
Qed.

(** The loop that fills the training arrays raises nothing but the
    IndexError of [X[idx, :, :]] and the ValueError of a slice
    assignment. *)
Lemma fill_train_error X Y idxs :
  ∀ i X_train y_train e,
    fill_train X Y i idxs X_train y_train = Err e → e = ValueError ∨ e = IndexError.
Proof.
  induction idxs as [|idx idxs IH]; intros i X_train y_train e; [done|].
  cbn [fill_train]. unfold mbind, result_bind, rbind, getitem3, setitem_rows.
  destruct (idx <? dim0 X); [|intros [= <-]; by right].
  destruct (broadcastable _ _ _); [|intros [= <-]; by left].
  destruct (broadcastable _ _ _); [|intros [= <-]; by left].
  apply IH.
Qed.

Lemma decoder_error_kind sub_list X Y n_top st st' e :
  slices_fit X Y = false →
  decoder sub_list X Y n_top st = (st', Err e) →
  e = ValueError ∨ e = IndexError.
Proof.
  intros Hfit. unfold decoder. rewrite bind_unfold. cbn [modify].
  rewrite bind_unfold. unfold lift.
  destruct (decide (2 ≤ length sub_list)) as [Hn|Hn].
  - rewrite LOO_split_folds by done.
    destruct (length sub_list) as [|n] eqn:Hlen; [lia|].
    cbn [seq fmap list_fmap].
    destruct (others_0 (S n) Hn) as [rest Hrest]. rewrite Hrest.
    destruct (build_train_fails X Y (1 :: rest)) as (e' & He' & _); [done|done|].
    rewrite (for_each_err _ _ _ _ e').
    + intros [= _ <-]. unfold build_train in He'. by eapply fill_train_error.
    + unfold fold_body. rewrite bind_unfold. unfold lift. by rewrite He'.
  - unfold LOO_split. destruct (length sub_list <=? 1) eqn:H.
    + intros [= _ <-]. by left.
    + apply Nat.leb_gt in H. lia.
Qed.

(** C5: there is no check against [n_TR]; a resampler output whose
    length is not 1310 has at least 7 rows, so after [zscore] it cannot
    broadcast into the 1310-row slice of [y_train], and the decoding cell
    stops in its first fold before any [fit] call, with empty result
    lists; the exception is NumPy's ValueError when there is a matrix for
    every subject, and otherwise that or the IndexError of
    [X[idx, :, :]]. The inner loop of a baseline trial stops on such a
    target in the same way. *)
Theorem wrong_length_stops_before_fit
    (we : frame) (kind : string) (convolve_hrf : bool)
    (paranoia_embedding : ndarray)
    (sub_list : list string) (fmri_data : ndarray3) (n_top : nat)
    (st : notebook) :
  interp_shape → zscore_shape →
  downsample_embeddings we kind convolve_hrf = Ok paranoia_embedding →
  nrows paranoia_embedding ≠ n_TR →
  broadcastable (zscore paranoia_embedding) 1310 100 = false
  ∧ (∃ e st',
       decoding_cell sub_list fmri_data paranoia_embedding n_top st = (st', Err e)
       ∧ fit_log st' = fit_log st
       ∧ test_hit st' = [] ∧ test_similarity st' = [] ∧ map_coef st' = []
       ∧ (e = ValueError ∨ e = IndexError)
       ∧ (length sub_list ≤ dim0 fmri_data → e = ValueError))
  ∧ (∀ splits acc,
       LOO_split (length sub_list) = Ok splits →
       ∃ e, Scrambling.scram_folds fmri_data (zscore paranoia_embedding) n_top
              splits acc st = (st, Err e)).
Proof.
  intros Hshape Hz Hpe Hlen.
  assert (Hb : broadcastable (zscore paranoia_embedding) 1310 100 = false).
  { unfold broadcastable. destruct (Hz paranoia_embedding) as [-> _].
    destruct (ResamplerClaims.downsample_shape _ _ _ _ Hshape Hpe)
      as (ts & _ & _ & Hrows & _).
    unfold n_TR in Hlen.
    destruct (nrows paranoia_embedding =? 1310) eqn:H1;
      [apply Nat.eqb_eq in H1; lia|].
    destruct (nrows paranoia_embedding =? 1) eqn:H2;
      [apply Nat.eqb_eq in H2; lia|]. done. }
  assert (Hfit : slices_fit fmri_data (zscore paranoia_embedding) = false).
  { unfold slices_fit. rewrite Hb. apply andb_false_r. }
  split; [done|]. split.
  - unfold decoding_cell.
    destruct (decoder_fails_before_fit sub_list fmri_data (zscore paranoia_embedding)
                n_top st Hfit) as (e & He & Hv).
    exists e, (reset_results st). rewrite He.
    do 5 (split; [done|]). split; [|done].
    by eapply decoder_error_kind.
  - intros splits acc Hsplit. by eapply scram_folds_fails.
Qed.

End MismatchClaims.

Import Np Notebook Decoder Examples.

(** C6, as the specification words it, fails: subjects with 1310 time
    points and a target with 1 row differ in length, and the cell runs
    both folds to the end, fitting twice. *)
Lemma one_row_target_is_broadcast :
  dim1 two_subjects_1310 ≠ nrows target_1x100
  ∧ (@decoder L0 two_ids two_subjects_1310 target_1x100 10 st0).2 = Ok ()
  ∧ length (fit_log (@decoder L0 two_ids two_subjects_1310 target_1x100 10 st0).1) = 2
  ∧ test_hit (@decoder L0 two_ids two_subjects_1310 target_1x100 10 st0).1 = [1; 1].
Proof.
  split; [vm_compute; lia|].
  split; [vm_compute; reflexivity|].
  split; vm_compute; reflexivity.
Qed.

(** C5, as the specification words it, fails: the resampler does not
    fail on an output of the wrong length, it returns it: for two words
    one second apart it returns 8 rows, not 1310. What stops the
    pipeline is the decoding cell, in its slice assignment, and the
    exception is NumPy's ValueError, or the IndexError of [X[idx, :, :]]
    when the data hold fewer subjects than the list names; there is no
    LengthMismatchError. *)
Lemma resampler_returns_misaligned_output :
  ∃ pe,
    @Resampler.downsample_embeddings L0 two_words "linear" true = Ok pe
    ∧ nrows pe = 8
    ∧ nrows pe ≠ Resampler.n_TR
    ∧ (@decoding_cell L0 two_ids two_subjects_1310 pe 10 st0).2 = Err ValueError
    ∧ (@decoding_cell L0 two_ids one_subject_1310 pe 10 st0).2 = Err IndexError.
Proof.
  eexists. split; [vm_compute; reflexivity|].
  split; [reflexivity|]. split; [vm_compute; lia|].
  split; vm_compute; reflexivity.
Qed.

Lemma decoder_rejects_unequal_lengths_witness :
  ∃ e st',
    @decoder L0 three_ids three_subjects_5x2 target_4x2 1 st0 = (st', Err e)
    ∧ fit_log st' = fit_log st0
    ∧ test_hit st' = [] ∧ test_similarity st' = [] ∧ map_coef st' = []
    ∧ (length three_ids ≤ dim0 three_subjects_5x2 → e = ValueError).
Proof.
  apply (@decoder_rejects_unequal_lengths L0 three_ids three_subjects_5x2
           target_4x2 1 st0).
  - vm_compute. lia.
  - vm_compute. lia.
Defined.

Lemma wrong_length_stops_before_fit_witness :
  ∃ pe e st',
    @Resampler.downsample_embeddings L0 two_words "linear" true = Ok pe
    ∧ @decoding_cell L0 two_ids two_subjects_1310 pe 10 st0 = (st', Err e)
    ∧ fit_log st' = fit_log st0
    ∧ e = ValueError.
Proof.
  destruct (@Resampler.downsample_embeddings L0 two_words "linear" true)
    as [pe|] eqn:Hpe; [|vm_compute in Hpe; discriminate].
  destruct (@wrong_length_stops_before_fit L0 two_words "linear" true pe
              two_ids two_subjects_1310 10 st0
              (RefFacts.ref_interp_shape _ _) (RefFacts.ref_zscore_shape _ _) Hpe)
    as (_ & (e & st' & Hrun & Hlog & _ & _ & _ & _ & He) & _).
  - vm_compute in Hpe. injection Hpe as <-. vm_compute. lia.
  - exists pe, e, st'. repeat split; try done. apply He. vm_compute. lia.
Defined.

End MismatchClaims.

(** ** Training arrays of a fold *)

Module TrainFacts.
Section TrainFacts.
Context {L : Lib}.
Import Np NpFacts Notebook Decoder Spec DecoderFacts.

Lemma subject_wf X idx :
  wfb3 X = true → idx < dim0 X → wf (subject X idx).
Proof.
  unfold wfb3. rewrite andb_true_iff, Nat.eqb_eq, forallb_forall.
  intros [Hlen Hall] Hidx. apply wfb_wf. apply Hall.
  unfold subject; simpl. apply nth_In. lia.
Qed.

Lemma getitem3_subject X idx :
  idx < dim0 X → getitem3 X idx = Ok (subject X idx).
Proof.
  intros H. unfold getitem3. apply Nat.ltb_lt in H. by rewrite H.
Qed.

Lemma setitem_rows_exact A i v :
  (i + 1) * 1310 ≤ nrows A → nrows v = 1310 → ncols v = ncols A →
  setitem_rows A (i * 1310) ((i + 1) * 1310) v =
  Ok (mk (nrows A) (ncols A)
         (take (i * 1310) (data A) ++ data v ++ drop (i * 1310 + 1310) (data A))).
Proof.
  intros Hle Hr Hc. rewrite setitem_rows_block by done.
  assert (Hb : broadcast v 1310 (ncols A) = data v)
    by (rewrite <- Hr, <- Hc; apply broadcast_id).
  rewrite Hb. unfold broadcastable. by rewrite Hr, Hc, !Nat.eqb_refl.
Qed.

Lemma fill_train_spec X Y idxs :
  dim1 X = 1310 → dim2 X = 268 → wfb3 X = true →
  nrows Y = 1310 → ncols Y = 100 → length (data Y) = 1310 →
  Forall (fun idx => idx < dim0 X) idxs →
  ∀ i XT yT,
    nrows XT = (i + length idxs) * 1310 → ncols XT = 268 →
    length (data XT) = nrows XT →
    nrows yT = (i + length idxs) * 1310 → ncols yT = 100 →
    length (data yT) = nrows yT →
    fill_train X Y i idxs XT yT =
    Ok (mk (nrows XT) 268
           (take (i * 1310) (data XT)
            ++ concat (map (fun idx => data (subject X idx)) idxs)),
        mk (nrows yT) 100
           (take (i * 1310) (data yT) ++ concat (replicate (length idxs) (data Y)))).
Proof.
  intros HT HF HX HYr HYc HYl. induction 1 as [|idx idxs Hidx Hall IH];
    intros i XT yT HXr HXc HXl Hyr Hyc Hyl.
  - cbn [fill_train map concat replicate length]. rewrite !app_nil_r.
    cbn [length] in HXr, Hyr.
    rewrite !take_ge by lia. destruct XT, yT; simpl in *. by subst.
  - cbn [fill_train length] in *. unfold mbind, result_bind, rbind.
    rewrite getitem3_subject by done.
    pose proof (subject_wf X idx HX Hidx) as [HSl _].
    cbn [nrows ncols subject] in HSl. fold (subject X idx) in HSl.
    rewrite setitem_rows_exact; [|lia|by rewrite <- HT|by rewrite HXc, <- HF].
    rewrite setitem_rows_exact; [|lia|done|by rewrite Hyc].
    rewrite IH; cbn [nrows ncols data]; try done; try lia.
    + f_equal. f_equal.
      * f_equal. cbn [map concat]. rewrite app_assoc.
        rewrite take_app_length'; [by rewrite <- app_assoc|].
        rewrite length_app, length_take, HSl, HT. lia.
      * f_equal. cbn [replicate concat]. rewrite app_assoc.
        rewrite take_app_length'; [by rewrite <- app_assoc|].
        rewrite length_app, length_take, HYl. lia.
    + rewrite !length_app, length_take, length_drop, HSl, HT. lia.
    + rewrite !length_app, length_take, length_drop, HYl. lia.
Qed.

Lemma nrows_vstack_subjects X idxs c :
  nrows (vstack (map (subject X) idxs) c) = length idxs * dim1 X.
Proof.
  unfold vstack; cbn [nrows]. induction idxs as [|idx idxs IH]; [done|].
  cbn [map foldr length]. rewrite IH. cbn [nrows subject]. lia.
Qed.

(** The loop over the preallocated arrays builds the stacked subjects and
    the tiled target. *)
Lemma build_train_spec X Y idxs :
  dim1 X = 1310 → dim2 X = 268 → wfb3 X = true →
  nrows Y = 1310 → ncols Y = 100 → wfb Y = true →
  Forall (fun idx => idx < dim0 X) idxs →
  build_train X Y idxs =
  Ok (vstack (map (subject X) idxs) (dim2 X), tile Y (length idxs)).
Proof.
  intros HT HF HX HYr HYc HY Hall. apply wfb_wf in HY as [HYl _].
  unfold build_train.
  rewrite (fill_train_spec X Y idxs); try done;
    [|cbn [nrows ncols zeros data]; rewrite ?length_replicate; lia..].
  cbn [nrows zeros take Nat.mul app]. f_equal. f_equal.
  - unfold vstack. rewrite HF. f_equal.
    + pose proof (nrows_vstack_subjects X idxs 0) as H. unfold vstack in H.
      cbn [nrows] in H. rewrite H, HT. lia.
    + by rewrite map_map.
  - unfold tile. rewrite HYr, HYc. f_equal. lia.
Qed.

Lemma wf_vstack_subjects X idxs c :
  dim2 X = c → wfb3 X = true → Forall (fun idx => idx < dim0 X) idxs →
  wf (vstack (map (subject X) idxs) c).
Proof.
  intros <- HX. induction 1 as [|idx idxs Hidx Hall [IHl IHr]].
  - by split.
  - destruct (subject_wf X idx HX Hidx) as [Hl Hr].
    unfold wf, vstack in *. cbn [nrows ncols data map concat foldr] in *.
    rewrite length_app, IHl, Hl. split; [done|].
    apply Forall_app. done.
Qed.

Lemma wf_tile Y k : wf Y → wf (tile Y k).
Proof.
  intros [Hl Hr]. unfold wf, tile; cbn [nrows ncols data].
  induction k as [|k [IHl IHr]]; [done|].
  cbn [replicate concat]. rewrite length_app, IHl, Hl. split; [lia|].
  by apply Forall_app.
Qed.

End TrainFacts.
End TrainFacts.

(** ** Scoring a fold *)

Module ScoreFacts.
Section ScoreFacts.
Context {L : Lib}.
Import Np Notebook Decoder Spec.

Global Instance idx_le_trans row : Transitive (idx_le row).
Proof. intros i j k. unfold idx_le, fle. lia. Qed.

Global Instance idx_le_total row : Total (idx_le row).
Proof. intros i j. unfold idx_le, fle. lia. Qed.

Lemma last_n_drop {A} n (a : list A) :
  0 < n → last_n n a = drop (length a - n) a.
Proof. intros Hn. unfold last_n. destruct n; [lia|done]. Qed.

(** The last [k] positions of a sorted permutation of the positions are a
    choice of the [k] highest. *)
Lemma top_indices_top_k n_top row :
  argsort_sorts → 0 < n_top → is_top_k (top_indices n_top row) row n_top.
Proof.
  intros Hsort Hk. destruct (Hsort row) as [Hperm Hsorted].
  unfold top_indices. rewrite last_n_drop by done.
  set (l := argsort row) in *. set (m := length l - n_top).
  assert (Hlen : length l = length row).
  { rewrite Hperm. apply length_seq. }
  assert (Hnd : NoDup l).
  { rewrite Hperm. apply NoDup_seq. }
  split; [|split; [|split]].
  - rewrite reverse_Permutation. eapply sublist_NoDup; [exact Hnd|]. apply sublist_drop.
  - rewrite length_reverse, length_drop. lia.
  - intros a Ha. rewrite elem_of_reverse in Ha.
    assert (a ∈ l) as Hal
      by (rewrite <- (take_drop m l); apply elem_of_app; by right).
    rewrite Hperm in Hal. apply elem_of_seq in Hal. lia.
  - intros a b Ha Hb Hnb. rewrite elem_of_reverse in Ha.
    assert (Hbl : b ∈ l) by (rewrite Hperm; apply elem_of_seq; lia).
    rewrite <- (take_drop m l) in Hbl, Hsorted.
    apply elem_of_app in Hbl as [Hbl|Hbl].
    + apply Sorted_StronglySorted in Hsorted; [|apply _].
      by eapply StronglySorted_app_1_elem_of.
    + exfalso. apply Hnb. by rewrite elem_of_reverse.
Qed.

Lemma count_hits_foldl (f : nat → bool) l acc :
  foldl (fun hit j => if f j then hit + 1 else hit) acc l
  = acc + length (filter (fun j => f j = true) l).
Proof.
  revert acc. induction l as [|j l IH]; intros acc; simpl; [lia|].
  rewrite IH. destruct (f j) eqn:Hf.
  - rewrite filter_cons_True by done. simpl. lia.
  - rewrite filter_cons_False by (rewrite Hf; done). lia.
Qed.

Lemma count_hits_filter n_top similarity :
  count_hits n_top similarity
  = length (filter (fun j => is_hit n_top similarity j = true)
                   (seq 0 (nrows similarity))).
Proof. unfold count_hits. by rewrite count_hits_foldl. Qed.

(** C2, as the code has it: time point [j] is a hit exactly when [j] is
    among the positions [argsort] puts last in row [j], which are a choice
    of the [n_top] positions with the highest similarity; the hits are
    counted over all rows; and the accuracy printed for the fold is
    [100 * hits / 1310] percent, that is [hits / T] when the similarity
    matrix has the T = 1310 rows the loop is written for. *)
Theorem hit_iff_among_top_k (n_top : nat) (similarity : ndarray) :
  argsort_sorts → 0 < n_top →
  (∀ j, j < nrows similarity →
     let row := nth j (data similarity) [] in
     is_top_k (top_indices n_top row) row n_top
     ∧ (is_hit n_top similarity j = true ↔ j ∈ top_indices n_top row))
  ∧ count_hits n_top similarity
    = length (filter (fun j => is_hit n_top similarity j = true)
                     (seq 0 (nrows similarity)))
  ∧ accuracy_percent (count_hits n_top similarity)
    = (of_nat (100 * count_hits n_top similarity) / of_nat 1310)%float
  ∧ (nrows similarity = 1310 →
     accuracy_percent (count_hits n_top similarity)
     = (of_nat (100 * count_hits n_top similarity) / of_nat (nrows similarity))%float).
Proof.
  intros Hsort Hk. split; [|split; [|split]].
  - intros j Hj row. split; [by apply top_indices_top_k|].
    unfold is_hit. fold row. apply bool_decide_eq_true.
  - apply count_hits_filter.
  - done.
  - by intros ->.
Qed.

End ScoreFacts.

Lemma ref_argsort_sorts resource kernel :
  @Spec.argsort_sorts (Ref.lib resource kernel).
Proof.
  intros row. simpl. unfold Ref.argsort_ref. split.
  - apply merge_sort_Permutation.
  - apply Sorted_merge_sort. apply _.
Qed.

Lemma float_neq (a b : float) :
  PrimFloat.eqb a b = false → PrimFloat.eqb b b = true → a ≠ b.
Proof. intros H1 H2 ->. congruence. Qed.

Import Np Notebook Decoder Examples.

(** C2, as the specification words it, fails on the accuracy: for two
    subjects with a single time point (which the slice assignments
    broadcast) each fold has a 1 x 1 similarity matrix and 1 hit, so
    hits / T is 1, and the accuracy printed is 100 * 1 / 1310 percent. *)
Lemma accuracy_is_over_1310_not_T :
  (nrows <$> test_similarity (@decoder L0 two_ids two_subjects_1 target_1x100 10 st0).1)
    = [1; 1]
  ∧ test_hit (@decoder L0 two_ids two_subjects_1 target_1x100 10 st0).1 = [1; 1]
  ∧ accuracy_percent 1 ≠ (of_nat (100 * 1) / of_nat 1)%float.
Proof.
  split; [vm_compute; reflexivity|]. split; [vm_compute; reflexivity|].
  apply float_neq; vm_compute; reflexivity.
Qed.

Lemma hit_iff_among_top_k_witness :
  @count_hits L0 10 similarity_1310
  = length (filter (fun j => @is_hit L0 10 similarity_1310 j = true)
                   (seq 0 (nrows similarity_1310)))
  ∧ @accuracy_percent (@count_hits L0 10 similarity_1310)
    = (of_nat (100 * @count_hits L0 10 similarity_1310)
       / of_nat (nrows similarity_1310))%float.
Proof.
  destruct (@hit_iff_among_top_k L0 10 similarity_1310
              (ref_argsort_sorts _ _)) as (_ & Hcount & _ & Hacc).
  - lia.
  - split; [exact Hcount|]. apply Hacc. reflexivity.
Defined.

End ScoreFacts.

(** ** A fold of the decoder *)

Module FoldClaims.
Section FoldClaims.
Context {L : Lib}.
Import Np NpFacts Notebook Decoder Spec DecoderFacts TrainFacts.

Lemma fold_body_spec X Y n_top i st :
  dim1 X = 1310 → dim2 X = 268 → wfb3 X = true →
  nrows Y = 1310 → ncols Y = 100 → wfb Y = true →
  i < dim0 X →
  fold_body X Y n_top (others (dim0 X) i, [i]) st = fold_spec X Y n_top i st.
Proof.
  intros HT HF HX HYr HYc HY Hi. unfold fold_body, fold_spec.
  rewrite bind_unfold. unfold lift at 1.
  rewrite build_train_spec by (done || apply others_lt).
  rewrite length_others by done.
  rewrite bind_unfold. unfold lift at 1. cbn [nth].
  by rewrite getitem3_subject.
Qed.

(** C1, as the code has it, for the shapes its loop is written for
    (T = 1310 time points, F = 268 regions, D = 100 embedding columns):
    the fold that holds out subject [i] builds the rows of all other
    subjects stacked, ((N-1) * 1310) x 268, and the target tiled N-1
    times; it is the fold of the specification (fit on these, predict on
    subject [i], score); the predicted matrix is 1310 x 100; and the
    cell's loop is the sequence of these folds. *)
Theorem fold_trains_on_other_subjects
    (X : ndarray3) (Y : ndarray) (n_top : nat) (i : nat) :
  dim1 X = 1310 → dim2 X = 268 → wfb3 X = true →
  nrows Y = 1310 → ncols Y = 100 → wfb Y = true →
  i < dim0 X →
  let X_train := vstack (map (subject X) (others (dim0 X) i)) 268 in
  let y_train := tile Y (dim0 X - 1) in
  build_train X Y (others (dim0 X) i) = Ok (X_train, y_train)
  ∧ (nrows X_train = (dim0 X - 1) * 1310 ∧ ncols X_train = 268 ∧ wf X_train)
  ∧ (nrows y_train = (dim0 X - 1) * 1310 ∧ ncols y_train = 100 ∧ wf y_train)
  ∧ (∀ st, fold_body X Y n_top (others (dim0 X) i, [i]) st
           = fold_spec X Y n_top i st)
  ∧ (predict_shape → ∀ reg y_pred,
       fit X_train y_train = Ok reg → predict reg (subject X i) = Ok y_pred →
       nrows y_pred = 1310 ∧ ncols y_pred = 100)
  ∧ (∀ sub_list st,
       length sub_list = dim0 X → 2 ≤ dim0 X →
       decoder sub_list X Y n_top st
       = (modify reset_results ≫= fun _ =>
            for_each (seq 0 (dim0 X)) (fold_spec X Y n_top)) st).
Proof.
  intros HT HF HX HYr HYc HY Hi X_train y_train. subst X_train y_train.
  split; [|split; [|split; [|split; [|split]]]].
  - rewrite build_train_spec by (done || apply others_lt).
    by rewrite length_others, HF.
  - split; [|split; [done|]].
    + rewrite nrows_vstack_subjects. rewrite length_others by done.
      by rewrite HT.
    + apply wf_vstack_subjects; [done|done|apply others_lt].
  - split; [|split; [done|]].
    + unfold tile; cbn [nrows]. by rewrite HYr.
    + apply wf_tile. by apply wfb_wf.
  - intros st. by apply fold_body_spec.
  - intros Hshape reg y_pred Hfit Hpred.
    destruct (Hshape _ _ _ _ _ Hfit Hpred) as [Hr Hc].
    rewrite Hr, Hc. cbn [nrows ncols subject tile]. done.
  - intros sub_list st Hlen HN. unfold decoder.
    rewrite !bind_unfold. cbn [modify]. rewrite bind_unfold. unfold lift.
    rewrite Hlen, LOO_split_folds by done.
    rewrite for_each_fmap. apply for_each_ext.
    intros j st' Hj. apply elem_of_seq in Hj.
    apply fold_body_spec; try done. lia.
Qed.

End FoldClaims.

Lemma ref_predict_shape resource kernel :
  @Spec.predict_shape (Ref.lib resource kernel).
Proof.
  intros A B reg P T Hfit Hpred. simpl in *.
  unfold Ref.fit_mean in Hfit. destruct (_ && _) in Hfit; [|done].
  injection Hfit as <-. unfold Ref.predict_mean in Hpred. simpl in Hpred.
  destruct (_ =? _) in Hpred; [|done]. injection Hpred as <-. simpl.
  by rewrite length_map, length_seq.
Qed.

Import Np Notebook Decoder Spec Examples.

(** C1, as the specification words it, fails: in the scenario of the
    specification (3 subjects, T = 5, F = 2, a 5 x 2 target) the first
    slice assignment of the fold that holds out subject 0 raises, and the
    cell stops without a [fit]. *)
Lemma scenario_5x2_raises :
  build_train three_subjects_5x2 target_5x2 (others 3 0) = Err ValueError
  ∧ (@decoder L0 three_ids three_subjects_5x2 target_5x2 1 st0).2 = Err ValueError
  ∧ fit_log (@decoder L0 three_ids three_subjects_5x2 target_5x2 1 st0).1 = [].
Proof. repeat split; vm_compute; reflexivity. Qed.

Lemma fold_trains_on_other_subjects_witness :
  build_train two_subjects_1310 target_1310x100 (others 2 0)
  = Ok (vstack (map (subject two_subjects_1310) (others 2 0)) 268,
        tile target_1310x100 1)
  ∧ (∀ reg y_pred,
       @fit L0 (vstack (map (subject two_subjects_1310) (others 2 0)) 268)
               (tile target_1310x100 1) = Ok reg →
       @predict L0 reg (subject two_subjects_1310 0) = Ok y_pred →
       nrows y_pred = 1310 ∧ ncols y_pred = 100).
Proof.
  destruct (@fold_trains_on_other_subjects L0 two_subjects_1310 target_1310x100 10 0)
    as (Hb & _ & _ & _ & Hp & _);
    [reflexivity | reflexivity | vm_compute; reflexivity
     | reflexivity | reflexivity | vm_compute; reflexivity
     | vm_compute; lia | ].
  split; [exact Hb|]. apply Hp. apply ref_predict_shape.
Defined.

End FoldClaims.

(** ** Determinism of the decoder *)

Module DeterminismClaims.
Section DeterminismClaims.
Context {L : Lib}.
Import Np Notebook Decoder Spec DecoderFacts.

Lemma oblivious_lift {A} (r : result A) : oblivious (lift r).
Proof. by intros s1 s2 H. Qed.

Lemma oblivious_bind {A B} (m : M A) (k : A → M B) :
  oblivious m → (∀ a, oblivious (k a)) → oblivious (m ≫= k).
Proof.
  intros Hm Hk s1 s2 Hs. rewrite !bind_unfold.
  destruct (Hm s1 s2 Hs) as (Hr & Hs' & Hrng).
  destruct (m s1) as [s1' [a|e]], (m s2) as [s2' r2]; simpl in *; subst r2.
  - destruct (Hk a s1' s2' Hs') as (H1 & H2 & H3).
    split; [done|]. split; [done|]. by rewrite H3.
  - done.
Qed.

Lemma oblivious_for_each {A} (l : list A) (body : A → M unit) :
  (∀ a, oblivious (body a)) → oblivious (for_each l body).
Proof.
  intros Hb. induction l as [|a l IH]; [by intros s1 s2 H|].
  cbn [for_each]. apply (oblivious_bind (body a) (fun _ => for_each l body)); auto.
Qed.

Lemma oblivious_call_fit X_train y_train : oblivious (call_fit X_train y_train).
Proof. by intros s1 s2 (? & ? & ?). Qed.

Lemma oblivious_append_map_coef c : oblivious (append_map_coef c).
Proof. intros s1 s2 (? & ? & ?). repeat split; simpl; congruence. Qed.

Lemma oblivious_append_test_similarity s : oblivious (append_test_similarity s).
Proof. intros s1 s2 (? & ? & ?). repeat split; simpl; congruence. Qed.

Lemma oblivious_append_test_hit h : oblivious (append_test_hit h).
Proof. intros s1 s2 (? & ? & ?). repeat split; simpl; congruence. Qed.

Lemma oblivious_fold_body X Y n_top split : oblivious (fold_body X Y n_top split).
Proof.
  destruct split as [train_index test_index]. unfold fold_body.
  apply oblivious_bind; [apply oblivious_lift|]. intros [X_train y_train].
  apply oblivious_bind; [apply oblivious_lift|]. intros X_test.
  apply oblivious_bind; [apply oblivious_call_fit|]. intros reg.
  apply oblivious_bind; [apply oblivious_append_map_coef|]. intros _.
  apply oblivious_bind; [apply oblivious_lift|]. intros y_pred.
  apply oblivious_bind; [apply oblivious_lift|]. intros similarity.
  apply oblivious_bind; [apply oblivious_append_test_similarity|]. intros _.
  apply oblivious_append_test_hit.
Qed.

(** C9: two runs of the decoding cell on the same inputs, from any two
    notebook states (whatever the random state, the earlier results and
    the earlier calls), stop the same way and leave the same hits, the
    same per-fold accuracies, the same similarity matrices and the same
    coefficients; the random state is not touched. The library routines
    are functions of their arguments here, as the specification assumes of
    the regression. *)
Theorem decoder_is_deterministic
    (sub_list : list string) (X : ndarray3) (Y : ndarray) (n_top : nat)
    (st1 st2 : notebook) :
  (decoder sub_list X Y n_top st1).2 = (decoder sub_list X Y n_top st2).2
  ∧ test_hit (decoder sub_list X Y n_top st1).1
    = test_hit (decoder sub_list X Y n_top st2).1
  ∧ fold_accuracies (decoder sub_list X Y n_top st1).1
    = fold_accuracies (decoder sub_list X Y n_top st2).1
  ∧ test_similarity (decoder sub_list X Y n_top st1).1
    = test_similarity (decoder sub_list X Y n_top st2).1
  ∧ map_coef (decoder sub_list X Y n_top st1).1
    = map_coef (decoder sub_list X Y n_top st2).1
  ∧ rng (decoder sub_list X Y n_top st1).1 = rng st1.
Proof.
  assert (Hloop : oblivious
            (splits ← lift (LOO_split (length sub_list));
             for_each splits (fold_body X Y n_top))).
  { apply oblivious_bind; [apply oblivious_lift|]. intros splits.
    apply oblivious_for_each. intros split. apply oblivious_fold_body. }
  unfold decoder. rewrite !bind_unfold. cbn [modify].
  destruct (Hloop (reset_results st1) (reset_results st2)) as (Hr & (Hh & Hs & Hc) & Hrng);
    [done|].
  unfold fold_accuracies. rewrite Hh. done.
Qed.

End DeterminismClaims.
End DeterminismClaims.

(** ** Scrambling baseline *)

Module ScramblingClaims.
Section ScramblingClaims.
Context {L : Lib}.
Import Np Notebook Decoder Resampler Scrambling Spec DecoderFacts.

Lemma nth_seq_all {A} (l : list A) d :
  map (fun i => nth i l d) (seq 0 (length l)) = l.
Proof.
  induction l as [|a l IH]; [done|].
  cbn [length seq map nth]. f_equal.
  rewrite <- fmap_S_seq. rewrite <- IH at 2.
  rewrite <- list_fmap_compose. done.
Qed.

Lemma rows_at_all perm m :
  Forall (fun i => i < nrows m) perm →
  rows_at perm m = Ok (map (fun i => nth i (data m) []) perm).
Proof.
  induction 1 as [|i perm Hi Hall IH]; [done|].
  cbn [rows_at map]. apply Nat.ltb_lt in Hi. rewrite Hi.
  unfold mbind, result_bind, rbind. by rewrite IH.
Qed.

(** The frame of a trial keeps the onsets and the words, and carries the
    word vectors in the order drawn. *)
Lemma scramble_permutes perm we :
  length (onset we) = nrows (emb we) →
  length (data (emb we)) = nrows (emb we) →
  perm ≡ₚ seq 0 (length (onset we)) →
  ∃ we', scramble perm we = Ok we'
         ∧ onset we' = onset we ∧ word we' = word we
         ∧ nrows (emb we') = nrows (emb we) ∧ ncols (emb we') = ncols (emb we)
         ∧ data (emb we') = map (fun i => nth i (data (emb we)) []) perm
         ∧ data (emb we') ≡ₚ data (emb we).
Proof.
  intros Hn Hd Hperm. unfold scramble.
  assert (Hlen : length perm = length (onset we)).
  { rewrite Hperm. apply length_seq. }
  rewrite rows_at_all.
  - unfold mbind, result_bind, rbind. eexists. split; [done|].
    cbn [onset word emb nrows ncols data]. rewrite Hlen, Nat.sub_diag, Nat.max_id.
    cbn [replicate]. rewrite !app_nil_r. repeat split; try done.
    transitivity (map (fun i => nth i (data (emb we)) [])
                      (seq 0 (length (data (emb we)))));
      [|by rewrite nth_seq_all].
    rewrite Hd, <- Hn. by apply fmap_Permutation.
  - apply Forall_forall. intros i Hi. rewrite Hperm in Hi.
    apply elem_of_seq in Hi. lia.
Qed.

(** One pass of the inner loop of a trial computes the hit the decoder's
    fold appends to [test_hit], and stops the same way. *)
Lemma scram_fold_body_decoder X Y n_top split acc st sd :
  test_hit sd = acc →
  match scram_fold_body X Y n_top split acc st, fold_body X Y n_top split sd with
  | (_, Ok hits), (sd', Ok _) => test_hit sd' = hits
  | (_, Err e), (_, Err e') => e = e'
  | _, _ => False
  end.
Proof.
  intros Hacc. destruct split as [train_index test_index].
  lazy beta iota zeta delta
    [scram_fold_body fold_body mbind M_bind bind lift call_fit append_map_coef
     append_test_similarity append_test_hit modify mret M_ret ret].
  destruct (build_train X Y train_index) as [[X_train y_train]|e]; [|done].
  lazy beta iota.
  destruct (getitem3 X _) as [X_test|e]; [|done].
  lazy beta iota.
  destruct (fit X_train y_train) as [reg|e]; [|done].
  lazy beta iota.
  destruct (predict reg X_test) as [y_pred|e]; [|done].
  lazy beta iota.
  destruct (cosine_similarity y_pred Y) as [similarity|e]; [|done].
  lazy beta iota. cbn [test_hit]. by rewrite Hacc.
Qed.

Lemma scram_folds_decoder X Y n_top splits :
  ∀ acc st sd, test_hit sd = acc →
    match scram_folds X Y n_top splits acc st,
          for_each splits (fold_body X Y n_top) sd with
    | (_, Ok hits), (sd', Ok _) => test_hit sd' = hits
    | (_, Err e), (_, Err e') => e = e'
    | _, _ => False
    end.
Proof.
  induction splits as [|split splits IH]; intros acc st sd Hacc; [done|].
  cbn [scram_folds for_each]. rewrite bind_unfold. unfold bind.
  pose proof (scram_fold_body_decoder X Y n_top split acc st sd Hacc) as Hstep.
  destruct (scram_fold_body X Y n_top split acc st) as [st' [hits|e]],
           (fold_body X Y n_top split sd) as [sd' [[]|e']]; try done.
  by apply IH.
Qed.

(** The inner loop of a trial leaves [scram_hit_iter] alone. *)
Lemma scram_fold_body_frame X Y n_top split acc st :
  scram_hit_iter (scram_fold_body X Y n_top split acc st).1 = scram_hit_iter st.
Proof.
  destruct split as [train_index test_index].
  lazy beta iota zeta delta
    [scram_fold_body mbind M_bind bind lift call_fit mret M_ret ret].
  destruct (build_train X Y train_index) as [[X_train y_train]|e]; [|done].
  lazy beta iota.
  destruct (getitem3 X _) as [X_test|e]; [|done].
  lazy beta iota.
  destruct (fit X_train y_train) as [reg|e]; [|done].
  lazy beta iota.
  destruct (predict reg X_test) as [y_pred|e]; [|done].
  lazy beta iota.
  by destruct (cosine_similarity y_pred Y) as [similarity|e].
Qed.

Lemma scram_folds_frame X Y n_top splits :
  ∀ acc st,
    scram_hit_iter (scram_folds X Y n_top splits acc st).1 = scram_hit_iter st.
Proof.
  induction splits as [|split splits IH]; intros acc st; [done|].
  cbn [scram_folds]. rewrite bind_unfold.
  pose proof (scram_fold_body_frame X Y n_top split acc st) as Hstep.
  destruct (scram_fold_body X Y n_top split acc st) as [st' [hits|e]]; [|done].
  rewrite IH. done.
Qed.

(** The inner loop of a trial draws nothing. *)
Lemma scram_fold_body_rng X Y n_top split acc st :
  rng (scram_fold_body X Y n_top split acc st).1 = rng st.
Proof.
  destruct split as [train_index test_index].
  lazy beta iota zeta delta
    [scram_fold_body mbind M_bind bind lift call_fit mret M_ret ret].
  destruct (build_train X Y train_index) as [[X_train y_train]|e]; [|done].
  lazy beta iota.
  destruct (getitem3 X _) as [X_test|e]; [|done].
  lazy beta iota.
  destruct (fit X_train y_train) as [reg|e]; [|done].
  lazy beta iota.
  destruct (predict reg X_test) as [y_pred|e]; [|done].
  lazy beta iota.
  by destruct (cosine_similarity y_pred Y) as [similarity|e].
Qed.

Lemma scram_folds_rng X Y n_top splits :
  ∀ acc st, rng (scram_folds X Y n_top splits acc st).1 = rng st.
Proof.
  induction splits as [|split splits IH]; intros acc st; [done|].
  cbn [scram_folds]. rewrite bind_unfold.
  pose proof (scram_fold_body_rng X Y n_top split acc st) as Hstep.
  destruct (scram_fold_body X Y n_top split acc st) as [st' [hits|e]]; [|done].
  rewrite IH. done.
Qed.

(** C4, as the code has it: a trial draws a permutation of the word
    positions and gives word [i] the vector of the word at the [i]-th
    position drawn, keeping the onsets and the words (so the vectors of
    the frame are the same vectors, rearranged as drawn); its target is
    that frame resampled and z-scored; the random state moves on by that
    one draw; and on that target the trial stops as the decoding cell
    does, appending the per-fold accuracies the decoding cell computes. *)
Theorem trial_scrambles_word_vectors
    (we : frame) (sub_list : list string) (fmri_data : ndarray3) (n_top : nat)
    (st : notebook) :
  permutation_permutes →
  length (onset we) = nrows (emb we) →
  length (data (emb we)) = nrows (emb we) →
  let draw := random_permutation (rng st) (length (onset we)) in
  let trial := scram_iteration we sub_list fmri_data n_top st in
  (∃ we', scramble draw.1 we = Ok we'
          ∧ onset we' = onset we ∧ word we' = word we
          ∧ nrows (emb we') = nrows (emb we) ∧ ncols (emb we') = ncols (emb we)
          ∧ data (emb we') = map (fun i => nth i (data (emb we)) []) draw.1
          ∧ data (emb we') ≡ₚ data (emb we)
          ∧ scrambled_target draw.1 we
            = (pe ← downsample_embeddings we' "linear" true; Ok (zscore pe)))
  ∧ draw.1 ≡ₚ seq 0 (length (onset we))
  ∧ rng trial.1 = draw.2
  ∧ (∀ e, scrambled_target draw.1 we = Err e → trial.2 = Err e)
  ∧ (∀ Y, scrambled_target draw.1 we = Ok Y →
       let run := decoder sub_list fmri_data Y n_top (set_rng draw.2 st) in
       match run.2 with
       | Ok _ =>
           trial.2 = Ok ()
           ∧ scram_hit_iter trial.1 = scram_hit_iter st ++ [fold_accuracies run.1]
       | Err e => trial.2 = Err e
       end).
Proof.
  intros Hperm Hn Hd draw trial.
  assert (Htrial : trial =
    (Y ← lift (scrambled_target draw.1 we);
     splits ← lift (LOO_split (length sub_list));
     scram_hit ← scram_folds fmri_data Y n_top splits [];
     append_scram_hit_iter (map accuracy_percent scram_hit)) (set_rng draw.2 st)).
  { subst trial draw. unfold scram_iteration. rewrite bind_unfold.
    unfold call_permutation. by destruct (random_permutation _ _). }
  split; [|split; [apply Hperm|split; [|split]]].
  - destruct (scramble_permutes draw.1 we Hn Hd (Hperm _ _))
      as (we' & Hs & ? & ? & ? & ? & ? & ?).
    exists we'. repeat split; try done.
    unfold scrambled_target. rewrite Hs. done.
  - rewrite Htrial. clear Htrial trial.
    lazy beta iota zeta delta [mbind M_bind bind lift].
    destruct (scrambled_target draw.1 we) as [Y|e]; [|done].
    lazy beta iota.
    destruct (LOO_split (length sub_list)) as [splits|e]; [|done].
    lazy beta iota.
    pose proof (scram_folds_rng fmri_data Y n_top splits [] (set_rng draw.2 st))
      as Hrng.
    destruct (scram_folds fmri_data Y n_top splits [] (set_rng draw.2 st))
      as [st' [hits|e]]; cbn [fst snd] in *; [|done].
    cbn [append_scram_hit_iter modify fst rng]. done.
  - intros e He. rewrite Htrial, bind_unfold. unfold lift. by rewrite He.
  - intros Y HY run. set (st1 := set_rng draw.2 st) in *.
    assert (Hrun : run =
      match LOO_split (length sub_list) with
      | Ok splits => for_each splits (fold_body fmri_data Y n_top) (reset_results st1)
      | Err e => (reset_results st1, Err e)
      end).
    { subst run. unfold decoder. rewrite bind_unfold. cbn [modify].
      rewrite bind_unfold. unfold lift. by destruct (LOO_split _). }
    assert (Htr : trial =
      match LOO_split (length sub_list) with
      | Ok splits =>
          match scram_folds fmri_data Y n_top splits [] st1 with
          | (st', Ok hits) => append_scram_hit_iter (map accuracy_percent hits) st'
          | (st', Err e) => (st', Err e)
          end
      | Err e => (st1, Err e)
      end).
    { rewrite Htrial, bind_unfold. unfold lift at 1. rewrite HY.
      rewrite bind_unfold. unfold lift.
      destruct (LOO_split _); [|done]. by rewrite bind_unfold. }
    rewrite Hrun, Htr. clear Hrun Htr Htrial.
    destruct (LOO_split (length sub_list)) as [splits|e]; [|done].
    pose proof (scram_folds_decoder fmri_data Y n_top splits [] st1
                  (reset_results st1) eq_refl) as Hloop.
    pose proof (scram_folds_frame fmri_data Y n_top splits [] st1) as Hframe.
    destruct (scram_folds fmri_data Y n_top splits [] st1) as [st' [hits|e]],
             (for_each splits (fold_body fmri_data Y n_top) (reset_results st1))
               as [sd' [[]|e']]; try done.
    + cbn [snd fst] in *. split; [done|].
      unfold fold_accuracies. rewrite Hloop.
      cbn [append_scram_hit_iter modify fst scram_hit_iter]. by rewrite Hframe.
    + cbn [snd]. by rewrite Hloop.
Qed.

End ScramblingClaims.

Lemma ref_permutation_permutes resource kernel :
  @Spec.permutation_permutes (Ref.lib resource kernel).
Proof.
  intros r n. simpl. unfold rotate.
  rewrite (comm (++)). by rewrite take_drop.
Qed.

Import Np Notebook Decoder Resampler Scrambling Examples.

(** C4, as the specification words it, fails: the target of a trial is
    not the target of the decoder with its rows permuted. For three words
    and the permutation (1, 2, 0) the z-scored target of the trial has six
    rows that start below -0.71875, and the z-scored target of the
    unscrambled words has none; already before the response kernel is
    applied, the padded signal of the trial has a row that starts above
    3.5 and that of the unscrambled words has none. *)
Lemma trial_target_is_not_a_row_permutation :
  ∃ pe Y_scram padded padded_scram we_scram,
    @downsample_embeddings L0 three_words "linear" true = Ok pe
    ∧ @scrambled_target L0 (@random_permutation L0 (1 : @rng_state L0) 3).1
                        three_words = Ok Y_scram
    ∧ ¬ (data Y_scram ≡ₚ data (@zscore L0 pe))
    ∧ @downsample_embeddings L0 three_words "linear" false = Ok padded
    ∧ scramble (@random_permutation L0 (1 : @rng_state L0) 3).1 three_words
      = Ok we_scram
    ∧ @downsample_embeddings L0 we_scram "linear" false = Ok padded_scram
    ∧ ¬ (data padded_scram ≡ₚ data padded).
Proof.
  assert (H : ∀ (c : float) (l1 l2 : list (list float)), l1 ≡ₚ l2 →
            length (filter (fun r => (nth 0 r 0 <? c)%float = true) l1)
            = length (filter (fun r => (nth 0 r 0 <? c)%float = true) l2)).
  { intros c l1 l2 Hl. by rewrite Hl. }
  do 5 eexists. split; [vm_compute; reflexivity|].
  split; [vm_compute; reflexivity|]. split.
  { intros HP. apply (H (-0.71875)%float) in HP. vm_compute in HP. discriminate. }
  split; [vm_compute; reflexivity|].
  split; [vm_compute; reflexivity|].
  split; [vm_compute; reflexivity|].
  intros HP. apply (H 3.5%float) in HP. vm_compute in HP. discriminate.
Qed.

Lemma trial_scrambles_word_vectors_witness :
  (@random_permutation L0 (@rng L0 st1) 3).1 = [1; 2; 0]
  ∧ ∃ we', scramble (@random_permutation L0 (@rng L0 st1) 3).1 three_words = Ok we'
           ∧ onset we' = onset three_words ∧ word we' = word three_words
           ∧ nrows (emb we') = 3 ∧ ncols (emb we') = 100
           ∧ data (emb we')
             = [replicate 100 2; replicate 100 4; replicate 100 1]%float.
Proof.
  split; [reflexivity|].
  destruct (@trial_scrambles_word_vectors L0 three_words two_ids
              three_subjects_5x2 10 st1 (ref_permutation_permutes _ _))
    as ((we' & Hs & Ho & Hw & Hr & Hc & Hdata & _) & _);
    [reflexivity | reflexivity | ].
  exists we'. rewrite Hdata. repeat split; done.
Defined.

End ScramblingClaims.

(** ** More on the embedding loader *)

Module LoaderMore.
Section LoaderMore.
Context {L : Lib}.
Import Loader LoaderSpec LoaderSpec2 LoaderFacts.

(** X1: a later line replaces an earlier line with the same token: in the
    mapping returned, a token has the values of the last line that starts
    with it, and a token no line starts with is absent. *)
Theorem get_glove_model_last_line_wins (url : string) (d : gmap string (list float))
    (tok : string) :
  get_glove_model url = Ok d →
  d !! tok = (fields ← last (lines_of_token url tok); vector_of fields).
Proof.
  rewrite get_glove_model_unfold. intros Hd.
  rewrite (load_lines_last _ _ _ _ tok Hd). unfold lines_of_token, split_lines.
  destruct (last _); [done|]. apply lookup_empty.
Qed.

Lemma store_line_error fields d :
  ¬ storable fields → store_line fields d = Err (line_error fields).
Proof.
  intros Hns. unfold store_line, line_error, mbind, result_bind, rbind.
  destruct (parse_vector (tail fields)) as [v|e] eqn:Hv; [|done].
  destruct fields as [|key rest]; [done|].
  exfalso. apply Hns. split; [done|].
  apply parse_vector_ok. by rewrite Hv.
Qed.

Lemma load_lines_first_error split pre line post d :
  Forall storable (map split pre) → ¬ storable (split line) →
  load_lines split (pre ++ line :: post) d = Err (line_error (split line)).
Proof.
  revert d. induction pre as [|l pre IH]; intros d Hpre Hline; simpl.
  - unfold mbind, result_bind, rbind. by rewrite store_line_error.
  - apply Forall_cons in Hpre as [Hl Hpre].
    apply (store_line_ok _ d) in Hl.
    unfold mbind, result_bind, rbind.
    destruct (store_line (split l) d) as [d1|e]; [|done]. by apply IH.
Qed.

Lemma split_on_not_nil sep s : Py.split_on sep s ≠ [].
Proof.
  induction s as [|c s IH]; simpl; [done|].
  destruct (Ascii.eqb c sep); [done|]. by destruct (Py.split_on sep s).
Qed.

Lemma parse_vector_error fields e :
  parse_vector fields = Err e → e = ValueError.
Proof.
  induction fields as [|x fields IH]; simpl; [done|].
  destruct (py_float x); [|by intros [= <-]].
  unfold mbind, result_bind, rbind.
  destruct (parse_vector fields); [done|]. intros [= <-]. by apply IH.
Qed.

(** X2: the load stops at the first line that cannot be stored, with the
    exception of that line: ValueError when one of its values is not
    accepted by [float], IndexError when it has no field at all; a
    resource fetched from a URL never raises IndexError, because
    [split(' ')] always returns a first field. *)
Theorem get_glove_model_first_bad_line (url : string) :
  (∀ pre fields post,
     split_lines url = pre ++ fields :: post →
     Forall storable pre → ¬ storable fields →
     get_glove_model url = Err (line_error fields)
     ∧ (fields = [] → line_error fields = IndexError)
     ∧ (fields ≠ [] → line_error fields = ValueError))
  ∧ (is_http url = true → get_glove_model url ≠ Err IndexError).
Proof.
  split.
  - intros pre fields post Hsplit Hpre Hbad.
    rewrite get_glove_model_unfold. unfold split_lines in Hsplit.
    apply fmap_app_inv in Hsplit as (lpre & lrest & Hp & Hrest & ->).
    symmetry in Hrest. apply fmap_cons_inv in Hrest as (line & lpost & Hf & Hpost & ->).
    subst. split; [by apply load_lines_first_error|]. split.
    + by intros ->.
    + intros Hne. unfold line_error.
      destruct (parse_vector (tail (line_fields url line))) as [v|e] eqn:Hv.
      * exfalso. apply Hbad. split; [done|]. apply parse_vector_ok. by rewrite Hv.
      * by eapply parse_vector_error.
  - intros Hhttp. rewrite get_glove_model_unfold.
    unfold line_fields, resource_lines. rewrite Hhttp.
    generalize (∅ : gmap string (list float)).
    induction (Py.split_on "010" (http_text url)) as [|line lines IH]; intros d; [done|].
    simpl. unfold mbind, result_bind, rbind.
    destruct (store_line _ d) as [d1|e] eqn:Hs; [apply IH|].
    unfold store_line, mbind, result_bind, rbind in Hs.
    destruct (parse_vector _) as [v|e'] eqn:Hv.
    + pose proof (split_on_not_nil " " line).
      by destruct (Py.split_on " " line).
    + injection Hs as <-. apply parse_vector_error in Hv. by subst.
Qed.

Lemma split_on_snoc_sep sep s :
  Py.split_on sep (s +:+ String sep EmptyString)
  = Py.split_on sep s ++ [EmptyString].
Proof.
  induction s as [|c s IH]; simpl.
  - by rewrite Ascii.eqb_refl.
  - destruct (Ascii.eqb c sep); [by rewrite IH|].
    rewrite IH. pose proof (split_on_not_nil sep s).
    by destruct (Py.split_on sep s).
Qed.

(** X3: a text fetched from a URL that ends with a newline has an empty
    last line, which [split(' ')] turns into the single field [''], so
    the mapping returned has the empty token with an empty vector. *)
Theorem get_glove_model_trailing_newline (url : string) (text : string)
    (d : gmap string (list float)) :
  is_http url = true →
  http_text url = text +:+ String "010" EmptyString →
  get_glove_model url = Ok d →
  d !! EmptyString = Some [].
Proof.
  intros Hhttp Htext Hd. rewrite get_glove_model_unfold in Hd.
  rewrite (load_lines_last _ _ _ _ EmptyString Hd).
  unfold resource_lines, line_fields. rewrite Hhttp, Htext, split_on_snoc_sep.
  rewrite fmap_app, filter_app. cbn [fmap list_fmap Py.split_on].
  rewrite filter_cons_True by done. rewrite filter_nil, last_snoc. done.
Qed.

End LoaderMore.

Import Loader LoaderSpec LoaderSpec2.

Lemma get_glove_model_last_line_wins_witness :
  ∃ d, @get_glove_model (Ref.lib Examples.repeated_token_table []) "http://glove" = Ok d
       ∧ d !! "cheese" = Some [3; 4]%float.
Proof.
  destruct (@get_glove_model (Ref.lib Examples.repeated_token_table []) "http://glove")
    as [d|] eqn:Hd; [|vm_compute in Hd; discriminate].
  exists d. split; [done|].
  rewrite (@get_glove_model_last_line_wins
             (Ref.lib Examples.repeated_token_table []) "http://glove" d "cheese" Hd).
  vm_compute. reflexivity.
Defined.

Lemma get_glove_model_first_bad_line_witness :
  @get_glove_model (Ref.lib Examples.blank_line_table []) "glove.txt" = Err IndexError.
Proof.
  destruct (@get_glove_model_first_bad_line
              (Ref.lib Examples.blank_line_table []) "glove.txt") as [H _].
  destruct (H [["cheese"; "1"; "2"]] [] [["wine"; "3"; "4"]]) as (He & Hi & _).
  - vm_compute. reflexivity.
  - repeat constructor; try discriminate; by eexists.
  - by intros [? _].
  - rewrite He. by rewrite Hi.
Defined.

Lemma get_glove_model_trailing_newline_witness :
  ∃ d, @get_glove_model (Ref.lib Examples.newline_ended_table []) "http://glove" = Ok d
       ∧ d !! EmptyString = Some [].
Proof.
  destruct (@get_glove_model (Ref.lib Examples.newline_ended_table []) "http://glove")
    as [d|] eqn:Hd; [|vm_compute in Hd; discriminate].
  exists d. split; [done|].
  apply (@get_glove_model_trailing_newline
           (Ref.lib Examples.newline_ended_table []) "http://glove" "cheese 1 2" d);
    [reflexivity | reflexivity | exact Hd].
Defined.

End LoaderMore.

(** ** More on the decoding loop *)

Module DecoderMore.
Section DecoderMore.
Context {L : Lib}.
Import Np Notebook Decoder Spec DecoderSpec2 DecoderFacts ScoreFacts.

Lemma grows_refl st : grows st st 0 0 0.
Proof. unfold grows. repeat split; try done; lia. Qed.

Lemma grows_trans st1 st2 st3 k m f k' m' f' :
  grows st1 st2 k m f → grows st2 st3 k' m' f' →
  grows st1 st3 (k + k') (m + m') (f + f').
Proof.
  unfold grows. intros (?&?&?&?&?&?&?) (?&?&?&?&?&?&?).
  repeat split; try congruence; try lia. by etrans.
Qed.

(** One pass of the loop: a pass that completes calls [fit] once and
    appends one entry to each list; a pass that stops appends nothing to
    [test_hit] and [test_similarity]. *)
Lemma fold_body_grows X Y n_top split st :
  ∃ m f, m ≤ f ∧ f ≤ 1 ∧
    match (fold_body X Y n_top split st).2 with
    | Ok _ => grows st (fold_body X Y n_top split st).1 1 1 1
    | Err _ => grows st (fold_body X Y n_top split st).1 0 m f
    end.
Proof.
  destruct split as [train_index test_index].
  lazy beta iota zeta delta
    [fold_body mbind M_bind bind lift call_fit append_map_coef
     append_test_similarity append_test_hit modify mret M_ret ret].
  destruct (build_train X Y train_index) as [[X_train y_train]|e];
    [|exists 0, 0; split; [lia|split; [lia|apply grows_refl]]].
  lazy beta iota.
  destruct (getitem3 X _) as [X_test|e];
    [|exists 0, 0; split; [lia|split; [lia|apply grows_refl]]].
  lazy beta iota.
  destruct (fit X_train y_train) as [reg|e].
  2:{ exists 0, 1. split; [lia|]. split; [lia|]. lazy beta iota. cbn [fst snd].
      unfold grows. cbn. rewrite length_app. cbn.
      repeat split; try lia. by apply prefix_app_r. }
  lazy beta iota.
  destruct (predict reg X_test) as [y_pred|e].
  2:{ exists 1, 1. split; [lia|]. split; [lia|]. lazy beta iota. cbn [fst snd].
      unfold grows. cbn. rewrite !length_app. cbn.
      repeat split; try lia. by apply prefix_app_r. }
  lazy beta iota.
  destruct (cosine_similarity y_pred Y) as [similarity|e].
  2:{ exists 1, 1. split; [lia|]. split; [lia|]. lazy beta iota. cbn [fst snd].
      unfold grows. cbn. rewrite !length_app. cbn.
      repeat split; try lia. by apply prefix_app_r. }
  exists 1, 1. split; [lia|]. split; [lia|]. lazy beta iota. cbn [fst snd].
  unfold grows. cbn. rewrite !length_app. cbn.
  repeat split; try lia. by apply prefix_app_r.
Qed.

Lemma folds_grow X Y n_top splits :
  ∀ st, ∃ k m f, k ≤ m ∧ m ≤ f ∧ f ≤ k + 1 ∧
    grows st (for_each splits (fold_body X Y n_top) st).1 k m f ∧
    match (for_each splits (fold_body X Y n_top) st).2 with
    | Ok _ => k = length splits ∧ f = k
    | Err _ => k < length splits
    end.
Proof.
  induction splits as [|split splits IH]; intros st.
  - exists 0, 0, 0. cbn. repeat split; try lia. apply grows_refl.
  - cbn [for_each]. unfold bind.
    destruct (fold_body_grows X Y n_top split st) as (m1 & f1 & Hm1 & Hf1 & Hstep).
    destruct (fold_body X Y n_top split st) as [st1 [[]|e]]; cbn [fst snd] in *.
    + destruct (IH st1) as (k & m & f & Hkm & Hmf & Hfk & Hg & Hr).
      exists (1 + k), (1 + m), (1 + f).
      split; [lia|]. split; [lia|]. split; [lia|].
      split; [by eapply grows_trans|].
      destruct (for_each splits (fold_body X Y n_top) st1).2; cbn [length]; lia.
    + exists 0, m1, f1. cbn [length].
      split; [lia|]. split; [lia|]. split; [lia|]. split; [done|lia].
Qed.

(** X4: whatever the notebook held before, and however the cell stops,
    the decoding cell leaves [test_hit] and [test_similarity] with one
    entry per completed fold, [map_coef] with that many or one more,
    never more than the [fit] calls it made, which are at most one more
    than the completed folds; it keeps what [fit] was called with before,
    the random state and [scram_hit_iter]. A run that completes has gone
    through one fold per subject, of at least two; a run that stops has
    completed fewer folds than there are subjects. *)
Theorem decoder_result_lists (sub_list : list string) (X : ndarray3) (Y : ndarray)
    (n_top : nat) (st : notebook) :
  ∃ k m f,
    let st' := (decoder sub_list X Y n_top st).1 in
    rng st' = rng st
    ∧ scram_hit_iter st' = scram_hit_iter st
    ∧ fit_log st `prefix_of` fit_log st'
    ∧ length (test_hit st') = k
    ∧ length (test_similarity st') = k
    ∧ length (map_coef st') = m
    ∧ length (fit_log st') = length (fit_log st) + f
    ∧ k ≤ m ∧ m ≤ f ∧ f ≤ k + 1
    ∧ match (decoder sub_list X Y n_top st).2 with
      | Ok _ => k = length sub_list ∧ f = k ∧ 2 ≤ k
      | Err _ => k ≤ length sub_list - 1
      end.
Proof.
  unfold decoder.
  lazy beta iota zeta delta [mbind M_bind bind lift modify].
  unfold LOO_split. destruct (length sub_list <=? 1) eqn:Hn.
  - exists 0, 0, 0. cbn. repeat split; try done; lia.
  - apply Nat.leb_gt in Hn. lazy beta iota.
    set (splits := map _ (seq 0 (length sub_list))).
    assert (Hlen : length splits = length sub_list)
      by (unfold splits; by rewrite length_map, length_seq).
    destruct (folds_grow X Y n_top splits (reset_results st))
      as (k & m & f & Hkm & Hmf & Hfk & (?&?&?&?&?&?&?) & Hr).
    exists k, m, f. cbn zeta. cbn [reset_results rng scram_hit_iter fit_log
      test_hit test_similarity map_coef length] in *.
    repeat split; try done; try lia.
    destruct (for_each splits (fold_body X Y n_top) (reset_results st)).2; lia.
Qed.

Lemma length_filter_below (P : nat → Prop) `{∀ j, Decision (P j)} n c :
  (∀ j, P j → j < c) → length (filter P (seq 0 n)) ≤ Nat.min n c.
Proof.
  intros Hc. apply Nat.min_glb.
  - etrans; [apply length_filter|]. by rewrite length_seq.
  - transitivity (length (seq 0 c)); [|by rewrite length_seq].
    apply submseteq_length, NoDup_submseteq.
    + apply NoDup_filter, NoDup_seq.
    + intros j Hj. apply list_elem_of_filter in Hj as [Hj _].
      apply elem_of_seq. apply Hc in Hj. lia.
Qed.

Lemma length_filter_lt_seq n c :
  length (filter (fun j => j < c) (seq 0 n)) = Nat.min n c.
Proof.
  induction n as [|n IH]; [done|].
  rewrite seq_S, filter_app, length_app, IH. cbn [plus].
  destruct (decide (n < c)).
  - rewrite filter_cons_True, filter_nil by done. cbn [length]. lia.
  - rewrite filter_cons_False, filter_nil by done. cbn [length]. lia.
Qed.

Lemma row_length similarity j :
  wf similarity → j < nrows similarity →
  length (nth j (data similarity) []) = ncols similarity.
Proof.
  intros [Hlen Hrows] Hj.
  apply (proj1 (Forall_nth _ [] _) Hrows). lia.
Qed.

Lemma elem_of_argsort row j :
  argsort_sorts → j ∈ argsort row ↔ j < length row.
Proof.
  intros Hsort. destruct (Hsort row) as [Hperm _].
  rewrite Hperm, elem_of_seq. lia.
Qed.

Lemma top_indices_lt n_top row j :
  argsort_sorts → j ∈ top_indices n_top row → j < length row.
Proof.
  intros Hsort Hj. apply (elem_of_argsort row j Hsort).
  unfold top_indices in Hj. rewrite elem_of_reverse in Hj.
  unfold last_n in Hj. destruct (n_top =? 0); [done|].
  rewrite <- (take_drop (length (argsort row) - n_top) (argsort row)).
  apply elem_of_app. by right.
Qed.

(** X5: a fold never counts more hits than the similarity matrix has
    rows, nor more than it has columns: a row index that is not a column
    index is never among the positions [argsort] returns. *)
Theorem count_hits_bounded (n_top : nat) (similarity : ndarray) :
  argsort_sorts → wf similarity →
  count_hits n_top similarity ≤ Nat.min (nrows similarity) (ncols similarity).
Proof.
  intros Hsort Hwf. rewrite count_hits_filter.
  assert (Hin : ∀ j, j ∈ filter (fun j => is_hit n_top similarity j = true)
                            (seq 0 (nrows similarity)) →
                j ∈ filter (fun j => j < ncols similarity) (seq 0 (nrows similarity))).
  { intros j Hj. apply list_elem_of_filter in Hj as [Hhit Hj].
    apply list_elem_of_filter. split; [|done].
    apply elem_of_seq in Hj. apply bool_decide_eq_true in Hhit.
    apply top_indices_lt in Hhit; [|done].
    rewrite row_length in Hhit by (done || lia). done. }
  rewrite <- length_filter_lt_seq.
  apply submseteq_length, NoDup_submseteq; [|exact Hin].
  apply NoDup_filter, NoDup_seq.
Qed.

Lemma filter_iff_in {A} (P Q : A → Prop) `{∀ x, Decision (P x)}
    `{∀ x, Decision (Q x)} (l : list A) :
  (∀ x, x ∈ l → P x ↔ Q x) → filter P l = filter Q l.
Proof.
  induction l as [|a l IH]; intros HPQ; [done|].
  assert (filter P l = filter Q l) as IH'
    by (apply IH; intros; apply HPQ; by right).
  destruct (decide (P a)) as [HP|HP].
  - rewrite !filter_cons_True; [by rewrite IH'|by apply HPQ; [left|]|done].
  - rewrite !filter_cons_False; [done| |done].
    intros HQ. apply HP. apply HPQ; [left|done].
Qed.

Lemma last_n_all {A} n (a : list A) :
  n = 0 ∨ length a ≤ n → last_n n a = a.
Proof.
  intros Hn. unfold last_n. destruct (n =? 0) eqn:E; [done|].
  apply Nat.eqb_neq in E.
  replace (length a - n) with 0 by lia. done.
Qed.

(** X6: with [n_top = 0] the slice [[-n_top:]] is the whole row, as it is
    when [n_top] is at least the number of columns: every time point that
    is a column index is then counted as a hit. *)
Theorem count_hits_whole_row (n_top : nat) (similarity : ndarray) :
  argsort_sorts → wf similarity →
  n_top = 0 ∨ ncols similarity ≤ n_top →
  count_hits n_top similarity = Nat.min (nrows similarity) (ncols similarity).
Proof.
  intros Hsort Hwf Hn. rewrite count_hits_filter, <- length_filter_lt_seq.
  f_equal. apply filter_iff_in. intros j Hj.
  apply elem_of_seq in Hj.
  unfold is_hit, top_indices. rewrite bool_decide_eq_true, elem_of_reverse.
  pose proof (row_length similarity j Hwf ltac:(lia)) as Hrow.
  rewrite last_n_all.
  - rewrite elem_of_argsort by done. by rewrite Hrow.
  - destruct (Hsort (nth j (data similarity) [])) as [Hperm _].
    rewrite Hperm, length_seq, Hrow. done.
Qed.

Lemma idx_le_refl row j : idx_le row j j.
Proof. unfold idx_le, fle. lia. Qed.

(** X7: the hit rule by rank, for [n_top >= 1]: time point [j] is a miss
    when at least [n_top] positions of its row have a similarity that
    sorts strictly after its own, and a hit when it is a position of the
    row and fewer than [n_top] other positions have a similarity that
    does not sort before its own; in between, the order [argsort] gives
    to equal values decides. *)
Theorem hit_by_rank (n_top : nat) (similarity : ndarray) (j : nat) :
  argsort_sorts → 0 < n_top →
  let row := nth j (data similarity) [] in
  (n_top ≤ length (strictly_above row j) → is_hit n_top similarity j = false)
  ∧ (j < length row → length (not_below row j) < n_top →
     is_hit n_top similarity j = true).
Proof.
  intros Hsort Hk row.
  destruct (top_indices_top_k n_top row Hsort Hk) as (Hnd & Hlen & Hlt & Htop).
  unfold is_hit. fold row. set (S := top_indices n_top row) in *.
  split.
  - intros Habove. apply bool_decide_eq_false. intros Hj.
    assert (length (j :: strictly_above row j) ≤ length S) as Hle.
    { apply submseteq_length, NoDup_submseteq.
      - apply NoDup_cons. split.
        + unfold strictly_above. rewrite list_elem_of_filter.
          intros [Hn _]. apply Hn, idx_le_refl.
        + apply NoDup_filter, NoDup_seq.
      - intros b Hb. apply elem_of_cons in Hb as [->|Hb]; [done|].
        unfold strictly_above in Hb. apply list_elem_of_filter in Hb as [Hnle Hb].
        apply elem_of_seq in Hb.
        destruct (decide (b ∈ S)) as [|Hnb]; [done|].
        exfalso. apply Hnle. apply Htop; [done|lia|done]. }
    cbn [length] in Hle. lia.
  - intros Hjrow Hbelow. apply bool_decide_eq_true.
    destruct (decide (j ∈ S)) as [|Hnj]; [done|]. exfalso.
    assert (HS : ∀ a, a ∈ S → a ∈ not_below row j).
    { intros a Ha. unfold not_below. apply list_elem_of_filter. split.
      - split; [congruence|]. by apply Htop.
      - apply elem_of_seq. specialize (Hlt a Ha). lia. }
    assert (length S ≤ length (not_below row j)) as Hle1
      by (by apply submseteq_length, NoDup_submseteq).
    assert (length (j :: S) ≤ length (seq 0 (length row))) as Hle2.
    { apply submseteq_length, NoDup_submseteq.
      - by apply NoDup_cons.
      - intros a Ha. apply elem_of_seq.
        apply elem_of_cons in Ha as [->|Ha]; [lia|].
        specialize (Hlt a Ha). lia. }
    rewrite length_seq in Hle2. cbn [length] in Hle2. lia.
Qed.

End DecoderMore.

Import Np Notebook Decoder Spec DecoderSpec2.

Lemma count_hits_bounded_witness :
  @count_hits Examples.L0 1 Examples.similarity_2x3 ≤ 2.
Proof.
  apply (@count_hits_bounded Examples.L0 1 Examples.similarity_2x3).
  - apply ScoreFacts.ref_argsort_sorts.
  - apply NpFacts.wfb_wf. reflexivity.
Defined.

Lemma count_hits_whole_row_witness :
  @count_hits Examples.L0 0 Examples.similarity_2x3 = 2.
Proof.
  apply (@count_hits_whole_row Examples.L0 0 Examples.similarity_2x3).
  - apply ScoreFacts.ref_argsort_sorts.
  - apply NpFacts.wfb_wf. reflexivity.
  - by left.
Defined.

Lemma hit_by_rank_witness :
  @is_hit Examples.L0 1 Examples.similarity_2x3 0 = false
  ∧ @is_hit Examples.L0 1 Examples.similarity_2x3 1 = true.
Proof.
  split.
  - apply (@hit_by_rank Examples.L0 1 Examples.similarity_2x3 0).
    + apply ScoreFacts.ref_argsort_sorts.
    + lia.
    + vm_compute. lia.
  - apply (@hit_by_rank Examples.L0 1 Examples.similarity_2x3 1).
    + apply ScoreFacts.ref_argsort_sorts.
    + lia.
    + vm_compute. lia.
    + vm_compute. lia.
Defined.

End DecoderMore.

(** ** More on the baseline cell *)

Module BaselineMore.
Section BaselineMore.
Context {L : Lib}.
Import Np Notebook Resampler Decoder Scrambling Spec BaselineSpec DecoderFacts.

Lemma fitted_refl st : fitted st st 0.
Proof. unfold fitted. repeat split. exists []. by rewrite app_nil_r. Qed.

Lemma fitted_trans st1 st2 st3 f f' :
  fitted st1 st2 f → fitted st2 st3 f' → fitted st1 st3 (f + f').
Proof.
  intros (?&?&?&c1&Hc1&?) (?&?&?&c2&Hc2&?).
  repeat split; try congruence.
  exists (c1 ++ c2). rewrite Hc2, Hc1, <- app_assoc, length_app. split; [done|lia].
Qed.

(** One pass of the inner loop calls [fit] at most once and touches no
    notebook variable; a pass that completes has called it and appends
    one hit count. *)
Lemma scram_fold_body_fitted X Y n_top split acc st :
  ∃ f, f ≤ 1 ∧
    fitted st (scram_fold_body X Y n_top split acc st).1 f
    ∧ rng (scram_fold_body X Y n_top split acc st).1 = rng st
    ∧ scram_hit_iter (scram_fold_body X Y n_top split acc st).1 = scram_hit_iter st
    ∧ match (scram_fold_body X Y n_top split acc st).2 with
      | Ok hits => f = 1 ∧ length hits = length acc + 1
      | Err _ => True
      end.
Proof.
  destruct split as [train_index test_index].
  lazy beta iota zeta delta
    [scram_fold_body mbind M_bind bind lift call_fit mret M_ret ret].
  destruct (build_train X Y train_index) as [[X_train y_train]|e];
    [|exists 0; split; [lia|]; split; [apply fitted_refl|done]].
  lazy beta iota.
  destruct (getitem3 X _) as [X_test|e];
    [|exists 0; split; [lia|]; split; [apply fitted_refl|done]].
  lazy beta iota.
  assert (Hcall : ∀ st, fitted st
            (mknb (rng st) (test_hit st) (test_similarity st) (map_coef st)
                  (scram_hit_iter st) (fit_log st ++ [(X_train, y_train)])) 1).
  { intros s. repeat split. by eexists. }
  destruct (fit X_train y_train) as [reg|e];
    [|exists 1; split; [lia|]; split; [apply Hcall|done]].
  lazy beta iota.
  destruct (predict reg X_test) as [y_pred|e];
    [|exists 1; split; [lia|]; split; [apply Hcall|done]].
  lazy beta iota.
  destruct (cosine_similarity y_pred Y) as [similarity|e];
    [|exists 1; split; [lia|]; split; [apply Hcall|done]].
  lazy beta iota. exists 1. split; [lia|]. split; [apply Hcall|].
  cbn. rewrite length_app. done.
Qed.

Lemma scram_folds_fitted X Y n_top splits :
  ∀ acc st, ∃ f, f ≤ length splits ∧
    fitted st (scram_folds X Y n_top splits acc st).1 f
    ∧ rng (scram_folds X Y n_top splits acc st).1 = rng st
    ∧ scram_hit_iter (scram_folds X Y n_top splits acc st).1 = scram_hit_iter st
    ∧ match (scram_folds X Y n_top splits acc st).2 with
      | Ok hits => f = length splits ∧ length hits = length acc + length splits
      | Err _ => True
      end.
Proof.
  induction splits as [|split splits IH]; intros acc st.
  - exists 0. cbn. split; [lia|]. split; [apply fitted_refl|]. repeat split; lia.
  - cbn [scram_folds]. rewrite bind_unfold.
    destruct (scram_fold_body_fitted X Y n_top split acc st)
      as (f1 & Hf1 & Hfit1 & Hrng1 & Hs1 & Hr1).
    destruct (scram_fold_body X Y n_top split acc st) as [st1 [hits|e]];
      cbn [fst snd] in *.
    + destruct (IH hits st1) as (f & Hf & Hfit & Hrng & Hs & Hr).
      exists (f1 + f). cbn [length]. split; [lia|].
      split; [by eapply fitted_trans|].
      split; [congruence|]. split; [congruence|].
      destruct (scram_folds X Y n_top splits hits st1).2; [lia|done].
    + exists f1. cbn [length]. split; [lia|]. done.
Qed.

(** One trial: the permutation is drawn first, so the random state has
    moved on however the trial ends; a trial that completes has fitted
    once per subject and appends one accuracy per subject. *)
Lemma scram_iteration_fitted word_embedding sub_list fmri_data n_top st :
  ∃ f, f ≤ length sub_list ∧
    fitted st (scram_iteration word_embedding sub_list fmri_data n_top st).1 f
    ∧ rng (scram_iteration word_embedding sub_list fmri_data n_top st).1
      = next_rng (length (onset word_embedding)) (rng st)
    ∧ match (scram_iteration word_embedding sub_list fmri_data n_top st).2 with
      | Ok _ => f = length sub_list ∧ 2 ≤ length sub_list
                ∧ ∃ accs, length accs = length sub_list
                  ∧ scram_hit_iter
                      (scram_iteration word_embedding sub_list fmri_data n_top st).1
                    = scram_hit_iter st ++ [accs]
      | Err _ => scram_hit_iter
                   (scram_iteration word_embedding sub_list fmri_data n_top st).1
                 = scram_hit_iter st
      end.
Proof.
  unfold scram_iteration.
  lazy beta iota zeta delta [mbind M_bind bind lift call_permutation].
  unfold next_rng.
  destruct (random_permutation (rng st) (length (onset word_embedding)))
    as [perm r] eqn:Hperm.
  lazy beta iota. cbn [snd].
  assert (Hset : fitted st (set_rng r st) 0) by apply (fitted_refl st).
  destruct (scrambled_target perm word_embedding) as [Y|e];
    [|exists 0; split; [lia|]; done].
  lazy beta iota. unfold LOO_split.
  destruct (length sub_list <=? 1) eqn:Hn;
    [exists 0; split; [lia|]; done|].
  apply Nat.leb_gt in Hn. lazy beta iota.
  set (splits := map _ (seq 0 (length sub_list))).
  assert (Hlen : length splits = length sub_list)
    by (unfold splits; by rewrite length_map, length_seq).
  destruct (scram_folds_fitted fmri_data Y n_top splits [] (set_rng r st))
    as (f & Hf & Hfit & Hrng & Hs & Hr).
  destruct (scram_folds fmri_data Y n_top splits [] (set_rng r st))
    as [st1 [hits|e]]; cbn [fst snd] in *.
  - exists f. split; [lia|]. unfold append_scram_hit_iter, modify. cbn [fst snd].
    destruct Hfit as (?&?&?&?). split; [done|]. cbn [rng scram_hit_iter].
    split; [done|]. destruct Hr as [-> Hhits]. split; [done|]. split; [lia|].
    exists (map accuracy_percent hits). rewrite length_map, Hhits, Hs.
    cbn [length]. split; [lia|done].
  - exists f. split; [lia|]. done.
Qed.

Lemma trials_grow word_embedding sub_list fmri_data n_top {A} (l : list A) :
  let N := length sub_list in
  let body := fun _ : A => scram_iteration word_embedding sub_list fmri_data n_top in
  ∀ st, ∃ k f entries,
    fitted st (for_each l body st).1 f
    ∧ scram_hit_iter (for_each l body st).1 = scram_hit_iter st ++ entries
    ∧ length entries = k
    ∧ Forall (fun accs : list float => length accs = N) entries
    ∧ match (for_each l body st).2 with
      | Ok _ => k = length l ∧ f = length l * N
                ∧ rng (for_each l body st).1
                  = Nat.iter (length l) (next_rng (length (onset word_embedding))) (rng st)
      | Err _ => k < length l ∧ k * N ≤ f ∧ f ≤ k * N + N
                 ∧ rng (for_each l body st).1
                   = Nat.iter (S k) (next_rng (length (onset word_embedding))) (rng st)
      end.
Proof.
  intros N body. subst body. induction l as [|a l IH]; intros st.
  - exists 0, 0, []. cbn. rewrite app_nil_r.
    split; [apply fitted_refl|]. repeat split; done.
  - cbn [for_each]. unfold bind.
    destruct (scram_iteration_fitted word_embedding sub_list fmri_data n_top st)
      as (f1 & Hf1 & Hfit1 & Hrng1 & Hr1).
    cbn beta.
    destruct (scram_iteration word_embedding sub_list fmri_data n_top st)
      as [st1 [[]|e]]; cbn [fst snd] in *.
    + destruct Hr1 as (-> & HN & accs & Haccs & Hs1).
      destruct (IH st1) as (k & f & entries & Hfit & Hs & Hk & Hall & Hr).
      exists (S k), (N + f), (accs :: entries).
      split; [by eapply fitted_trans|].
      split; [by rewrite Hs, Hs1, <- app_assoc|].
      split; [cbn; lia|]. split; [by constructor|].
      destruct (for_each l _ st1).2; cbn [length].
      * destruct Hr as (-> & -> & ->). rewrite Hrng1.
        split; [done|]. split; [lia|]. by rewrite Nat.iter_succ_r.
      * destruct Hr as (? & ? & ? & ->). rewrite Hrng1.
        split; [lia|]. split; [lia|]. split; [lia|].
        by rewrite (Nat.iter_succ_r (S k)).
    + exists 0, f1, []. rewrite app_nil_r. cbn [length].
      split; [done|]. split; [done|]. split; [done|]. split; [done|].
      split; [lia|]. split; [lia|]. split; [lia|]. done.
Qed.

(** X8: however the baseline cell stops, it leaves the decoder's three
    result lists as they were and keeps what [fit] was called with
    before; [scram_hit_iter] holds one array per completed trial, each
    with one accuracy per subject. A run that completes has gone through
    [n_iter] trials, called [fit] once per trial and subject, and drawn
    [n_iter] permutations; a run that stops in a trial has completed
    fewer than [n_iter], and has already drawn the permutation of the
    trial it stopped in. *)
Theorem scrambling_cell_lists (word_embedding : frame) (sub_list : list string)
    (fmri_data : ndarray3) (n_top n_iter : nat) (st : notebook) :
  let N := length sub_list in
  let run := scrambling_cell word_embedding sub_list fmri_data n_top n_iter st in
  let draw := next_rng (length (onset word_embedding)) in
  ∃ k f,
    fitted st run.1 f
    ∧ length (scram_hit_iter run.1) = k
    ∧ Forall (fun accs : list float => length accs = N) (scram_hit_iter run.1)
    ∧ match run.2 with
      | Ok _ => k = n_iter ∧ f = n_iter * N ∧ rng run.1 = Nat.iter n_iter draw (rng st)
      | Err _ => k < n_iter ∧ k * N ≤ f ∧ f ≤ k * N + N
                 ∧ rng run.1 = Nat.iter (S k) draw (rng st)
      end.
Proof.
  intros N run draw. unfold run, scrambling_cell.
  lazy beta iota zeta delta [mbind M_bind bind modify].
  destruct (trials_grow word_embedding sub_list fmri_data n_top (seq 0 n_iter)
              (reset_scram st)) as (k & f & entries & Hfit & Hs & Hk & Hall & Hr).
  exists k, f. rewrite Hs. cbn [reset_scram scram_hit_iter app].
  split; [exact Hfit|]. split; [done|]. split; [done|].
  rewrite length_seq in Hr. exact Hr.
Qed.

End BaselineMore.
End BaselineMore.

(** ** More on the temporal resampler *)

Module ResamplerMore.
Section ResamplerMore.
Context {L : Lib}.
Import Np NpFacts Resampler Spec ResamplerSpec ResamplerFacts.

Lemma min_skipna_all_nan l :
  Forall (fun x => PrimFloat.is_nan x = true) l → min_skipna l = nan.
Proof.
  unfold min_skipna. generalize nan.
  intros acc H. revert acc. induction H as [|x l Hx _ IH]; intros acc; [done|].
  cbn [foldl]. rewrite Hx. apply IH.
Qed.

Lemma max_skipna_all_nan l :
  Forall (fun x => PrimFloat.is_nan x = true) l → max_skipna l = nan.
Proof.
  unfold max_skipna. generalize nan.
  intros acc H. revert acc. induction H as [|x l Hx _ IH]; intros acc; [done|].
  cbn [foldl]. rewrite Hx. apply IH.
Qed.

Lemma arange_nan : arange nan nan = Err ValueError.
Proof. vm_compute. reflexivity. Qed.

(** X9: a frame none of whose onsets is a number, in particular a frame
    with no row, never gets through the resampler: when [interp1d]
    accepts it, [np.arange] has no length to compute from the NaN that
    [min] and [max] return, and raises ValueError. *)
Theorem downsample_needs_an_onset (we : frame) (kind : string) (convolve_hrf : bool) :
  Forall (fun x => PrimFloat.is_nan x = true) (onset we) →
  downsample_embeddings we kind convolve_hrf
  = match interp1d kind (onset we) (emb we) with
    | Ok _ => Err ValueError
    | Err e => Err e
    end.
Proof.
  intros Hnan. unfold downsample_embeddings, mbind, result_bind, rbind.
  destruct (interp1d _ _ _); [|done].
  by rewrite (min_skipna_all_nan _ Hnan), (max_skipna_all_nan _ Hnan), arange_nan.
Qed.

Lemma finite_nan_to_num1 x : finite (nan_to_num1 x) = true.
Proof.
  unfold nan_to_num1, finite.
  destruct (PrimFloat.is_nan x) eqn:Hn; [reflexivity|].
  destruct (PrimFloat.is_infinity x) eqn:Hi.
  - destruct (x <? 0)%float; reflexivity.
  - by rewrite Hn, Hi.
Qed.

(** X10: without the convolution the resampler returns only finite
    values, whatever the interpolant returned: the pad rows are zeros,
    and [nan_to_num] has replaced every NaN by zero and every infinity by
    the largest double of its sign. *)
Theorem downsample_padded_is_finite (we : frame) (kind : string) (padded : ndarray) :
  downsample_embeddings we kind false = Ok padded →
  Forall (Forall (fun x => finite x = true)) (data padded).
Proof.
  unfold downsample_embeddings, mbind, result_bind, rbind.
  destruct (interp1d _ _ _); [|done].
  destruct (arange _ _); [|done].
  destruct (interp_call _ _) as [dv|]; [|done].
  change n_feature with 100. rewrite concatenate_pad.
  destruct (ncols _ =? 100); [|done].
  intros Hp.
  apply (f_equal (fun r => match r with Ok m => data m | Err _ => [] end)) in Hp.
  cbn beta iota in Hp. cbn [data] in Hp. rewrite <- Hp.
  apply Forall_app. split; [|apply Forall_app; split].
  - apply Forall_replicate, Forall_replicate. reflexivity.
  - unfold nan_to_num. cbn [data]. apply Forall_fmap, Forall_true. intros r.
    apply Forall_fmap, Forall_true. intros x. apply finite_nan_to_num1.
  - apply Forall_replicate, Forall_replicate. reflexivity.
Qed.

Lemma convolve_columns_nth cols cs :
  convolve_columns cols = Ok cs →
  cs = map (fun x => take (length x)
                       (map (convolve_at x hrf_weight)
                            (seq 0 (length x + length hrf_weight - 1)))) cols.
Proof.
  revert cs. induction cols as [|x cols IH]; cbn [convolve_columns map]; intros cs.
  - by intros [= <-].
  - unfold mbind, result_bind, rbind. unfold convolve at 1.
    destruct (_ || _); [done|].
    destruct (convolve_columns cols) as [cs'|]; [|done].
    intros [= <-]. by rewrite (IH cs').
Qed.

Lemma nth_map_seq {A} (f : nat → A) n k d :
  k < n → nth k (map f (seq 0 n)) d = f k.
Proof.
  intros Hk. rewrite (nth_indep _ d (f 0)) by (by rewrite length_map, length_seq).
  rewrite (map_nth f). by rewrite seq_nth.
Qed.

Lemma nth_take {A} (l : list A) n k d :
  k < n → nth k (take n l) d = nth k l d.
Proof.
  intros Hk. rewrite !nth_lookup. by rewrite lookup_take_lt.
Qed.

Lemma nth_truncated_convolution x h k :
  k < length x → h ≠ [] →
  nth k (take (length x) (map (convolve_at x h) (seq 0 (length x + length h - 1)))) 0%float
  = convolve_at x h k.
Proof.
  intros Hk Hh. destruct h as [|h0 h]; [done|]. cbn [length].
  rewrite nth_take by done. apply nth_map_seq. lia.
Qed.

Lemma convolve_columns_weight cols cs :
  convolve_columns cols = Ok cs → cols ≠ [] → hrf_weight ≠ [].
Proof.
  destruct cols as [|x cols]; [done|]. cbn [convolve_columns].
  unfold mbind, result_bind, rbind, convolve.
  destruct hrf_weight; [|done]. cbn [length]. rewrite orb_true_r. done.
Qed.

Lemma hrf_stage_row padded out k :
  hrf_stage padded = Ok out →
  k < nrows padded → k < length (data padded) →
  nth k (data out) [] = response_row hrf_weight padded k.
Proof.
  unfold hrf_stage, mbind, result_bind, rbind.
  destruct (convolve_columns _) as [cs|] eqn:Hcs; [|done].
  intros [= <-] Hk Hd. unfold transpose at 1, of_rows. cbn [data ncols nrows].
  rewrite nth_map_seq by done.
  unfold column at 1. cbn [data].
  pose proof (convolve_columns_nth _ _ Hcs) as ->.
  unfold response_row, transpose. cbn [data]. rewrite !map_map.
  apply map_ext_in. intros j Hj.
  apply nth_truncated_convolution.
  - by rewrite length_column.
  - eapply convolve_columns_weight; [exact Hcs|].
    unfold transpose. cbn [data]. intros Hnil.
    rewrite (map_eq_nil _ _ Hnil) in Hj. done.
Qed.

Lemma omap_ext_in {A B} (f g : A → option B) (l : list A) :
  (∀ x, x ∈ l → f x = g x) → omap f l = omap g l.
Proof.
  induction l as [|x l IH]; intros Hfg; [done|]. cbn [omap list_omap].
  rewrite (Hfg x) by left. rewrite IH; [done|]. intros. apply Hfg. by right.
Qed.

Lemma convolve_at_take a a' v k :
  take (S k) a = take (S k) a' → convolve_at a v k = convolve_at a' v k.
Proof.
  intros Heq. unfold convolve_at.
  assert (Hlen : Nat.min (S k) (length a) = Nat.min (S k) (length a')).
  { rewrite <- !length_take. by rewrite Heq. }
  rewrite <- Hlen. f_equal. apply omap_ext_in. intros j Hj.
  apply elem_of_seq in Hj.
  destruct (k - j <? length v); [|done]. do 2 f_equal.
  rewrite <- (take_drop (S k) a), <- (take_drop (S k) a'), Heq.
  rewrite !app_nth1; [done| |]; rewrite length_take; lia.
Qed.

(** X11: the response kept by the resampler is causal: row [k] of the
    convolved signal is, column by column, the sum over the rows [i <= k]
    of [padded[i] * hrf_weight[k - i]], so two padded signals of the same
    width that agree on their first [k + 1] rows have the same row [k]
    after the convolution, whatever follows; the response to the last
    rows that would fall after the end of the signal is cut off. *)
Theorem hrf_stage_is_causal (padded padded' out out' : ndarray) (k : nat) :
  hrf_stage padded = Ok out → hrf_stage padded' = Ok out' →
  k < nrows padded → k < length (data padded) →
  k < nrows padded' → k < length (data padded') →
  ncols padded' = ncols padded →
  take (S k) (data padded') = take (S k) (data padded) →
  nth k (data out) [] = response_row hrf_weight padded k
  ∧ nth k (data out') [] = nth k (data out) [].
Proof.
  intros Ho Ho' Hk Hd Hk' Hd' Hc Ht.
  rewrite (hrf_stage_row _ _ _ Ho Hk Hd), (hrf_stage_row _ _ _ Ho' Hk' Hd').
  split; [done|]. unfold response_row. rewrite Hc.
  apply map_ext_in. intros j _. apply convolve_at_take.
  unfold column. rewrite !firstn_map. by rewrite Ht.
Qed.

End ResamplerMore.

Import Np Resampler Spec ResamplerSpec.

Lemma downsample_needs_an_onset_witness :
  @downsample_embeddings Examples.L0 Examples.no_words "linear" true = Err ValueError.
Proof.
  rewrite (@downsample_needs_an_onset Examples.L0 Examples.no_words "linear" true).
  - vm_compute. reflexivity.
  - constructor.
Defined.

Lemma downsample_padded_is_finite_witness :
  ∃ padded,
    @downsample_embeddings Examples.L0 Examples.two_words "linear" false = Ok padded
    ∧ Forall (Forall (fun x => finite x = true)) (data padded).
Proof.
  destruct (@downsample_embeddings Examples.L0 Examples.two_words "linear" false)
    as [padded|] eqn:Hp; [|vm_compute in Hp; discriminate].
  exists padded. split; [done|].
  exact (@downsample_padded_is_finite Examples.L0 Examples.two_words "linear" padded Hp).
Defined.

Lemma hrf_stage_is_causal_witness :
  ∃ out out',
    @hrf_stage Examples.L0 Examples.padded_3x1 = Ok out
    ∧ @hrf_stage Examples.L0 Examples.padded_3x1_other_end = Ok out'
    ∧ nth 1 (data out') [] = nth 1 (data out) [].
Proof.
  destruct (@hrf_stage Examples.L0 Examples.padded_3x1) as [out|] eqn:Ho;
    [|vm_compute in Ho; discriminate].
  destruct (@hrf_stage Examples.L0 Examples.padded_3x1_other_end) as [out'|] eqn:Ho';
    [|vm_compute in Ho'; discriminate].
  exists out, out'. split; [done|]. split; [done|].
  apply (@hrf_stage_is_causal Examples.L0 Examples.padded_3x1
           Examples.padded_3x1_other_end out out' 1 Ho Ho');
    cbn; try lia; reflexivity.
Defined.

End ResamplerMore.

(** ** The lookup cell *)

Module LookupFacts.
Section LookupFacts.
Context {N : Nlp}.
Import WordLookup LookupSpec.

Lemma lookup_tokens_spec (d : gmap string (list float)) ws :
  match lookup_tokens d ws with
  | Ok vs => Forall2 (fun t v => d !! t = Some v) ws vs
  | Err e => e = KeyError ∧ ¬ Forall (fun t => is_Some (d !! t)) ws
  end.
Proof.
  induction ws as [|w ws IH]; cbn [lookup_tokens]; [constructor|].
  unfold mbind, result_bind, rbind, getitem.
  destruct (d !! w) as [v|] eqn:Hw.
  - destruct (lookup_tokens d ws) as [vs|e].
    + by constructor.
    + destruct IH as [-> IH]. split; [done|]. intros H. apply IH. by inversion H.
  - split; [done|]. intros H. inversion H as [|? ? [? Hs] ?]; subst. congruence.
Qed.

Lemma Forall2_is_Some (d : gmap string (list float)) ws vs :
  Forall2 (fun t v => d !! t = Some v) ws vs →
  Forall (fun t => is_Some (d !! t)) ws.
Proof. induction 1; constructor; [by eexists|done]. Qed.

(** What one pass of the loop does with a row. *)
Inductive row_outcome (d : gmap string (list float)) (row : float * string)
    (st : lookup_state) : result lookup_state → Prop :=
  | row_direct x :
      d !! row.2 = Some x →
      row_outcome d row st (Ok (keep_word row.1 row.2 (Array1 x) st))
  | row_summed vs v :
      d !! row.2 = None → piece_vectors d row.2 vs → np_sum_axis0 vs = Ok v →
      row_outcome d row st
        (Ok (keep_word row.1 row.2 v (print_split row.2 (word_tokenize row.2) st)))
  | row_ignored :
      d !! row.2 = None →
      ¬ Forall (fun t => is_Some (d !! t)) (word_tokenize row.2) →
      row_outcome d row st
        (Ok (ignore_word row.2 (print_split row.2 (word_tokenize row.2) st)))
  | row_sum_ignored vs :
      d !! row.2 = None → piece_vectors d row.2 vs →
      np_sum_axis0 vs = Err KeyError →
      row_outcome d row st
        (Ok (ignore_word row.2 (print_split row.2 (word_tokenize row.2) st)))
  | row_raises vs e :
      d !! row.2 = None → piece_vectors d row.2 vs →
      np_sum_axis0 vs = Err e → e ≠ KeyError →
      row_outcome d row st (Err e).

Lemma lookup_row_outcome (d : gmap string (list float)) row st : row_outcome d row st (lookup_row d row st).
Proof.
  destruct row as [onset word]. unfold lookup_row, getitem.
  destruct (d !! word) as [x|] eqn:Hw; [by apply row_direct|].
  pose proof (lookup_tokens_spec d (word_tokenize word)) as Ht.
  unfold mbind, result_bind, rbind.
  destruct (lookup_tokens d (word_tokenize word)) as [vs|e].
  - destruct (np_sum_axis0 vs) as [v|e] eqn:Hs.
    + by eapply (row_summed d (onset, word)).
    + destruct e.
      * eapply (row_raises d (onset, word)); eauto.
      * eapply (row_raises d (onset, word)); eauto.
      * by eapply (row_sum_ignored d (onset, word)).
  - destruct Ht as [-> Ht]. by apply (row_ignored d (onset, word)).
Qed.

Lemma lookup_rows_lists (d : gmap string (list float)) rows :
  sum_no_key_error →
  ∀ st st', lookup_rows d rows st = Ok st' →
    word_time st' = word_time st ++ filter (embeddable d) rows
    ∧ error_keys st' = error_keys st ++ map snd (filter (fun r => ¬ embeddable d r) rows)
    ∧ printed st' = printed st
                    ++ map (fun r => (r.2, word_tokenize r.2)) (filter (split_tried d) rows)
    ∧ ∃ vs, word_embedding st' = word_embedding st ++ vs
            ∧ Forall2 (entry_of d) (filter (embeddable d) rows) vs.
Proof.
  intros Hsum. induction rows as [|row rows IH]; intros st st'.
  - cbn [lookup_rows]. intros [= <-]. rewrite !filter_nil. cbn [map].
    rewrite !app_nil_r. repeat split. exists []. rewrite app_nil_r.
    split; [done|constructor].
  - cbn [lookup_rows]. unfold mbind, result_bind, rbind.
    pose proof (lookup_row_outcome d row st) as Hrow.
    destruct (lookup_row d row st) as [st1|e]; [|done].
    intros Hrest. destruct (IH _ _ Hrest) as (Hwt & Hek & Hpr & vs' & Hwe & Hvec).
    clear IH.
    inversion Hrow as [x Hx Heq|vs v Hx Hvs Hs Heq|Hx Hn Heq|vs Hx Hvs Hs Heq|];
      subst st1; cbn [keep_word ignore_word print_split word_time error_keys
                      printed word_embedding] in *.
    + assert (embeddable d row) as He by (left; by rewrite Hx).
      rewrite filter_cons_True by done.
      rewrite (filter_cons_False (fun r => ¬ embeddable d r)) by (intros H; by apply H).
      rewrite (filter_cons_False (split_tried d)) by (unfold split_tried; congruence).
      rewrite Hwt, Hek, Hpr, Hwe, <- !app_assoc. destruct row as [onset word].
      repeat split. eexists. split; [done|]. constructor; [|done].
      unfold entry_of. by rewrite Hx.
    + assert (embeddable d row) as He by (right; by eapply Forall2_is_Some).
      rewrite filter_cons_True by done.
      rewrite (filter_cons_False (fun r => ¬ embeddable d r)) by (intros H; by apply H).
      rewrite (filter_cons_True (split_tried d)) by done.
      rewrite Hwt, Hek, Hpr, Hwe, <- !app_assoc. destruct row as [onset word].
      repeat split. eexists. split; [done|]. constructor; [|done].
      unfold entry_of. rewrite Hx. by exists vs.
    + assert (¬ embeddable d row) as He.
      { intros [[? Hs]|Hall]; [congruence|done]. }
      rewrite filter_cons_False by done.
      rewrite (filter_cons_True (fun r => ¬ embeddable d r)) by done.
      rewrite (filter_cons_True (split_tried d)) by done.
      rewrite Hwt, Hek, Hpr, Hwe, <- !app_assoc. repeat split. by exists vs'.
    + by destruct (Hsum vs).
Qed.

(** X12: the cell sorts the rows of the transcript in two, in their
    order: [word_time] gets the rows whose word is a key of the table
    or is cut by the tokenizer into pieces that are all keys, and
    [error_keys] the words of the other rows, once per row; a word that
    is a key is never handed to the tokenizer, every other word is
    printed with its pieces; [word_embedding] has one entry per row of
    [word_time]. A word the tokenizer cuts into no piece at all is
    kept. *)
Theorem lookup_cell_partitions (d : gmap string (list float))
    (rows : list (float * string)) (st : lookup_state) :
  sum_no_key_error → lookup_cell d rows = Ok st →
  word_time st = filter (embeddable d) rows
  ∧ error_keys st = map snd (filter (fun r => ¬ embeddable d r) rows)
  ∧ printed st = map (fun r => (r.2, word_tokenize r.2)) (filter (split_tried d) rows)
  ∧ length (word_embedding st) = length (word_time st)
  ∧ length (word_time st) + length (error_keys st) = length rows
  ∧ (∀ row, row ∈ rows → word_tokenize row.2 = [] → row ∈ word_time st).
Proof.
  intros Hsum Hrun.
  destruct (lookup_rows_lists d rows Hsum _ _ Hrun) as (Hwt & Hek & Hpr & vs & Hwe & Hvs).
  cbn in Hwt, Hek, Hpr, Hwe. rewrite Hwt, Hek, Hpr, Hwe.
  split; [done|]. split; [done|]. split; [done|].
  split; [symmetry; by eapply Forall2_length|]. split.
  - rewrite length_map. rewrite <- (length_app (filter _ rows)).
    by rewrite (filter_app_complement (embeddable d) rows).
  - intros row Hrow Hnil. apply list_elem_of_filter. split; [|done].
    right. rewrite Hnil. constructor.
Qed.

(** X13: every entry of [word_embedding] belongs to the row of
    [word_time] at its position: it is the vector of the table when the
    word is a key, whatever its pieces are, and otherwise what [np.sum]
    returns for the vectors of its pieces, in their order. *)
Theorem lookup_cell_vectors (d : gmap string (list float))
    (rows : list (float * string)) (st : lookup_state) :
  sum_no_key_error → lookup_cell d rows = Ok st →
  Forall2 (entry_of d) (word_time st) (word_embedding st).
Proof.
  intros Hsum Hrun.
  destruct (lookup_rows_lists d rows Hsum _ _ Hrun) as (Hwt & _ & _ & vs & Hwe & Hvs).
  cbn in Hwt, Hwe. by rewrite Hwt, Hwe.
Qed.

Lemma lookup_rows_error (d : gmap string (list float)) rows :
  ∀ st e, lookup_rows d rows st = Err e →
    e ≠ KeyError
    ∧ ∃ row vs, row ∈ rows ∧ d !! row.2 = None
                ∧ piece_vectors d row.2 vs ∧ np_sum_axis0 vs = Err e.
Proof.
  induction rows as [|row rows IH]; intros st e; [done|].
  cbn [lookup_rows]. unfold mbind, result_bind, rbind.
  pose proof (lookup_row_outcome d row st) as Hrow.
  destruct (lookup_row d row st) as [st1|e1].
  - intros Hrest. destruct (IH _ _ Hrest) as (He & r & vs & Hr & ?).
    split; [done|]. exists r, vs. split; [by right|done].
  - intros [= ->]. inversion Hrow as [| | | |vs e' Hx Hvs Hs Hne]; subst.
    split; [done|]. exists row, vs. split; [left|done].
Qed.

(** X14: KeyError never leaves the cell: the cell stops only when
    [np.sum] raises another exception on the vectors of the pieces of a
    word that is not a key. With a table whose vectors all have the
    same length, as a table loaded from lines of as many values each
    has, it never stops. *)
Theorem lookup_cell_raises_only_in_sum (d : gmap string (list float))
    (rows : list (float * string)) :
  (∀ e, lookup_cell d rows = Err e →
     e ≠ KeyError
     ∧ ∃ row vs, row ∈ rows ∧ d !! row.2 = None
                 ∧ piece_vectors d row.2 vs ∧ np_sum_axis0 vs = Err e)
  ∧ (sum_of_one_length →
     ∀ D, (∀ tok v, d !! tok = Some v → length v = D) →
          is_ok (lookup_cell d rows) = true).
Proof.
  split; [intros e; apply lookup_rows_error|].
  intros Hsum D HD. destruct (lookup_cell d rows) as [st|e] eqn:Hrun; [done|].
  destruct (lookup_rows_error _ _ _ _ Hrun) as (_ & row & vs & _ & _ & Hvs & Hs).
  assert (Forall (fun v : list float => length v = D) vs) as Hlen.
  { clear Hs. induction Hvs as [|t v ts vs Htv _ IH]; constructor; [by eapply HD|done]. }
  specialize (Hsum vs D Hlen). by rewrite Hs in Hsum.
Qed.

End LookupFacts.

Section LoadedTable.
Context {L : Lib} {N : Nlp}.
Import Loader LoaderSpec LoaderFacts WordLookup LookupSpec.

(** X15: the loader and the lookup cell together: when every line of
    the resource has a first field and [D] values that [float] accepts,
    the table is loaded and the lookup cell goes through every
    transcript with it, and every word that is a key gets a vector of
    [D] values. *)
Theorem loaded_table_embeds_every_transcript (url : string) (D : nat)
    (rows : list (float * string)) :
  sum_of_one_length → sum_no_key_error →
  Forall (fun fields => storable fields ∧ length (tail fields) = D) (split_lines url) →
  ∃ d st,
    get_glove_model url = Ok d
    ∧ lookup_cell d rows = Ok st
    ∧ Forall2 (fun row v => is_Some (d !! row.2) →
                            ∃ x, v = Array1 x ∧ length x = D)
              (word_time st) (word_embedding st).
Proof.
  intros Hsum Hkey HD. rewrite get_glove_model_unfold. unfold split_lines in HD.
  assert (Hok : is_ok (load_lines (line_fields url) (resource_lines url) ∅) = true).
  { apply load_lines_ok. eapply Forall_impl; [exact HD|]. by intros ? [? _]. }
  destruct (load_lines _ _ _) as [d|e] eqn:Hd; [|done].
  assert (Hlen : ∀ tok v, d !! tok = Some v → length v = D).
  { intros tok v Hv.
    destruct (load_lines_lookup _ _ _ _ _ _ Hd Hv) as [H|(fs & Hin & _ & ->)].
    - by rewrite lookup_empty in H.
    - rewrite Forall_forall in HD. by apply HD. }
  destruct (lookup_cell d rows) as [st|e] eqn:Hrun.
  - exists d, st. split; [done|]. split; [done|].
    destruct (lookup_rows_lists d rows Hkey _ _ Hrun) as (Hwt & _ & _ & vs & Hwe & Hvs).
    cbn in Hwt, Hwe. rewrite Hwt, Hwe.
    eapply Forall2_impl; [exact Hvs|].
    intros row v Hentry [x Hx]. unfold entry_of in Hentry. rewrite Hx in Hentry.
    exists x. split; [done|]. by eapply Hlen.
  - destruct (lookup_rows_error _ _ _ _ Hrun) as (_ & row & vs & _ & _ & Hvs & Hs).
    assert (Forall (fun v : list float => length v = D) vs) as Hvlen.
    { clear Hs. induction Hvs as [|t v ts vs Htv _ IH]; constructor; [by eapply Hlen|done]. }
    specialize (Hsum vs D Hvlen). by rewrite Hs in Hsum.
Qed.

End LoadedTable.

Import WordLookup LookupSpec.

Lemma ref_sum_no_key_error : @sum_no_key_error RefNlp.nlp.
Proof.
  intros vs. cbn. unfold RefNlp.sum_ref.
  destruct vs as [|v rest]; [done|]. by destruct (forallb _ _).
Qed.

Lemma ref_sum_of_one_length : @sum_of_one_length RefNlp.nlp.
Proof.
  intros vs n Hvs. cbn. unfold RefNlp.sum_ref.
  destruct vs as [|v rest]; [done|].
  apply Forall_cons in Hvs as [Hv Hrest].
  replace (forallb _ rest) with true; [done|].
  symmetry. apply forallb_forall. intros w Hw.
  rewrite Forall_forall in Hrest. apply list_elem_of_In in Hw.
  rewrite (Hrest w Hw), Hv. apply Nat.eqb_refl.
Qed.

Lemma lookup_cell_partitions_witness :
  ∃ st, @lookup_cell RefNlp.nlp Examples.small_table Examples.small_transcript = Ok st
        ∧ map snd (word_time st) = ["he"; "ice cream"; ""]
        ∧ error_keys st = ["ice lolly"].
Proof.
  destruct (@lookup_cell RefNlp.nlp Examples.small_table Examples.small_transcript)
    as [st|] eqn:Hrun; [|vm_compute in Hrun; discriminate].
  exists st. split; [done|].
  destruct (@lookup_cell_partitions RefNlp.nlp Examples.small_table
              Examples.small_transcript st ref_sum_no_key_error Hrun)
    as (Hwt & Hek & _).
  rewrite Hwt, Hek. split; vm_compute; reflexivity.
Defined.

Lemma lookup_cell_vectors_witness :
  ∃ st, @lookup_cell RefNlp.nlp Examples.small_table Examples.small_transcript = Ok st
        ∧ Forall2 (@entry_of RefNlp.nlp Examples.small_table)
                  (word_time st) (word_embedding st).
Proof.
  destruct (@lookup_cell RefNlp.nlp Examples.small_table Examples.small_transcript)
    as [st|] eqn:Hrun; [|vm_compute in Hrun; discriminate].
  exists st. split; [done|].
  exact (@lookup_cell_vectors RefNlp.nlp Examples.small_table
           Examples.small_transcript st ref_sum_no_key_error Hrun).
Defined.

Lemma lookup_cell_raises_only_in_sum_witness :
  is_ok (@lookup_cell RefNlp.nlp Examples.small_table Examples.small_transcript) = true.
Proof.
  destruct (@lookup_cell_raises_only_in_sum RefNlp.nlp Examples.small_table
              Examples.small_transcript) as [_ H].
  apply (H ref_sum_of_one_length 2).
  intros tok v. unfold Examples.small_table.
  rewrite !lookup_insert_Some, lookup_empty. intros [[_ <-]|[_ [[_ <-]|[_ [[_ <-]|[_ ?]]]]]]; done.
Defined.

Lemma loaded_table_embeds_every_transcript_witness :
  ∃ d st,
    @Loader.get_glove_model (Ref.lib Examples.two_line_table []) "http://glove" = Ok d
    ∧ @lookup_cell RefNlp.nlp d [(0.5%float, "wine"); (1.5%float, "beer")] = Ok st
    ∧ Forall2 (fun row v => is_Some (d !! row.2) → ∃ x, v = Array1 x ∧ length x = 2)
              (word_time st) (word_embedding st).
Proof.
  apply (@loaded_table_embeds_every_transcript
           (Ref.lib Examples.two_line_table []) RefNlp.nlp "http://glove" 2
           [(0.5%float, "wine"); (1.5%float, "beer")]
           ref_sum_of_one_length ref_sum_no_key_error).
  repeat constructor; try discriminate; by eexists.
Defined.

End LookupFacts.

(** ** The matrix of the top predicted indices *)

Module HitMatrixFacts.
Section HitMatrixFacts.
Context {L : Lib}.
Import Np NpFacts Decoder Spec HitMatrix DecoderMore.

Lemma entry_setitem2 A j idx x A' j' c :
  wf A → setitem2 A j idx x = Ok A' →
  entry A' j' c = if decide (j' = j ∧ c = idx) then x else entry A j' c.
Proof.
  intros [Hlen Hrows]. unfold setitem2.
  destruct (j <? nrows A) eqn:Hj; [|done].
  destruct (idx <? ncols A) eqn:Hi; [|done].
  apply Nat.ltb_lt in Hj, Hi. intros [= <-]. unfold entry. cbn [data].
  rewrite !(nth_lookup _ _ []).
  destruct (decide (j' = j)) as [->|Hne].
  - rewrite list_lookup_alter_eq.
    destruct (data A !! j) as [r|] eqn:Hr.
    2:{ apply lookup_ge_None in Hr. lia. }
    cbn. rewrite !nth_lookup.
    assert (length r = ncols A) as Hrlen.
    { rewrite Forall_forall in Hrows. apply Hrows. by eapply list_elem_of_lookup_2. }
    destruct (decide (c = idx)) as [->|Hc].
    + rewrite decide_True by done. rewrite list_lookup_insert_eq by lia. done.
    + rewrite decide_False by (intros [_ ?]; done).
      by rewrite list_lookup_insert_ne.
  - rewrite decide_False by (intros [? _]; done).
    by rewrite list_lookup_alter_ne.
Qed.

Lemma wf_setitem2 A j idx x A' :
  wf A → setitem2 A j idx x = Ok A' →
  wf A' ∧ nrows A' = nrows A ∧ ncols A' = ncols A.
Proof.
  intros [Hlen Hrows]. unfold setitem2.
  destruct (_ && _); [|done]. intros [= <-]. cbn [data nrows ncols].
  split; [|done]. split; cbn [data nrows ncols].
  - by rewrite length_alter.
  - apply Forall_forall. intros r Hr.
    apply list_elem_of_lookup in Hr as [i Hi].
    rewrite Forall_forall in Hrows.
    destruct (decide (i = j)) as [->|Hne].
    + rewrite list_lookup_alter_eq in Hi.
      destruct (data A !! j) as [r0|] eqn:Hr0; [|done].
      injection Hi as <-. rewrite length_insert.
      apply Hrows. by eapply list_elem_of_lookup_2.
    + rewrite list_lookup_alter_ne in Hi by done.
      apply Hrows. by eapply list_elem_of_lookup_2.
Qed.

(** The marks of one row. *)
Lemma mark_row_spec n_top j idxs :
  ∀ k hm, wf hm → j < nrows hm → Forall (fun idx => idx < ncols hm) idxs → NoDup idxs →
    ∃ hm', mark_row n_top j k idxs hm = Ok hm'
      ∧ wf hm' ∧ nrows hm' = nrows hm ∧ ncols hm' = ncols hm
      ∧ (∀ j' c, j' ≠ j → entry hm' j' c = entry hm j' c)
      ∧ (∀ c, c ∉ idxs → entry hm' j c = entry hm j c)
      ∧ (∀ i c, idxs !! i = Some c →
           entry hm' j c = float_of_int (Z.of_nat n_top - Z.of_nat (k + i))).
Proof.
  induction idxs as [|idx idxs IH]; intros k hm Hwf Hj Hidx Hnd.
  - exists hm. cbn [mark_row].
    do 6 (split; [done|]). intros i c Hi. by rewrite lookup_nil in Hi.
  - cbn [mark_row]. unfold mbind, result_bind, rbind.
    apply Forall_cons in Hidx as [Hi Hidx]. apply NoDup_cons in Hnd as [Hni Hnd].
    destruct (setitem2 hm j idx _) as [hm1|e] eqn:Hset.
    2:{ unfold setitem2 in Hset.
        apply Nat.ltb_lt in Hj, Hi. by rewrite Hj, Hi in Hset. }
    destruct (wf_setitem2 _ _ _ _ _ Hwf Hset) as (Hwf1 & Hr1 & Hc1).
    destruct (IH (S k) hm1 Hwf1) as (hm' & Hrun & Hwf' & Hr' & Hc' & Hother & Hout & Hin).
    { lia. } { by rewrite Hc1. } { done. }
    exists hm'. split; [done|]. split; [done|]. split; [lia|]. split; [lia|].
    split; [|split].
    + intros j' c Hne. rewrite Hother by done.
      rewrite (entry_setitem2 _ _ _ _ _ _ _ Hwf Hset).
      by rewrite decide_False by (intros [? _]; done).
    + intros c Hc. apply not_elem_of_cons in Hc as [Hc1' Hc2].
      rewrite Hout by done. rewrite (entry_setitem2 _ _ _ _ _ _ _ Hwf Hset).
      by rewrite decide_False by (intros [_ ?]; done).
    + intros i c Hic. destruct i as [|i].
      * injection Hic as <-. rewrite Hout by done.
        rewrite (entry_setitem2 _ _ _ _ _ _ _ Hwf Hset).
        rewrite decide_True by done. by rewrite Nat.add_0_r.
      * cbn in Hic. rewrite (Hin i c Hic). do 2 f_equal. lia.
Qed.

Lemma top_indices_NoDup n_top row :
  argsort_sorts → NoDup (top_indices n_top row).
Proof.
  intros Hsort. destruct (Hsort row) as [Hperm _].
  unfold top_indices. rewrite reverse_Permutation.
  assert (NoDup (argsort row)) as Hnd by (rewrite Hperm; apply NoDup_seq).
  unfold last_n. destruct (n_top =? 0); [done|].
  eapply sublist_NoDup; [exact Hnd|]. apply sublist_drop.
Qed.

Lemma mark_rows_spec n_top similarity js :
  argsort_sorts → wf similarity →
  ∀ hm, wf hm → nrows hm = nrows similarity → ncols hm = ncols similarity →
    Forall (fun j => j < nrows similarity) js → NoDup js →
    ∃ hm', mark_rows n_top similarity js hm = Ok hm'
      ∧ wf hm' ∧ nrows hm' = nrows hm ∧ ncols hm' = ncols hm
      ∧ (∀ j c, j ∉ js → entry hm' j c = entry hm j c)
      ∧ (∀ j c, j ∈ js →
           let top := top_indices n_top (nth j (data similarity) []) in
           (c ∉ top → entry hm' j c = entry hm j c)
           ∧ (∀ k, top !! k = Some c →
                entry hm' j c = float_of_int (Z.of_nat n_top - Z.of_nat k))).
Proof.
  intros Hsort Hsim.
  induction js as [|j js IH]; intros hm Hwf Hr Hc Hjs Hnd.
  - exists hm. cbn [mark_rows].
    do 5 (split; [done|]). intros j c Hj. by apply elem_of_nil in Hj.
  - cbn [mark_rows]. unfold mbind, result_bind, rbind.
    apply Forall_cons in Hjs as [Hj Hjs]. apply NoDup_cons in Hnd as [Hnj Hnd].
    set (top := top_indices n_top (nth j (data similarity) [])).
    destruct (mark_row_spec n_top j top 0 hm Hwf) as
      (hm1 & Hrun1 & Hwf1 & Hr1 & Hc1 & Hother1 & Hout1 & Hin1).
    { lia. }
    { apply Forall_forall. intros idx Hidx. apply top_indices_lt in Hidx; [|done].
      rewrite row_length in Hidx by done. lia. }
    { by apply top_indices_NoDup. }
    rewrite Hrun1.
    destruct (IH hm1 Hwf1) as (hm' & Hrun & Hwf' & Hr' & Hc' & Hother & Hin);
      [lia|lia|done|done|].
    exists hm'. split; [done|]. split; [done|]. split; [lia|]. split; [lia|].
    split.
    + intros j' c Hj'. apply not_elem_of_cons in Hj' as [Hne Hj'].
      rewrite Hother by done. by apply Hother1.
    + intros j' c Hj'. apply elem_of_cons in Hj' as [->|Hj'].
      * fold top. cbn zeta. rewrite Hother by done. split.
        -- apply Hout1.
        -- intros k Hk. by rewrite (Hin1 k c Hk).
      * destruct (Hin j' c Hj') as [Hout' Hin']. split.
        -- intros Hc0. rewrite Hout' by done. apply Hother1. by intros ->.
        -- done.
Qed.

Lemma entry_zeros n c j i : entry (zeros n c) j i = 0%float.
Proof.
  unfold entry, zeros. cbn [data]. rewrite (nth_lookup _ _ []).
  destruct (replicate n (replicate c 0%float) !! j) as [r|] eqn:Hr.
  - apply lookup_replicate in Hr as [-> _]. cbn. rewrite nth_lookup.
    destruct (replicate c 0%float !! i) as [x|] eqn:Hx; [|done].
    by apply lookup_replicate in Hx as [-> _].
  - cbn. by destruct i.
Qed.

(** X16: for a similarity matrix with rows of its width, the cell never
    raises; [hit_matrix] has the shape of [similarity]; in row [j] the
    column that is the [k]-th of the top indices of row [j] (the best has
    [k = 0]) holds [n_top - k], and every other column holds zero; the
    variable [hit] is still 0 at the end, because [hit +1] assigns
    nothing. *)
Theorem hit_matrix_marks_top_indices (n_top : nat) (similarity : ndarray) :
  argsort_sorts → wf similarity →
  ∃ hit_matrix,
    hit_matrix_cell n_top similarity = Ok (hit_matrix, 0)
    ∧ wf hit_matrix
    ∧ nrows hit_matrix = nrows similarity
    ∧ ncols hit_matrix = ncols similarity
    ∧ ∀ j c, j < nrows similarity →
        let top := top_indices n_top (nth j (data similarity) []) in
        (c ∉ top → entry hit_matrix j c = 0%float)
        ∧ (∀ k, top !! k = Some c →
             entry hit_matrix j c = float_of_int (Z.of_nat n_top - Z.of_nat k)).
Proof.
  intros Hsort Hsim. unfold hit_matrix_cell, mbind, result_bind, rbind.
  destruct (mark_rows_spec n_top similarity (seq 0 (nrows similarity)) Hsort Hsim
              (zeros (nrows similarity) (ncols similarity)))
    as (hm & Hrun & Hwf & Hr & Hc & _ & Hin).
  { apply wf_zeros. } { done. } { done. }
  { apply Forall_forall. intros j Hj. apply elem_of_seq in Hj. lia. }
  { apply NoDup_seq. }
  rewrite Hrun. exists hm. split; [done|]. split; [done|].
  split; [done|]. split; [done|].
  intros j c Hj. destruct (Hin j c) as [Hout Hk].
  { apply elem_of_seq. lia. }
  split; [|done]. intros Hc0. rewrite Hout by done. apply entry_zeros.
Qed.

End HitMatrixFacts.

Import Np Decoder HitMatrix.

Lemma hit_matrix_marks_top_indices_witness :
  ∃ hit_matrix,
    @hit_matrix_cell Examples.L0 2 Examples.similarity_2x3 = Ok (hit_matrix, 0)
    ∧ data hit_matrix = [[1; 2; 0]; [1; 2; 0]]%float.
Proof.
  destruct (@hit_matrix_marks_top_indices Examples.L0 2 Examples.similarity_2x3)
    as (hm & Hrun & _).
  - apply ScoreFacts.ref_argsort_sorts.
  - apply NpFacts.wfb_wf. reflexivity.
  - exists hm. split; [done|].
    assert (@hit_matrix_cell Examples.L0 2 Examples.similarity_2x3
            = Ok (mk 2 3 [[1; 2; 0]; [1; 2; 0]]%float, 0)) as Hc
      by (vm_compute; reflexivity).
    rewrite Hc in Hrun. by injection Hrun as <-.
Defined.

End HitMatrixFacts.

(** ** Word vectors in context *)

Module ContextFacts.
Section ContextFacts.
Context {L : Lib}.
Import Np NpFacts Notebook Resampler Decoder Scrambling Spec Context ContextSpec.
Import DecoderFacts ScoreFacts.

Lemma weighted_rows_ok weight m first ws :
  Forall (fun w => w < length weight ∧ first + w < nrows m) ws →
  weighted_rows weight m first ws
  = Ok (map (fun w => scale (nth w weight 0%float) (nth (first + w) (data m) [])) ws).
Proof.
  induction 1 as [|w ws [Hw Hr] _ IH]; [done|].
  cbn [weighted_rows map]. unfold mbind, result_bind, rbind, getitem_list, iloc_row.
  destruct (weight !! w) as [a|] eqn:Ha.
  2:{ apply lookup_ge_None in Ha. lia. }
  apply Nat.ltb_lt in Hr. rewrite Hr, IH.
  by rewrite (nth_lookup_Some _ _ _ _ Ha).
Qed.

Lemma nth_drop {A} (l : list A) n i d : nth i (drop n l) d = nth (n + i) l d.
Proof. by rewrite !nth_lookup, lookup_drop. Qed.

Lemma context_row_formula window m i :
  length window = 6 → i < nrows m →
  context_row window m i = Ok (context_formula window m i).
Proof.
  intros Hw Hi. unfold context_row, context_formula, n_previous_words.
  destruct (i <? 6) eqn:Hlt.
  - apply Nat.ltb_lt in Hlt.
    replace (Nat.min (i + 1) 6) with (i + 1) by lia.
    rewrite weighted_rows_ok.
    2:{ apply Forall_forall. intros w Hin. apply elem_of_seq in Hin.
        rewrite last_n_drop, length_drop by lia. lia. }
    unfold mbind, result_bind, rbind. do 3 f_equal.
    apply map_ext_in. intros w Hin. apply list_elem_of_In, elem_of_seq in Hin.
    rewrite last_n_drop by lia. rewrite nth_drop, Hw.
    by replace (i + 1 - (i + 1) + w) with (0 + w) by lia.
  - apply Nat.ltb_ge in Hlt.
    replace (Nat.min (i + 1) 6) with 6 by lia.
    rewrite weighted_rows_ok.
    2:{ apply Forall_forall. intros w Hin. apply elem_of_seq in Hin. lia. }
    unfold mbind, result_bind, rbind. do 3 f_equal.
    apply map_ext_in. intros w Hin.
    by replace (i + 1 - 6 + w) with (i - 6 + 1 + w) by lia.
Qed.

(** X17: with the six weights of the window, the two branches of the
    loop are one formula: the vector of word [i] is the sum, over the
    [k = min(i + 1, 6)] words ending at word [i], of each word's vector
    times its weight, the word itself always having the last weight of
    the window, divided by [k]. So the vector uses no word after [i] and
    none more than five words back: two tables of vectors that agree on
    these words give the same vector. *)
Theorem context_row_is_a_trailing_window (window : list float) (m m' : ndarray) (i : nat) :
  length window = 6 → i < nrows m → i < nrows m' →
  (∀ d, d ≤ i → d < 6 → nth (i - d) (data m') [] = nth (i - d) (data m) []) →
  context_row window m i = Ok (context_formula window m i)
  ∧ context_row window m' i = context_row window m i.
Proof.
  intros Hw Hi Hi' Hsame. rewrite !context_row_formula by done.
  split; [done|]. unfold context_formula. do 3 f_equal.
  apply map_ext_in. intros w Hin. apply list_elem_of_In, elem_of_seq in Hin.
  f_equal. replace (i + 1 - Nat.min (i + 1) 6 + w)
    with (i - (Nat.min (i + 1) 6 - 1 - w)) by lia.
  apply Hsame; lia.
Qed.

Lemma context_rows_formula window m indices :
  length window = 6 → Forall (fun i => i < nrows m) indices →
  context_rows window m indices = Ok (map (context_formula window m) indices).
Proof.
  intros Hw. induction 1 as [|i indices Hi _ IH]; [done|].
  cbn [context_rows map]. unfold mbind, result_bind, rbind.
  by rewrite context_row_formula, IH.
Qed.

Lemma length_sum_rows rows c :
  rows ≠ [] → Forall (fun r : list float => length r = c) rows →
  length (sum_rows rows) = c.
Proof.
  destruct rows as [|r rows]; [done|]. intros _ Hall.
  apply Forall_cons in Hall as [Hr Hall]. cbn [sum_rows].
  revert r Hr. induction Hall as [|r' rows Hr' _ IH]; intros r Hr; [done|].
  cbn [foldl]. apply IH. rewrite length_zip_with. lia.
Qed.

Lemma length_context_formula window m i :
  wf m → i < nrows m → length (context_formula window m i) = ncols m.
Proof.
  intros [Hlen Hrows] Hi. unfold context_formula. rewrite length_map.
  apply length_sum_rows.
  - assert (0 < Nat.min (i + 1) 6) as Hk by lia.
    destruct (Nat.min (i + 1) 6); [lia|]. done.
  - apply Forall_forall. intros r Hr.
    apply list_elem_of_In, in_map_iff in Hr as (w & <- & Hin).
    apply list_elem_of_In, elem_of_seq in Hin.
    unfold scale. rewrite length_map.
    apply (proj1 (Forall_nth _ [] _) Hrows). lia.
Qed.

(** X18: a frame with the six weights of the window always gets
    through the context cell, however few words it has: the frame
    returned has the onsets and the words of the frame given, in their
    order, and one vector per word, of the width of the vectors given. *)
Theorem context_embedding_keeps_shape (window : list float) (word_embedding : frame) :
  length window = 6 → wf (emb word_embedding) →
  nrows (emb word_embedding) = length (onset word_embedding) →
  ∃ ctx,
    context_embedding window word_embedding = Ok ctx
    ∧ onset ctx = onset word_embedding
    ∧ word ctx = word word_embedding
    ∧ nrows (emb ctx) = nrows (emb word_embedding)
    ∧ wf (emb ctx)
    ∧ (onset word_embedding ≠ [] → ncols (emb ctx) = ncols (emb word_embedding))
    ∧ data (emb ctx)
      = map (context_formula window (emb word_embedding))
            (seq 0 (length (onset word_embedding))).
Proof.
  intros Hw Hwf Hn. unfold context_embedding.
  rewrite context_rows_formula; [|done|].
  2:{ apply Forall_forall. intros i Hi. apply elem_of_seq in Hi. lia. }
  unfold mbind, result_bind, rbind. eexists. split; [done|].
  cbn [onset word emb nrows ncols data].
  split; [done|]. split; [done|]. split; [done|]. split; [|split; [|done]].
  - split; cbn [data nrows ncols].
    + by rewrite length_map, length_seq.
    + apply Forall_forall. intros r Hr.
      apply list_elem_of_In, in_map_iff in Hr as (i & <- & Hin).
      apply list_elem_of_In, elem_of_seq in Hin.
      rewrite length_context_formula by (done || lia).
      destruct (length (onset word_embedding)); [lia|done].
  - intros Hne. destruct (onset word_embedding); done.
Qed.

(** X19: the context vectors are resampled to as many rows as the
    plain vectors: the context cell leaves the onsets alone, and the
    number of rows the resampler returns is fixed by the onsets. *)
Theorem context_resamples_to_same_length (window : list float) (word_embedding ctx : frame)
    (kind kind' : string) (convolve_hrf convolve_hrf' : bool) (out out' : ndarray) :
  interp_shape →
  context_embedding window word_embedding = Ok ctx →
  downsample_embeddings word_embedding kind convolve_hrf = Ok out →
  downsample_embeddings ctx kind' convolve_hrf' = Ok out' →
  nrows out' = nrows out ∧ ncols out' = ncols out.
Proof.
  intros Hshape Hctx Hout Hout'.
  assert (onset ctx = onset word_embedding) as Honset.
  { unfold context_embedding, mbind, result_bind, rbind in Hctx.
    destruct (context_rows _ _ _); [|done]. by injection Hctx as <-. }
  destruct (ResamplerClaims.downsample_shape _ _ _ _ Hshape Hout)
    as (ts & Hts & _ & Hr & _ & Hc).
  destruct (ResamplerClaims.downsample_shape _ _ _ _ Hshape Hout')
    as (ts' & Hts' & _ & Hr' & _ & Hc').
  rewrite Honset, Hts in Hts'. injection Hts' as <-. split; congruence.
Qed.

(** X20: the context cell scores as the decoding cell does: on the same
    subjects and target its loop stops as the decoding cell stops, and
    when it completes [context_hit] holds the hit counts the decoding
    cell leaves in [test_hit]; it changes none of the notebook's
    lists. *)
Theorem context_decoding_scores_like_decoder (sub_list : list string) (X : ndarray3)
    (Y : ndarray) (n_top : nat) (st sd : notebook) :
  let run := context_decoding sub_list X Y n_top st in
  test_hit run.1 = test_hit st
  ∧ test_similarity run.1 = test_similarity st
  ∧ map_coef run.1 = map_coef st
  ∧ scram_hit_iter run.1 = scram_hit_iter st
  ∧ rng run.1 = rng st
  ∧ match run.2, (decoder sub_list X Y n_top sd).2 with
    | Ok context_hit, Ok _ => context_hit = test_hit (decoder sub_list X Y n_top sd).1
    | Err e, Err e' => e = e'
    | _, _ => False
    end.
Proof.
  unfold context_decoding, decoder.
  lazy beta iota zeta delta [mbind M_bind bind lift modify].
  destruct (LOO_split (length sub_list)) as [splits|e]; [|done].
  lazy beta iota.
  destruct (BaselineMore.scram_folds_fitted X Y n_top splits [] st)
    as (f & _ & (Hth & Hts & Hmc & _) & Hrng & Hs & _).
  do 5 (split; [done|]).
  pose proof (ScramblingClaims.scram_folds_decoder X Y n_top splits [] st
                (reset_results sd) eq_refl) as Hsame.
  destruct (scram_folds X Y n_top splits [] st) as [st' [hits|e]],
           (for_each splits (fold_body X Y n_top) (reset_results sd)) as [sd' [[]|e']];
    cbn [fst snd] in *; done.
Qed.

End ContextFacts.

Import Np Resampler Context ContextSpec.

Lemma context_row_is_a_trailing_window_witness :
  context_row Examples.six_weights (emb Examples.three_words) 1
  = context_row Examples.six_weights (emb Examples.two_words_then_other) 1.
Proof.
  apply (context_row_is_a_trailing_window Examples.six_weights
           (emb Examples.two_words_then_other) (emb Examples.three_words) 1);
    [reflexivity | cbn; lia | cbn; lia |].
  intros d Hd _. destruct d as [|[|d]]; [reflexivity | reflexivity | lia].
Defined.

Lemma context_embedding_keeps_shape_witness :
  ∃ ctx, context_embedding Examples.six_weights Examples.three_words = Ok ctx
         ∧ nrows (emb ctx) = 3 ∧ ncols (emb ctx) = 100.
Proof.
  destruct (context_embedding_keeps_shape Examples.six_weights Examples.three_words)
    as (ctx & Hctx & _ & _ & Hr & _ & Hc & _).
  - reflexivity.
  - apply NpFacts.wfb_wf. reflexivity.
  - reflexivity.
  - exists ctx. split; [done|]. split; [done|]. by apply Hc.
Defined.

Lemma context_resamples_to_same_length_witness :
  ∃ ctx out out',
    context_embedding Examples.six_weights Examples.two_words = Ok ctx
    ∧ @downsample_embeddings Examples.L0 Examples.two_words "linear" true = Ok out
    ∧ @downsample_embeddings Examples.L0 ctx "linear" true = Ok out'
    ∧ nrows out' = nrows out.
Proof.
  destruct (context_embedding Examples.six_weights Examples.two_words)
    as [ctx|] eqn:Hctx; [|vm_compute in Hctx; discriminate].
  destruct (@downsample_embeddings Examples.L0 Examples.two_words "linear" true)
    as [out|] eqn:Hout; [|vm_compute in Hout; discriminate].
  destruct (@downsample_embeddings Examples.L0 ctx "linear" true)
    as [out'|] eqn:Hout'.
  - exists ctx, out, out'. do 3 (split; [done|]).
    apply (@context_resamples_to_same_length Examples.L0 Examples.six_weights
             Examples.two_words ctx "linear" "linear" true true out out'
             (RefFacts.ref_interp_shape _ _) Hctx Hout Hout').
  - exfalso. vm_compute in Hctx. injection Hctx as <-.
    vm_compute in Hout'. discriminate.
Defined.

End ContextFacts.

(** ** File names, and the loop of the introduction *)

Module PathsFacts.
Import Py Paths.

Lemma split_on_nonempty sep s : split_on sep s ≠ [].
Proof.
  induction s as [|c s IH]; cbn [split_on]; [done|].
  destruct (Ascii.eqb c sep); [done|]. by destruct (split_on sep s).
Qed.

Lemma split_on_no_sep sep s : rfind sep s = None → split_on sep s = [s].
Proof.
  induction s as [|c s IH]; cbn [rfind split_on]; [done|].
  destruct (rfind sep s); [done|].
  destruct (Ascii.eqb c sep); [done|]. intros _. by rewrite IH.
Qed.

Lemma split_on_with_sep sep s i :
  rfind sep s = Some i → ∃ h t, split_on sep s = h :: t ∧ t ≠ [].
Proof.
  revert i. induction s as [|c s IH]; cbn [rfind split_on]; [done|]. intros i.
  destruct (rfind sep s) as [k|] eqn:Hk.
  - intros _. destruct (IH k eq_refl) as (h & t & -> & Ht).
    destruct (Ascii.eqb c sep); eauto.
  - destruct (Ascii.eqb c sep); [|done]. intros _.
    exists EmptyString, (split_on sep s). split; [done|]. apply split_on_nonempty.
Qed.

Lemma last_cons_cons {A} (x : A) (l : list A) : l ≠ [] → last (x :: l) = last l.
Proof. by destruct l. Qed.

(** [f.split('/')[-1]] is [os.path.basename(f)]. *)
Lemma last_split_basename f : last (split_on "/" f) = Some (basename f).
Proof.
  induction f as [|c f IH]; [done|].
  unfold basename in *. cbn [split_on rfind].
  destruct (rfind "/" f) as [k|] eqn:Hk.
  - destruct (split_on_with_sep _ _ _ Hk) as (h & t & Hs & Ht).
    rewrite Hs in IH |- *. cbn [slice_from].
    destruct (Ascii.eqb c "/").
    + rewrite last_cons_cons by done. exact IH.
    + rewrite last_cons_cons by done. rewrite last_cons_cons in IH by done. exact IH.
  - rewrite (split_on_no_sep _ _ Hk) in IH |- *.
    destruct (Ascii.eqb c "/"); done.
Qed.

Lemma foldl_append_map {A B} (f : A → B) (l : list A) (acc : list B) :
  foldl (fun acc x => acc ++ [f x]) acc l = acc ++ map f l.
Proof.
  revert acc. induction l as [|x l IH]; intros acc; cbn [foldl map].
  - by rewrite app_nil_r.
  - by rewrite IH, <- app_assoc.
Qed.

Lemma file_list_split_from_map acc l :
  file_list_split_from acc l = Ok (acc ++ map basename l).
Proof.
  revert acc. induction l as [|f l IH]; intros acc; cbn [file_list_split_from map].
  - by rewrite app_nil_r.
  - unfold last_item. rewrite last_split_basename.
    unfold mbind, result_bind, rbind. by rewrite IH, <- app_assoc.
Qed.

(** X21: the three ways the introduction builds [file_list] agree on
    every list of paths: appending [f.split('/')[-1]] never raises and
    gives the list that appending [os.path.basename(f)] gives, which is
    the list of the comprehension; there is one name per path, in the
    order of the paths. *)
Theorem file_lists_agree (data_file_list : list string) :
  file_list_split data_file_list = Ok (file_list_basename data_file_list)
  ∧ file_list_comprehension data_file_list = file_list_basename data_file_list
  ∧ length (file_list_basename data_file_list) = length data_file_list.
Proof.
  unfold file_list_split, file_list_basename, file_list_comprehension.
  rewrite file_list_split_from_map, foldl_append_map. cbn [app].
  by rewrite length_map.
Qed.

Lemma rfind_slice_from sep s k :
  rfind sep s = Some k → rfind sep (slice_from (S k) s) = None.
Proof.
  revert k. induction s as [|c s IH]; cbn [rfind]; [done|]. intros k.
  destruct (rfind sep s) as [i|] eqn:Hi.
  - intros [= <-]. cbn [slice_from]. by apply IH.
  - destruct (Ascii.eqb c sep); [|done]. by intros [= <-].
Qed.

Lemma slice_from_suffix n s : ∃ pre, s = pre +:+ slice_from n s.
Proof.
  revert s. induction n as [|n IH]; intros s.
  - by exists EmptyString.
  - destruct s as [|c s]; [by exists EmptyString|].
    destruct (IH s) as [pre Hpre]. exists (String c pre).
    cbn [slice_from]. change (String c pre +:+ slice_from n s)
      with (String c (pre +:+ slice_from n s)). by rewrite <- Hpre.
Qed.

Lemma head_split_on sep s :
  ∃ h t, split_on sep s = h :: t
         ∧ rfind sep h = None
         ∧ (t = [] ∧ s = h ∨ ∃ rest, s = h +:+ String sep rest).
Proof.
  induction s as [|c s (h & t & Hs & Hh & Hrest)]; cbn [split_on].
  - exists EmptyString, []. split; [done|]. split; [done|]. by left.
  - destruct (Ascii.eqb c sep) eqn:Hc.
    + apply Ascii.eqb_eq in Hc as ->.
      exists EmptyString, (split_on sep s). split; [done|]. split; [done|].
      right. by exists s.
    + rewrite Hs. exists (String c h), t. split; [done|]. split.
      * cbn [rfind]. by rewrite Hh, Hc.
      * destruct Hrest as [[-> ->]|[rest ->]]; [by left|].
        right. by exists rest.
Qed.

Lemma rfind_app_None sep a b :
  rfind sep (a +:+ b) = None → rfind sep a = None.
Proof.
  induction a as [|c a IH]; [done|].
  change (String c a +:+ b) with (String c (a +:+ b)). cbn [rfind].
  destruct (rfind sep (a +:+ b)); [done|].
  destruct (Ascii.eqb c sep); [done|]. intros _. by rewrite IH.
Qed.

(** X22: the subject of a data file is read off its path without ever
    raising: it is the start of the file name, up to the first
    underscore when the name has one; it contains neither an underscore
    nor a slash, and the file name is what follows the last slash of the
    path. *)
Theorem subject_of_is_name_prefix (f : string) :
  ∃ sub,
    subject_of f = Ok sub
    ∧ rfind "_" sub = None
    ∧ rfind "/" sub = None
    ∧ rfind "/" (basename f) = None
    ∧ (∃ dir, f = dir +:+ basename f)
    ∧ (basename f = sub ∨ ∃ rest, basename f = sub +:+ String "_" rest).
Proof.
  unfold subject_of.
  destruct (head_split_on "_" (basename f)) as (h & t & Hs & Hh & Hrest).
  rewrite Hs. exists h. cbn [first_item].
  assert (Hb : rfind "/" (basename f) = None).
  { unfold basename. destruct (rfind "/" f) as [k|] eqn:Hk.
    - by apply rfind_slice_from.
    - done. }
  split; [done|]. split; [done|]. split.
  - destruct Hrest as [[_ Heq]|[rest Heq]].
    + by rewrite <- Heq.
    + rewrite Heq in Hb. by eapply rfind_app_None.
  - split; [done|]. split; [apply slice_from_suffix|].
    destruct Hrest as [[_ Heq]|[rest Heq]]; [by left|]. right. by exists rest.
Qed.

End PathsFacts.

Module IntroFacts.
Import Intro.
Local Open Scope Z_scope.

Lemma while_loop_runs fuel :
  ∀ x end_ csum out,
    x ≤ end_ → end_ - x ≤ Z.of_nat fuel →
    ∃ lines,
      while_loop fuel x end_ csum out = Some (end_, csum + (end_ - x) * (x + end_ - 1) / 2, out ++ lines)
      ∧ Z.of_nat (length lines) = end_ - x
      ∧ ∀ i, (i < length lines)%nat →
             ∃ c, lines !! i = Some (x + Z.of_nat i, c).
Proof.
  induction fuel as [|fuel IH]; intros x end_ csum out Hx Hfuel.
  - assert (x = end_) as -> by lia. cbn [while_loop]. rewrite Z.ltb_irrefl.
    exists []. rewrite app_nil_r, Z.sub_diag. cbn. rewrite Z.add_0_r.
    split; [done|]. split; [done|]. intros i Hi. cbn in Hi. lia.
  - cbn [while_loop]. destruct (x <? end_) eqn:Hlt.
    + apply Z.ltb_lt in Hlt.
      destruct (IH (x + 1) end_ (csum + x) (out ++ [(x, csum + x)]))
        as (lines & Hrun & Hlen & Hlines); [lia|lia|].
      exists ((x, csum + x) :: lines). rewrite Hrun, <- app_assoc. cbn [app].
      split.
      * do 3 f_equal.
        replace ((end_ - x) * (x + end_ - 1))
          with ((end_ - (x + 1)) * (x + 1 + end_ - 1) + x * 2) by lia.
        rewrite Z.div_add by lia. lia.
      * split; [cbn [length]; lia|].
        intros i Hi. destruct i as [|i].
        -- exists (csum + x). cbn. by rewrite Z.add_0_r.
        -- cbn [length] in Hi. destruct (Hlines i) as [c Hc]; [lia|].
           exists c. change (((x, csum + x) :: lines) !! S i) with (lines !! i).
           rewrite Hc. do 2 f_equal. lia.
    + apply Z.ltb_ge in Hlt. assert (x = end_) as -> by lia.
      exists []. rewrite app_nil_r, Z.sub_diag. cbn. rewrite Z.add_0_r.
      split; [done|]. split; [done|]. intros i Hi. cbn in Hi. lia.
Qed.

(** X23: the [while] loop of the introduction, from any [x], [end] and
    [csum]: when [x] is below [end] it makes [end - x] passes (given at
    least that many), prints one line per pass, for [x], [x + 1], ...,
    and exits with [x == end] and [csum] increased by the sum of the
    integers from [x] to [end - 1], which is
    [(end - x) * (x + end - 1) / 2]; when [x] is not below [end] it makes
    no pass and prints nothing. *)
Theorem while_loop_sums_the_range (fuel : nat) (x end_ csum : Z) :
  (x ≤ end_ → end_ - x ≤ Z.of_nat fuel →
   ∃ lines,
     while_loop fuel x end_ csum [] = Some (end_, csum + (end_ - x) * (x + end_ - 1) / 2, lines)
     ∧ Z.of_nat (length lines) = end_ - x
     ∧ ∀ i, (i < length lines)%nat → ∃ c, lines !! i = Some (x + Z.of_nat i, c))
  ∧ (end_ ≤ x → while_loop fuel x end_ csum [] = Some (x, csum, [])).
Proof.
  split.
  - intros Hx Hfuel.
    destruct (while_loop_runs fuel x end_ csum [] Hx Hfuel) as (lines & Hrun & H).
    exists lines. by rewrite Hrun.
  - intros Hx. destruct fuel; cbn [while_loop];
      by rewrite (proj2 (Z.ltb_ge x end_) Hx).
Qed.

Lemma while_loop_sums_the_range_witness :
  ∃ lines, while_loop 10 0 10 0 [] = Some (10, 45, lines) ∧ length lines = 10%nat.
Proof.
  destruct (while_loop_sums_the_range 10 0 10 0) as [H _].
  destruct H as (lines & Hrun & Hlen & _); [lia|lia|].
  exists lines. split; [exact Hrun|]. lia.
Defined.

End IntroFacts.

(** ** The transcript, from the files to the lookup *)

Module TranscriptFacts.
Import Text TextFacts Transcript.

Lemma lower_char_fixed c :
  is_lower c = true ∨ code c = 32 ∨ code c = 39 →
  lower_char c = c ∧ in_class c = true.
Proof.
  destruct c as [[] [] [] [] [] [] [] []]; vm_compute;
    intros [H|[H|H]]; try discriminate; done.
Qed.

Lemma clean_text_eq text : clean_text text = lower (keep in_class text).
Proof. unfold clean_text. by rewrite re_sub_keep by lia. Qed.

Lemma clean_text_fixed s :
  (∀ c, In c (chars s) → is_lower c = true ∨ code c = 32 ∨ code c = 39) →
  clean_text s = s.
Proof.
  rewrite clean_text_eq. induction s as [|c s IH]; intros Hs; [done|].
  destruct (lower_char_fixed c) as [Hl Hc]; [apply Hs; by left|].
  cbn [keep]. rewrite Hc. cbn [lower]. rewrite Hl, IH; [done|].
  intros c' Hc'. apply Hs. by right.
Qed.

Lemma clean_text_chars text c :
  In c (chars (clean_text text)) → is_lower c = true ∨ code c = 32 ∨ code c = 39.
Proof.
  rewrite clean_text_eq, chars_lower, chars_keep. intros Hc.
  apply in_map_iff in Hc as (c' & <- & Hc').
  apply filter_In in Hc' as [_ Hc']. by apply lower_char_in_class.
Qed.

Lemma length_keep p s : String.length (keep p s) ≤ String.length s.
Proof.
  induction s as [|c s IH]; cbn [keep String.length]; [lia|].
  destruct (p c); cbn [String.length]; lia.
Qed.

Lemma length_lower s : String.length (lower s) = String.length s.
Proof. induction s as [|c s IH]; cbn [lower String.length]; [done|by rewrite IH]. Qed.

(** X24: cleaning is idempotent and never lengthens a text: a cleaned
    text is left as it is by a second cleaning, and the texts that
    cleaning leaves as they are are those made of lowercase Latin
    letters, spaces and apostrophes only. *)
Theorem clean_text_idempotent (text : string) :
  clean_text (clean_text text) = clean_text text
  ∧ String.length (clean_text text) ≤ String.length text
  ∧ (clean_text text = text ↔
     ∀ c, In c (chars text) → is_lower c = true ∨ code c = 32 ∨ code c = 39).
Proof.
  split; [|split].
  - apply clean_text_fixed. intros c. apply clean_text_chars.
  - rewrite clean_text_eq, length_lower. apply length_keep.
  - split.
    + intros Heq c Hc. rewrite <- Heq in Hc. by eapply clean_text_chars.
    + apply clean_text_fixed.
Qed.

Lemma length_shift_run run run_file :
  length (shift_run run run_file) = length run_file.
Proof.
  unfold shift_run. destruct (run =? 2), (run =? 3); by rewrite ?length_map.
Qed.

Lemma missing_shift_run run run_file :
  Exists (fun r : float * text_field => r.2 = Missing) (shift_run run run_file)
  ↔ Exists (fun r : float * text_field => r.2 = Missing) run_file.
Proof.
  unfold shift_run.
  destruct (run =? 2), (run =? 3); rewrite ?Exists_fmap; done.
Qed.

(** Cleaning the column returns exactly when no text is missing, and
    then keeps the rows, each with its cleaned text. *)
Lemma apply_clean_text_spec rows :
  match apply_clean_text rows with
  | Returns t =>
      length t = length rows
      ∧ Forall (fun r => clean_text (row_clean_text r) = row_clean_text r) t
      ∧ Forall (fun r : float * text_field => r.2 ≠ Missing) rows
  | TypeError => Exists (fun r : float * text_field => r.2 = Missing) rows
  end.
Proof.
  induction rows as [|[o text] rows IH]; cbn [apply_clean_text].
  - split; [done|]. split; constructor.
  - destruct text as [s|]; cbn [clean_field snd]; [|by left].
    destruct (apply_clean_text rows) as [t|].
    + destruct IH as (Hlen & Hclean & Hstr). split; [cbn; by rewrite Hlen|].
      split; constructor; try done. cbn [row_clean_text].
      apply clean_text_fixed. intros c. apply clean_text_chars.
    + by right.
Qed.

Lemma length_concat_runs (run_files : nat → list (float * text_field)) :
  length (concat (map (fun run => shift_run run (run_files run)) [1; 2; 3]))
  = length (run_files 1) + length (run_files 2) + length (run_files 3).
Proof.
  cbn [map concat]. rewrite app_nil_r, !length_app, !length_shift_run. lia.
Qed.

Lemma missing_concat_runs (run_files : nat → list (float * text_field)) :
  Exists (fun r : float * text_field => r.2 = Missing)
         (concat (map (fun run => shift_run run (run_files run)) [1; 2; 3]))
  ↔ ∃ run r, run ∈ [1; 2; 3] ∧ r ∈ run_files run ∧ r.2 = Missing.
Proof.
  cbn [map concat]. rewrite app_nil_r, !Exists_app, !missing_shift_run.
  rewrite !Exists_exists. split.
  - intros [(r & ? & ?)|[(r & ? & ?)|(r & ? & ?)]].
    + exists 1, r. split; [set_solver|done].
    + exists 2, r. split; [set_solver|done].
    + exists 3, r. split; [set_solver|done].
  - intros (run & r & Hrun & Hr & Hm).
    apply elem_of_cons in Hrun as [->|Hrun]; [left; by exists r|].
    apply elem_of_cons in Hrun as [->|Hrun]; [right; left; by exists r|].
    apply elem_of_cons in Hrun as [->|Hrun]; [right; right; by exists r|].
    by apply elem_of_nil in Hrun.
Qed.

Section Cleaned.
Context {N : Nlp}.
Import WordLookup LookupSpec LookupFacts.

(** X25: from the files to the lookup. The transcript cell stops with
    TypeError exactly when a text of one of the three files was read as
    missing (a str is needed by [re.sub]). When it returns and the
    lookup cell completes, every row of the three runs ends either in
    [word_time] or, by its word, in [error_keys], and every word in
    these two lists is a cleaned text; so a key of the table with an
    uppercase letter, a digit or a punctuation mark other than the
    apostrophe is never the word of a row of [word_time]. *)
Theorem lookup_sees_cleaned_words (d : gmap string (list float))
    (run_files : nat → list (float * text_field)) :
  sum_no_key_error →
  (paranoia_transcript run_files = TypeError
   ↔ ∃ run r, run ∈ [1; 2; 3] ∧ r ∈ run_files run ∧ r.2 = Missing)
  ∧ (∀ t st,
       paranoia_transcript run_files = Returns t →
       lookup_cell d (iterrows t) = Ok st →
       length t = length (run_files 1) + length (run_files 2) + length (run_files 3)
       ∧ length (word_time st) + length (error_keys st) = length t
       ∧ Forall (fun row : float * string => clean_text row.2 = row.2) (word_time st)
       ∧ Forall (fun word => clean_text word = word) (error_keys st)).
Proof.
  intros Hsum. unfold paranoia_transcript.
  set (rows := concat (map (fun run => shift_run run (run_files run)) [1; 2; 3])).
  pose proof (apply_clean_text_spec rows) as Hspec.
  split.
  - rewrite <- missing_concat_runs. fold rows.
    destruct (apply_clean_text rows) as [t|]; [|done].
    destruct Hspec as (_ & _ & Hstr). split; [done|].
    intros Hex. exfalso. apply Exists_exists in Hex as (r & Hr & Hm).
    rewrite Forall_forall in Hstr. by apply (Hstr r Hr).
  - intros t st Ht Hrun. rewrite Ht in Hspec. destruct Hspec as (Hlen & Hclean & _).
    destruct (lookup_rows_lists d _ Hsum _ _ Hrun) as (Hwt & Hek & _ & vs & Hwe & Hvs).
    cbn in Hwt, Hek. rewrite Hwt, Hek.
    assert (Hrows : Forall (fun row : float * string => clean_text row.2 = row.2)
                      (iterrows t)).
    { unfold iterrows. apply Forall_fmap. eapply Forall_impl; [exact Hclean|]. done. }
    split; [by rewrite Hlen; apply length_concat_runs|]. split; [|split].
    + rewrite length_map, <- (length_app (filter _ _)).
      rewrite (filter_app_complement (embeddable d)).
      unfold iterrows. by rewrite length_map.
    + apply Forall_forall. intros row Hrow.
      apply list_elem_of_filter in Hrow as [_ Hrow].
      rewrite Forall_forall in Hrows. by apply Hrows.
    + apply Forall_forall. intros w Hw.
      apply list_elem_of_In, in_map_iff in Hw as (row & <- & Hrow).
      apply list_elem_of_In, list_elem_of_filter in Hrow as [_ Hrow].
      rewrite Forall_forall in Hrows. by apply Hrows.
Qed.

End Cleaned.

Import WordLookup LookupSpec.

Lemma lookup_sees_cleaned_words_witness :
  (∃ t st, paranoia_transcript Examples.three_run_files = Returns t
           ∧ @lookup_cell RefNlp.nlp Examples.small_table (iterrows t) = Ok st
           ∧ length (word_time st) + length (error_keys st) = 3)
  ∧ paranoia_transcript Examples.run_files_with_null = TypeError.
Proof.
  split.
  - destruct (paranoia_transcript Examples.three_run_files) as [t|] eqn:Ht;
      [|vm_compute in Ht; discriminate].
    destruct (@lookup_cell RefNlp.nlp Examples.small_table (iterrows t))
      as [st|] eqn:Hrun.
    2:{ vm_compute in Ht. injection Ht as <-. vm_compute in Hrun. discriminate. }
    exists t, st. split; [done|]. split; [done|].
    destruct (@lookup_sees_cleaned_words RefNlp.nlp Examples.small_table
                Examples.three_run_files LookupFacts.ref_sum_no_key_error)
      as [_ H].
    destruct (H t st Ht Hrun) as (Hlen & Hsum & _).
    rewrite Hsum, Hlen. reflexivity.
  - apply (@lookup_sees_cleaned_words RefNlp.nlp Examples.small_table
             Examples.run_files_with_null LookupFacts.ref_sum_no_key_error).
    exists 2, (1.5%float, Missing). split; [set_solver|]. split; [left|done].
Defined.

End TranscriptFacts.

(** ** Scrambled frames, and windows that are too short *)

Module EdgeFacts.
Section EdgeFacts.
Context {L : Lib}.
Import Np NpFacts Resampler Decoder Scrambling Context.

Lemma rows_at_out_of_range perm m :
  ¬ Forall (fun i => i < nrows m) perm → rows_at perm m = Err IndexError.
Proof.
  induction perm as [|i perm IH]; intros Hbad.
  - exfalso. apply Hbad. constructor.
  - cbn [rows_at]. destruct (i <? nrows m) eqn:Hi; [|done].
    apply Nat.ltb_lt in Hi. unfold mbind, result_bind, rbind.
    rewrite IH; [done|]. intros Hall. apply Hbad. by constructor.
Qed.

(** X26: scrambling by position: when the permutation has one position
    per word, word [i] of the scrambled frame keeps its onset and its
    text and gets the vector of word [perm[i]]; the identity permutation
    gives the frame back; a position that is not a row of the frame
    raises IndexError. *)
Theorem scramble_moves_vectors (perm : list nat) (we : frame) :
  length (onset we) = nrows (emb we) →
  length (data (emb we)) = nrows (emb we) →
  (length perm = length (onset we) →
   Forall (fun i => i < nrows (emb we)) perm →
   scramble perm we
   = Ok (mkframe (onset we) (word we)
                 (mk (nrows (emb we)) (ncols (emb we))
                     (map (fun i => nth i (data (emb we)) []) perm))))
  ∧ scramble (seq 0 (length (onset we))) we = Ok we
  ∧ (¬ Forall (fun i => i < nrows (emb we)) perm → scramble perm we = Err IndexError).
Proof.
  intros Hn Hd.
  assert (Hgen : ∀ p, length p = length (onset we) →
            Forall (fun i => i < nrows (emb we)) p →
            scramble p we
            = Ok (mkframe (onset we) (word we)
                          (mk (nrows (emb we)) (ncols (emb we))
                              (map (fun i => nth i (data (emb we)) []) p)))).
  { intros p Hlen Hall. unfold scramble. rewrite (ScramblingClaims.rows_at_all _ _ Hall).
    unfold mbind, result_bind, rbind. rewrite Hlen, Nat.sub_diag, Nat.max_id.
    cbn [replicate]. by rewrite !app_nil_r, Hn. }
  split; [apply Hgen|]. split.
  - rewrite Hgen.
    + rewrite Hn, <- Hd, ScramblingClaims.nth_seq_all.
      destruct we as [o w [r c d]]; cbn in *. by rewrite Hd.
    + by rewrite length_seq.
    + apply Forall_forall. intros i Hi. apply elem_of_seq in Hi. lia.
  - intros Hbad. unfold scramble. by rewrite rows_at_out_of_range.
Qed.

Lemma weighted_rows_short weight m first pre w post :
  Forall (fun w' => w' < length weight ∧ first + w' < nrows m) pre →
  length weight ≤ w →
  weighted_rows weight m first (pre ++ w :: post) = Err IndexError.
Proof.
  intros Hpre Hw. induction Hpre as [|w' pre [Hw' Hr] _ IH].
  - cbn [app weighted_rows]. unfold getitem_list.
    by rewrite (proj2 (lookup_ge_None weight w) Hw).
  - cbn [app weighted_rows]. unfold mbind, result_bind, rbind, getitem_list, iloc_row.
    destruct (weight !! w') as [a|] eqn:Ha.
    2:{ apply lookup_ge_None in Ha. lia. }
    apply Nat.ltb_lt in Hr. by rewrite Hr, IH.
Qed.

Lemma context_rows_stop window m pre i post e :
  Forall (fun j => is_ok (context_row window m j) = true) pre →
  context_row window m i = Err e →
  context_rows window m (pre ++ i :: post) = Err e.
Proof.
  intros Hpre Hi. induction Hpre as [|j pre Hj _ IH].
  - cbn [app context_rows]. by rewrite Hi.
  - cbn [app context_rows]. unfold mbind, result_bind, rbind.
    destruct (context_row window m j); [|done]. by rewrite IH.
Qed.

(** X27: a window with fewer than six weights stops the context cell
    as soon as the frame has more words than the window has weights:
    the words before that one get their vectors, and at the word whose
    position is the number of weights the cell reads a weight that is
    not there and raises IndexError. *)
Theorem context_embedding_short_window (window : list float) (word_embedding : frame) :
  length window < 6 →
  length window < length (onset word_embedding) →
  nrows (emb word_embedding) = length (onset word_embedding) →
  (∀ i, i < length window →
        is_ok (context_row window (emb word_embedding) i) = true)
  ∧ context_embedding window word_embedding = Err IndexError.
Proof.
  intros Hw Hn Hrows.
  assert (Hbefore : ∀ i, i < length window →
            is_ok (context_row window (emb word_embedding) i) = true).
  { intros i Hi. unfold context_row, n_previous_words.
    replace (i <? 6) with true by (symmetry; apply Nat.ltb_lt; lia).
    rewrite ContextFacts.weighted_rows_ok; [done|].
    apply Forall_forall. intros w Hin. apply elem_of_seq in Hin.
    rewrite ScoreFacts.last_n_drop, length_drop by lia. lia. }
  split; [exact Hbefore|].
  unfold context_embedding.
  assert (Hseq : seq 0 (length (onset word_embedding))
                 = seq 0 (length window)
                   ++ length window
                      :: seq (S (length window))
                             (length (onset word_embedding) - S (length window))).
  { replace (length (onset word_embedding))
      with (length window + S (length (onset word_embedding) - S (length window)))
      at 1 by lia.
    by rewrite seq_app. }
  rewrite Hseq, (context_rows_stop _ _ _ _ _ IndexError); [done| |].
  - apply Forall_forall. intros i Hi. apply elem_of_seq in Hi. apply Hbefore. lia.
  - unfold context_row, n_previous_words.
    replace (length window <? 6) with true by (symmetry; apply Nat.ltb_lt; lia).
    rewrite ScoreFacts.last_n_drop by lia.
    replace (length window - (length window + 1)) with 0 by lia. rewrite drop_0.
    replace (seq 0 (length window + 1)) with (seq 0 (length window) ++ [length window])
      by (by rewrite seq_app).
    rewrite weighted_rows_short; [done| |lia].
    apply Forall_forall. intros w Hin. apply elem_of_seq in Hin. lia.
Qed.

End EdgeFacts.

Import Np Resampler Scrambling Context.

Lemma scramble_moves_vectors_witness :
  @scramble [1; 2; 0] Examples.three_words
  = Ok (mkframe (onset Examples.three_words) (word Examples.three_words)
          (mk 3 100 [replicate 100 2; replicate 100 4; replicate 100 1]%float)).
Proof.
  destruct (scramble_moves_vectors [1; 2; 0] Examples.three_words) as [H _];
    [reflexivity | reflexivity |].
  rewrite H; [reflexivity | reflexivity |].
  repeat constructor.
Defined.

Lemma context_embedding_short_window_witness :
  context_embedding [0.5; 1]%float Examples.three_words = Err IndexError.
Proof.
  apply (context_embedding_short_window [0.5; 1]%float Examples.three_words);
    [cbn; lia | cbn; lia | reflexivity].
Defined.

End EdgeFacts.
